(* ===== verification/_CoqProject ===== *)
-Q . S2P
Prelude.v
PyStr.v
PyInt.v
Toolchain.v
Reloc.v
Reconstruct.v
Symbols.v
MapReader.v
Report.v
OrderData.v
Regex.v
PyIO.v
AddNonmatching.v
TextExtract.v
BehaviorsHeaders.v
UnusedAsm.v
