(* ===== verification/Prelude.v ===== *)
(** * A verification development for sm64_match_helpers

    The repository is a set of Python scripts that help match a decompiled
    Nintendo 64 game against its original ROM.  Two of them share the one
    real algorithm: [src/order_bss.py] and [src/order_data.py]
    reconstruct the 32-bit address that a MIPS HI16/LO16 relocation pair
    refers to, and use it to order symbols (order_bss) or object files
    (order_data) by address.  The four others drive tools and edit files:
    [src/add_nonmatching.py] swaps a function that does not match yet
    for its EU assembly, [src/behaviors_headers.py] prepends the
    [#include]s a behavior file needs, [src/text_extract.py] decodes and
    dumps text tables, [src/unused_asm.py] moves EU assembly files.

    ** The program and how its parts interact

    - Linker-Map Reader ([get_o_files_and_offsets]): map text ->
      (object path, file offset) pairs, in link order.
    - Symbol Enumerator ([get_symbols]): [objdump -t] -> symbol names of a
      segment.
    - Relocation Locator (first half of [get_real_ram_addrs]):
      [objdump -rd] -> the HI16 and LO16 offsets of a symbol.
    - Address Reconstructor (second half, [get_asm_line]): the two
      instructions, disassembled by [mipsdisasm], -> the address.
    - Ordering Report (the [__main__] blocks): the loops over objects and
      symbols, the [symbol_positions] / [file_order] dicts, the final sort.
    - add_nonmatching: first-diff.py names the function ->
      [write_asm] writes its disassembly -> [replace_function] wraps the
      C definition in [#if]/[GLOBAL_ASM]/[#else]/[#endif] -> make ->
      first-diff.py again; the operator answers [prompt]s in between.
    - behaviors_headers: gcc's diagnostics -> identifiers -> headers
      ([find_symbol], [find_function], by prefix or [grep]) -> the sorted
      [#include] lines prepended to the file.
    - text_extract: ROM bytes -> phrases ([parse]) -> characters
      ([charmap], [translate]); the [__main__] block dumps bytes as a C
      array; [ezcopy] and [print_triplet] print C declarations.
    - unused_asm: the [*eu.s] files of [asm/non_matchings] -> moved to
      [eu/] -> the first C file naming them updated.
    The order_* scripts reach the outside world through the class
    [Toolchain] ([Toolchain.v]): the stdout of a command line, [is_file]
    and [read_text].  The four others run in the [io] monad of [PyIO.v]:
    a world with a file system, working directory, environment, the
    operator's input and a trace of effects, and programs given by the
    oracle class [Shell].  Every theorem holds for every [Toolchain] and
    [Shell]; the witnesses run the scripts on sample ones.

    ** Files

    - [Prelude.v] (this file): Python exceptions as the [result] monad
      ([Ok]/[Raise], [catch] for [try]/[except]), its notation in
      [py_scope], [getitem]/[getlast] for indexing, [mapM], the
      [inv_bind]/[py_simp] tactics, hint databases, and a model of
      Python's stable [sorted(key=...)] ([sort_keyed], [py_sorted]) with
      its sorted/permutation/stability lemmas ([py_sorted_spec]).
    - [PyStr.v]: the [str] methods the scripts call ([split], [split()] as
      [words], [strip], [in] as [contains], [startswith], [endswith],
      [replace], [join], iteration over the lines of a file) and the
      splitting and joining lemmas ([join_split], [sep_unique]).
    - [PyInt.v]: [int(s, 16)] ([int16], CPython's accepted syntax, with
      [ValueError]), [hex] and [str] on integers; [int16_hex] (round
      trip) and [int16_shift16] (appending "0000" shifts by 16 bits).
    - [Toolchain.v]: the [Toolchain] class and [pathlib] paths.
    - [Reloc.v] (Module [Reloc]): [scan_relocs], [classify],
      [find_hi_lo] = order_bss.py 45-67.
    - [Reconstruct.v] (Module [Reconstruct]): [get_asm_line],
      [hi_immediate], [lo_immediate], [ram_addr_of] (one pass of the
      [for rom_func] body), [get_real_ram_addrs], [get_real_ram_addr]; the
      MIPS meaning of the pair ([sext16], [lui_lo_addr]).
    - [Symbols.v] (Module [Symbols]): [select_symbols], [get_symbols].
    - [MapReader.v] (Module [MapReader]): [scan_map] (the loop with its
      [seen_main] state, shared by both scripts), [resolve_bss],
      [resolve_data], [offset_of], [get_o_files_and_offsets_*].
    - [Report.v] (Module [Report]): [observe], [record_symbols],
      [order_bss_loop], [order_bss_main] (order_bss.py 174-235).
    - [OrderData.v] (Module [OrderData]): [file_max], [order_data_loop],
      [order_data_main] (order_data.py 132-165).
    - [Regex.v] (Module [Regex]): [re.match] on the fragment the scripts
      use (literals, [.], greedy [.*], groups): a backtracking matcher
      [mtch], its declarative semantics [mrun], soundness, completeness
      and greediness.
    - [PyIO.v]: the [world], the [io] monad (stdpp's [MRet]/[MBind]),
      [print], [input], [os.environ], [os.chdir], file reads and writes,
      [iterdir], [rglob], [Path.replace], [unlink], [subprocess.run]; the
      write discipline [writes_only] with its [solve_writes] tactic and
      hint database [io_writes].
    - [AddNonmatching.v] (Module [AddNonmatching]): [replace_function]
      ([rf_step]/[rf_loop], the in-place rewrite), [write_asm]
      ([write_asm_loop]), [get_next_nonmatching] ([first_diff]), [make],
      [prompt] ([prompt_go]), [main].
    - [TextExtract.v] (Module [TextExtract]): [chunks] (with a reference
      [chunks_ref] defined by well-founded recursion in Equations),
      [get_n_bytes], [parse], [charmap], [translate], [print_triplet],
      [ezcopy], the [__main__] dump ([dump_loop], [main]).
    - [BehaviorsHeaders.v] (Module [BehaviorsHeaders]): [quoted] and
      [get_unknown_symbols]/[get_unknown_functions], [find_symbol]
      ([grep_first]), [find_function] ([grep_headers]),
      [get_print_includes], [process] (one file), [main].
    - [UnusedAsm.v] (Module [UnusedAsm]): [delete_if_unused], [is_eu],
      [dest_of], [replace_in_sources] (the [rglob] loop), [move_one],
      [main].

    ** What is proved

    - Reconstruction (C1, C2): on disassembly lines of the documented
      shape the script computes [(hi << 16) + lo] with the sign of [lo],
      and this refines the 32-bit [lui]/[addiu] address whenever that does
      not wrap.  C19 and C20 are the general cases where it does not:
      every pair with a zero high half and a low half of 0x8000 or more
      prints a negative number (the 32-bit address minus 2^32), and every
      LO16 line whose first "0x" is not after a minus sign loses the sign
      of its immediate.
    - Relocation scan (C3-C6): the scan keeps the last HI16 and the last
      LO16 site, raises at an untagged mention; one pair gives the pair,
      one half raises, no mention gives [None].  C21: [symbol in line] is
      a substring test: for any symbol contained in another one, the
      other symbol's relocations are taken as its own.
    - Ordering report (C7-C11): first observation wins, conflicts are
      reported, the table only grows, keeps one row per symbol and [hex]
      addresses, so the final sort never raises and its output is sorted
      by address; C11 states the whole run (map, tools, symbols, loop)
      that leads to the report.  order_data (C17, C18): a failing symbol only drops
      out of its object's maximum; the output is sorted by key.
    - Map reader (C12-C14, C22): only the [.main]..[.engine] region
      counts; offsets are [hex(address - 0x80240800)] and read back
      exactly, for any map (C13); a truncated map raises [IndexError];
      order_data's missing [*.o] filter makes any wildcard line an object
      entry that order_bss skips (C22).
    - Symbol enumerator (C15, C16): total for visible tags, and exactly
      the trailing names of the selected rows.
    - add_nonmatching (C23-C32): [replace_function] wraps a definition
      as intended and only inserts lines (C23, C24), its [#if]s are
      balanced unless the function's name recurs inside its body (C25),
      and any second line naming it and opening a block before the
      closing brace yields two [#if]s and one [#endif] (C26); [prompt] returns the first allowed answer (C27); with
      [--no-replace] only the [_eu.s] file is written, and answering [n]
      writes nothing (C28, C29); [os.chdir] breaks a relative
      [sm64_source] (C30); the content of the assembly file (C31); the
      triple read from first-diff.py (C32).
    - text_extract (C33-C36): [chunks] equals the reference splitting
      (C33); [parse] loses only the padding (C34); the dump prints every
      byte from 0xFF50 to the end of the image (C35); [ezcopy]'s output
      (C36).
    - behaviors_headers (C37-C39): the rewritten file is the sorted,
      duplicate-free include block followed by the old text (C37); an
      unclosed quote raises (C38); [".h"] anywhere on a grep line selects
      the file (C39).
    - unused_asm (C40): only the first C file naming a moved file is
      updated.

    ** Bounds and fuel

    [to_digits] and [to_dec] (the digits printed by [hex] and [str])
    recurse on fuel [log2 n]; [hex_fuel] shows [n < 16 * 2 ^ fuel], which
    [to_digits_spec] needs, so the fuel never runs out.  [range_from]
    (Python's [range]) takes the stop as fuel, which [range_chunks]
    shows is enough.  [prompt] runs [prompt_go] with one more unit of
    fuel than there are lines of input; every round reads a line, so
    [prompt_go_spec] (an allowed answer is returned) and [prompt_go_eof]
    ([EOFError]) cover every input and the empty-fuel branch is never
    taken.  [chunks_ref] terminates by well-founded recursion on the
    length.  Every other function is structural.  Addresses are
    unbounded [Z], as in Python; [lui_lo_addr] keeps the MIPS value at
    32 bits with [Z.land]/[Z.ones].

    ** Not modelled

    The external programs (objdump, mipsdisasm, gcc, grep, make,
    first-diff.py) are oracles, not models.  [argparse] is not modelled:
    [main] functions take the parsed arguments.  [random.randint] is the
    parameter [seed].  Set and directory iteration orders are those of
    stdpp's [gset] and [gmap] (CPython's are unspecified).  Prints are
    kept only where they carry information in order_bss/order_data (the
    warnings, the map diagnostics); the interactive scripts keep all of
    them in the trace.  [min_symbol] of order_data is never read and is
    left out.  [decode("utf-8")] is taken to succeed; strings are their
    UTF-8 bytes, with [text[1:-1]] and [isalnum] done per character in
    text_extract.  Non-ASCII whitespace of [str.isspace], the POSIX "//"
    path root, symbolic links and empty directories are not modelled. *)

From Stdlib Require Import ZArith String Ascii.
From Stdlib Require Export Sorted.
From stdpp Require Export base list strings decidable.

(** stdpp makes string concatenation opaque to [simpl]; the string
    proofs of this development compute with it, so it unfolds again on
    a constructor. *)
Arguments String.append : simpl nomatch.

(** ** Python exceptions and the result monad

    Every Python operation the scripts use that can raise is modelled as a
    function into [result A]: [Ok a] is a normal return and [Raise e] an
    exception that propagates, exactly like an uncaught Python exception,
    until a [try]/[except] ([catch]) handles it. *)

Inductive PyExc :=
| ValueError                 (* int(s, 16) on a malformed string *)
| IndexError                 (* lst[i] or s[-1] out of range *)
| Exception (msg : string)   (* raise Exception(msg) in the scripts *)
| OSError (msg : string)     (* FileNotFoundError, EnvironmentError *)
| EOFError                   (* input() at the end of standard input *)
| AttributeError.            (* re.match(...).group on a failed match *)

Inductive result (A : Type) : Type :=
| Ok (a : A)
| Raise (e : PyExc).
Arguments Ok {A} a.
Arguments Raise {A} e.

Definition bind {A B} (c : result A) (k : A -> result B) : result B :=
  match c with
  | Ok a => k a
  | Raise e => Raise e
  end.

Definition fmap_result {A B} (f : A -> B) (c : result A) : result B :=
  bind c (fun a => Ok (f a)).

(** [try: c  except Exception: h] *)
Definition catch {A} (c : result A) (h : PyExc -> result A) : result A :=
  match c with
  | Ok a => Ok a
  | Raise e => h e
  end.

Definition is_ok {A} (c : result A) : bool :=
  match c with Ok _ => true | Raise _ => false end.

Declare Scope py_scope.
Delimit Scope py_scope with py.
Notation "x <- c ;; k" := (bind c (fun x => k))
  (at level 100, c at next level, right associativity) : py_scope.
Open Scope py_scope.

(** [lst[i]] for a non-negative index and [lst[-1]]. *)
Definition getitem {A} (l : list A) (i : nat) : result A :=
  match l !! i with
  | Some x => Ok x
  | None => Raise IndexError
  end.

Definition getlast {A} (l : list A) : result A :=
  match list.last l with
  | Some x => Ok x
  | None => Raise IndexError
  end.

(** [mapM] over a list, stopping at the first exception (a Python list
    comprehension whose body may raise). *)
Fixpoint mapM {A B} (f : A -> result B) (l : list A) : result (list B) :=
  match l with
  | [] => Ok []
  | x :: l' => y <- f x ;; ys <- mapM f l' ;; Ok (y :: ys)
  end.

(** ** Generic lemmas *)

Lemma bind_Ok {A B} (c : result A) (k : A -> result B) (b : B) :
  bind c k = Ok b <-> exists a, c = Ok a /\ k a = Ok b.
Proof. destruct c; simpl; split; [eauto|intros (?&[= ->]&?); done|done|naive_solver]. Qed.

Lemma bind_Raise {A B} (c : result A) (k : A -> result B) e :
  bind c k = Raise e <-> c = Raise e \/ exists a, c = Ok a /\ k a = Raise e.
Proof. destruct c; simpl; naive_solver. Qed.

Lemma bind_ret {A B} (a : A) (k : A -> result B) : bind (Ok a) k = k a.
Proof. done. Qed.

Lemma getitem_lookup {A} (l : list A) i x : l !! i = Some x -> getitem l i = Ok x.
Proof. unfold getitem. by intros ->. Qed.

Lemma getitem_head {A} (l : list A) x : head l = Some x -> getitem l 0 = Ok x.
Proof. destruct l; simpl; [done|]. by intros [= ->]. Qed.

Lemma getitem_ge {A} (l : list A) i : length l <= i -> getitem l i = Raise IndexError.
Proof. unfold getitem. intros H. by rewrite lookup_ge_None_2. Qed.

Lemma getlast_snoc {A} (l : list A) x : getlast (l ++ [x]) = Ok x.
Proof. unfold getlast. by rewrite last_snoc. Qed.

Lemma mapM_Ok {A B} (f : A -> result B) l ys :
  mapM f l = Ok ys <-> Forall2 (fun x y => f x = Ok y) l ys.
Proof.
  revert ys; induction l as [|x l IH]; intros ys; simpl.
  - split; [intros [= <-]; constructor|by inversion 1].
  - rewrite bind_Ok. setoid_rewrite bind_Ok. split.
    + intros (y&Hy&ys'&Hys&[= <-]). constructor; [done|by apply IH].
    + inversion 1; subst. eexists; split; [done|]. eexists; split; [by apply IH|done].
Qed.

Lemma mapM_length {A B} (f : A -> result B) l ys :
  mapM f l = Ok ys -> length ys = length l.
Proof. rewrite mapM_Ok. intros H. symmetry. by eapply Forall2_length. Qed.

(** ** Automation *)

Create HintDb pyhints discriminated.
Create Rewrite HintDb pyres.
#[export] Hint Rewrite @bind_ret : pyres.

(** [inv_bind H] splits a hypothesis [bind c k = Ok b] into its two steps. *)
Ltac inv_bind H :=
  lazymatch type of H with
  | bind _ _ = Ok _ =>
      let a := fresh "a" in let Ha := fresh "Ha" in
      apply bind_Ok in H; destruct H as (a & Ha & H); cbv beta in H
  end.

(** [py_simp] runs the result monad forward on known [Ok] values. *)
Ltac py_simp :=
  repeat match goal with
  | H : ?c = Ok _ |- context [bind ?c _] => rewrite H; simpl bind
  | |- context [bind (Ok _) _] => rewrite bind_ret
  end.

Lemma mapM_elem_of {A B} (f : A -> result B) l ys y :
  mapM f l = Ok ys -> y ∈ ys <-> exists x, x ∈ l /\ f x = Ok y.
Proof.
  revert ys; induction l as [|x l IH]; intros ys H; simpl in H.
  - injection H as <-. split; [by intros ?%elem_of_nil|]. intros (? & ?%elem_of_nil & _). done.
  - apply bind_Ok in H as (z & Hz & H). apply bind_Ok in H as (zs & Hzs & H).
    injection H as <-. rewrite elem_of_cons, (IH _ Hzs).
    setoid_rewrite elem_of_cons. split.
    + intros [->|(x0 & ? & ?)]; eauto.
    + intros (x0 & [->|?] & Hx0); [left; congruence|right; eauto].
Qed.

(** A comprehension raises when one of its elements does, provided every
    element raises the same exception. *)
Lemma mapM_raise_elem {A B} (f : A -> result B) l x e :
  x ∈ l -> f x = Raise e -> (forall y e', f y = Raise e' -> e' = e) -> mapM f l = Raise e.
Proof.
  intros Hx Hf Hall. induction l as [|y l IH]; [by apply not_elem_of_nil in Hx|]. simpl.
  destruct (f y) as [b|e'] eqn:E; simpl.
  - apply elem_of_cons in Hx as [->|Hx]; [congruence|]. by rewrite IH.
  - by rewrite (Hall _ _ E).
Qed.


(** ** [sorted(items, key=...)] with integer keys

    Python's [sorted] is stable: it orders by key and keeps the input
    order among equal keys.  [sort_keyed] is insertion sort on
    (key, item) pairs, inserting an element before the first one whose
    key is not smaller, which is stable; the three lemmas below (sorted,
    permutation, stable) determine the result uniquely, so it coincides
    with CPython's merge-based sort. *)
Section SortKeyed.
Context {A : Type}.

Fixpoint insert_keyed (x : Z * A) (l : list (Z * A)) : list (Z * A) :=
  match l with
  | [] => [x]
  | y :: l' => if Z.leb (fst x) (fst y) then x :: y :: l' else y :: insert_keyed x l'
  end.

Fixpoint sort_keyed (l : list (Z * A)) : list (Z * A) :=
  match l with
  | [] => []
  | x :: l' => insert_keyed x (sort_keyed l')
  end.

Definition key_le (x y : Z * A) : Prop := (fst x <= fst y)%Z.

Lemma insert_keyed_perm x l : insert_keyed x l ≡ₚ x :: l.
Proof.
  induction l as [|y l IH]; simpl; [done|].
  destruct (Z.leb _ _); [done|]. rewrite IH. apply perm_swap.
Qed.

Lemma sort_keyed_perm l : sort_keyed l ≡ₚ l.
Proof. induction l as [|x l IH]; simpl; [done|]. by rewrite insert_keyed_perm, IH. Qed.

Lemma insert_keyed_sorted x l : Sorted key_le l -> Sorted key_le (insert_keyed x l).
Proof.
  induction 1 as [|y l Hs IH Hhd]; simpl; [by repeat constructor|].
  destruct (Z.leb_spec (fst x) (fst y)) as [Hxy|Hxy].
  - constructor; [by constructor|]. constructor. unfold key_le. lia.
  - constructor; [done|]. destruct l as [|z l]; simpl.
    + constructor. unfold key_le. lia.
    + inversion Hhd; subst. destruct (Z.leb_spec (fst x) (fst z)); constructor; unfold key_le in *; lia.
Qed.

Lemma sort_keyed_sorted l : Sorted key_le (sort_keyed l).
Proof. induction l; simpl; [constructor|by apply insert_keyed_sorted]. Qed.

Lemma insert_keyed_filter k x l :
  Sorted key_le l ->
  filter (fun y => fst y = k) (insert_keyed x l) =
  (if decide (fst x = k) then [x] else []) ++ filter (fun y => fst y = k) l.
Proof.
  induction l as [|y l IH]; intros Hs; simpl.
  - rewrite filter_cons, filter_nil. by case_decide.
  - destruct (Z.leb_spec (fst x) (fst y)) as [Hxy|Hxy].
    + rewrite filter_cons. by case_decide.
    + rewrite !filter_cons, IH by (by apply Sorted_inv in Hs as [? ?]).
      repeat case_decide; simpl; try done; lia.
Qed.

(** Stability: among equal keys the input order is kept. *)
Lemma sort_keyed_stable k l :
  filter (fun y => fst y = k) (sort_keyed l) = filter (fun y => fst y = k) l.
Proof.
  induction l as [|x l IH]; simpl; [done|].
  rewrite insert_keyed_filter by apply sort_keyed_sorted. rewrite IH, filter_cons.
  by case_decide.
Qed.
End SortKeyed.

(** [sorted(items, key=key)] where computing a key may raise: CPython
    computes every key first, then sorts. *)
Definition py_sorted {A} (key : A -> result Z) (items : list A) : result (list A) :=
  keyed <- mapM (fun x => k <- key x ;; Ok (k, x)) items ;;
  Ok (map snd (sort_keyed keyed)).

Lemma mapM_keyed {A} (key : A -> result Z) (kval : A -> Z) items :
  (forall x, x ∈ items -> key x = Ok (kval x)) ->
  mapM (fun x => k <- key x ;; Ok (k, x)) items = Ok (map (fun x => (kval x, x)) items).
Proof.
  induction items as [|x items IH]; intros Hk; [done|]. simpl.
  rewrite Hk by (apply elem_of_cons; by left). simpl.
  rewrite IH; [done|]. intros y Hy. apply Hk. apply elem_of_cons. by right.
Qed.

Lemma Sorted_map_snd {A} (kval : A -> Z) (l : list (Z * A)) :
  Forall (fun p => fst p = kval (snd p)) l -> Sorted key_le l ->
  Sorted (fun a b => (kval a <= kval b)%Z) (map snd l).
Proof.
  intros Hf Hs. induction Hs as [|p l Hs IH Hhd]; simpl; [constructor|].
  apply Forall_cons_iff in Hf as [Hp Hf]. constructor; [by apply IH|].
  destruct Hhd as [|q l' Hpq]; simpl; constructor.
  apply Forall_cons_iff in Hf as [Hq _]. unfold key_le in Hpq. lia.
Qed.

Lemma filter_map_snd {A} (kval : A -> Z) (l : list (Z * A)) k :
  Forall (fun p => fst p = kval (snd p)) l ->
  filter (fun a => kval a = k) (map snd l) = map snd (filter (fun p => fst p = k) l).
Proof.
  induction 1 as [|p l Hp _ IH]; [done|]. simpl. rewrite !filter_cons, Hp.
  case_decide; simpl; by rewrite IH.
Qed.

(** [sorted(items, key=key)] when every key evaluates: the result is a
    permutation of [items], sorted by key, and stable. *)
Lemma py_sorted_spec {A} (key : A -> result Z) (kval : A -> Z) items :
  (forall x, x ∈ items -> key x = Ok (kval x)) ->
  exists r, py_sorted key items = Ok r /\ r ≡ₚ items /\
    Sorted (fun a b => (kval a <= kval b)%Z) r /\
    (forall k, filter (fun a => kval a = k) r = filter (fun a => kval a = k) items).
Proof.
  intros Hk. unfold py_sorted. rewrite (mapM_keyed key kval) by done. simpl.
  set (keyed := map (fun x => (kval x, x)) items).
  assert (Forall (fun p => fst p = kval (snd p)) keyed) as Hkv.
  { subst keyed. apply Forall_map. by apply Forall_true. }
  assert (Forall (fun p => fst p = kval (snd p)) (sort_keyed keyed)) as Hskv.
  { by rewrite (sort_keyed_perm keyed). }
  eexists. split_and!; [done| | |].
  - rewrite (sort_keyed_perm keyed). subst keyed. by rewrite map_map, map_id.
  - apply Sorted_map_snd; [done|apply sort_keyed_sorted].
  - intros k. rewrite filter_map_snd, sort_keyed_stable by done.
    rewrite <-(filter_map_snd kval keyed k) by done. subst keyed. by rewrite map_map, map_id.
Qed.
