(* ===== verification/PyStr.v ===== *)
(** * Python [str] methods used by the scripts

    Tool output is ASCII, so a Python [str] is modelled as a Rocq [string]
    (8-bit characters); the whitespace set is that of [str.isspace] on the
    ASCII range.  Each definition follows CPython's documented semantics:
    [split(sep)], [split()], [strip()], [in], [startswith], [endswith],
    [replace], [s[-1]] and slicing [s[:-n]]. *)

From Stdlib Require Import ZArith String Ascii.
From S2P Require Import Prelude.

Local Open Scope string_scope.

(** [c.isspace()] on ASCII: tab, LF, VT, FF, CR, the four separators
    0x1c-0x1f and space. *)
Definition isspace (c : ascii) : bool :=
  let n := nat_of_ascii c in (((9 <=? n) && (n <=? 13)) || ((28 <=? n) && (n <=? 32)))%nat.

Fixpoint srev_app (s acc : string) : string :=
  match s with
  | "" => acc
  | String c s' => srev_app s' (String c acc)
  end.
Definition srev (s : string) : string := srev_app s "".

(** [s.startswith(p)] *)
Fixpoint startswith (s p : string) : bool :=
  match p, s with
  | "", _ => true
  | String c p', String d s' => bool_decide (c = d) && startswith s' p'
  | String _ _, "" => false
  end.

(** [sub in s] *)
Fixpoint contains (s sub : string) : bool :=
  startswith s sub ||
  match s with
  | "" => false
  | String _ s' => contains s' sub
  end.

(** [s.endswith(suf)] *)
Definition endswith (s suf : string) : bool := startswith (srev s) (srev suf).

(** [s.lstrip()], [s.rstrip()], [s.strip()] *)
Fixpoint lstrip (s : string) : string :=
  match s with
  | "" => ""
  | String c s' => if isspace c then lstrip s' else s
  end.
Definition rstrip (s : string) : string := srev (lstrip (srev s)).
Definition strip (s : string) : string := rstrip (lstrip s).

(** [s.split(sep)] for a non-empty separator: the pieces between the
    non-overlapping occurrences of [sep], scanned left to right.  [skip]
    counts the characters of a separator still to be consumed and [cur]
    is the current piece, reversed.  (Python raises [ValueError] on an
    empty separator; every call site passes a non-empty literal.) *)
Fixpoint split_go (sep s : string) (skip : nat) (cur : string) : list string :=
  match s with
  | "" => [srev cur]
  | String c s' =>
      match skip with
      | S k => split_go sep s' k cur
      | O => if startswith s sep
             then srev cur :: split_go sep s' (String.length sep - 1) ""
             else split_go sep s' 0 (String c cur)
      end
  end.
Definition split (sep s : string) : list string := split_go sep s 0 "".

(** [s.split()]: maximal runs of non-whitespace characters. *)
Fixpoint words_go (s : string) (cur : string) : list string :=
  match s with
  | "" => if cur is "" then [] else [srev cur]
  | String c s' =>
      if isspace c
      then (if cur is "" then [] else [srev cur]) ++ words_go s' ""
      else words_go s' (String c cur)
  end.
Definition words (s : string) : list string := words_go s "".

(** [s.replace(old, new)] equals [new.join(s.split(old))] for a non-empty [old]. *)
Fixpoint join (sep : string) (l : list string) : string :=
  match l with
  | [] => ""
  | [x] => x
  | x :: l' => x ++ sep ++ join sep l'
  end.
Definition replace (old new s : string) : string := join new (split old s).

(** The line separator ["\n"] (Rocq string literals have no escapes). *)
Definition newline : string := String "010" "".

(** [s[-1]] *)
Definition last_char (s : string) : result ascii :=
  match srev s with
  | "" => Raise IndexError
  | String c _ => Ok c
  end.

(** [s[:-n]] for [n > 0]: all but the last [n] characters ([""] when
    [s] is shorter). *)
Definition drop_last (n : nat) (s : string) : string :=
  substring 0 (String.length s - n) s.

(** ** Lemmas *)

Lemma sapp_assoc (s t u : string) : (s ++ (t ++ u) = (s ++ t) ++ u)%string.
Proof. induction s as [|c s IH]; simpl; [done|by rewrite IH]. Qed.

Lemma sapp_nil_r (s : string) : (s ++ "")%string = s.
Proof. induction s as [|c s IH]; simpl; [done|by rewrite IH]. Qed.

Lemma srev_app_spec s acc : srev_app s acc = (srev s ++ acc)%string.
Proof.
  unfold srev. revert acc; induction s as [|c s IH]; intros acc; [done|].
  simpl. rewrite (IH (String c acc)), (IH (String c "")).
  by rewrite <-sapp_assoc.
Qed.

Lemma srev_app_distr s t : srev (s ++ t) = (srev t ++ srev s)%string.
Proof.
  induction s as [|c s IH]; simpl.
  - by rewrite sapp_nil_r.
  - unfold srev at 1 3. simpl. rewrite !srev_app_spec, IH. by rewrite sapp_assoc.
Qed.

Lemma srev_involutive s : srev (srev s) = s.
Proof.
  induction s as [|c s IH]; [done|].
  unfold srev at 2. simpl. rewrite srev_app_spec, srev_app_distr, IH. done.
Qed.

Lemma startswith_app s t : startswith (s ++ t) s = true.
Proof. induction s as [|c s IH]; simpl; [by destruct t|]. rewrite IH. by rewrite bool_decide_eq_true_2. Qed.

(** A match of [sep] that starts inside [p] and runs past its end leaves a
    non-empty tail [sep2] of [sep] to be matched at the start of [x]. *)
Lemma startswith_straddle p x sep :
  startswith (p ++ x) sep = true -> startswith p sep = false ->
  exists sep2, sep2 <> "" /\ startswith x sep2 = true /\
               exists sep1, sep = (sep1 ++ sep2)%string /\ sep1 = p.
Proof.
  revert sep; induction p as [|c p IH]; intros sep Hx Hp; simpl in *.
  - destruct sep as [|a sep]; [done|]. exists (String a sep).
    split_and!; [done|done|]. by exists "".
  - destruct sep as [|a sep]; [done|]. apply andb_prop in Hx as [Hca Hx].
    apply bool_decide_eq_true_1 in Hca; subst a. rewrite bool_decide_eq_true_2 in Hp by done.
    simpl in Hp. destruct (IH sep Hx Hp) as (sep2 & Hne & Hs & sep1 & -> & ->).
    exists sep2. split_and!; [done|done|]. by exists (String c p).
Qed.

Lemma contains_startswith s sub : startswith s sub = true -> contains s sub = true.
Proof. destruct s; simpl; by intros ->. Qed.

Lemma contains_cons_false c s sub :
  contains (String c s) sub = false ->
  startswith (String c s) sub = false /\ contains s sub = false.
Proof. simpl. by intros [? ?]%orb_false_elim. Qed.

Lemma contains_suffix s1 s2 sub : contains s2 sub = true -> contains (s1 ++ s2) sub = true.
Proof. induction s1 as [|c s1 IH]; simpl; [done|]. intros H. by rewrite IH, orb_true_r. Qed.

(** A separator whose first character does not occur again in it: every
    literal separator of the scripts ([":"], ["0x"], ["("], [newline]). *)
Definition sep_ok (sep : string) : bool :=
  match sep with
  | "" => false
  | String a s0 => negb (contains s0 (String a ""))
  end.

Lemma sep_ok_no_straddle p sep rest :
  sep_ok sep = true -> p <> "" -> contains p sep = false ->
  startswith (p ++ sep ++ rest) sep = false.
Proof.
  intros Hok Hp Hc. destruct (startswith (p ++ sep ++ rest) sep) eqn:Hs; [|done].
  exfalso. destruct p as [|c p']; [done|].
  apply contains_cons_false in Hc as [Hst _].
  destruct (startswith_straddle _ _ _ Hs Hst) as (sep2 & Hne & Hx & sep1 & Heq & ->).
  destruct sep as [|a s0]; [done|]. simpl in Hok, Heq.
  injection Heq as <- Heq. destruct sep2 as [|b sep2]; [done|].
  simpl in Hx. apply andb_prop in Hx as [Hab _]. apply bool_decide_eq_true_1 in Hab; subst b.
  assert (contains (p' ++ String a sep2) (String a "") = true) as Hin.
  { apply contains_suffix, contains_startswith. simpl.
    rewrite bool_decide_eq_true_2 by done. by destruct sep2. }
  rewrite Heq, Hin in Hok. done.
Qed.

Lemma split_go_skip sep s1 s2 cur :
  split_go sep (s1 ++ s2) (String.length s1) cur = split_go sep s2 0 cur.
Proof. induction s1; simpl; auto. Qed.

Lemma split_go_nocontains sep s cur :
  contains s sep = false -> split_go sep s 0 cur = [srev (srev_app s cur)].
Proof.
  revert cur; induction s as [|c s IH]; intros cur Hc; [done|].
  apply contains_cons_false in Hc as [Hst Hc]. simpl. simpl in Hst. rewrite Hst. by apply IH.
Qed.

Lemma split_go_app_sep sep pre rest cur :
  sep_ok sep = true -> contains pre sep = false ->
  split_go sep (pre ++ sep ++ rest) 0 cur = srev (srev_app pre cur) :: split_go sep rest 0 "".
Proof.
  intros Hok. revert cur; induction pre as [|c pre IH]; intros cur Hc.
  - destruct sep as [|a s0] eqn:Hsep; [done|]. simpl.
    rewrite bool_decide_eq_true_2, startswith_app by done. simpl.
    rewrite Nat.sub_0_r. by rewrite split_go_skip.
  - pose proof (sep_ok_no_straddle (String c pre) sep rest Hok ltac:(done) Hc) as Hs.
    change (String c pre ++ sep ++ rest)%string with (String c (pre ++ sep ++ rest)) in Hs |- *.
    cbn [split_go]. rewrite Hs.
    apply contains_cons_false in Hc as [_ Hc]. by apply IH.
Qed.

Lemma split_app_sep sep pre rest :
  sep_ok sep = true -> contains pre sep = false ->
  split sep (pre ++ sep ++ rest) = pre :: split sep rest.
Proof.
  intros. unfold split. rewrite split_go_app_sep by done.
  by rewrite srev_app_spec, sapp_nil_r, srev_involutive.
Qed.

Lemma split_nocontains sep s : contains s sep = false -> split sep s = [s].
Proof.
  intros. unfold split. rewrite split_go_nocontains by done.
  by rewrite srev_app_spec, sapp_nil_r, srev_involutive.
Qed.

(** [s.split()] on a word followed by nothing or by whitespace. *)
Fixpoint no_space (w : string) : bool :=
  match w with
  | "" => true
  | String c w' => negb (isspace c) && no_space w'
  end.

Definition starts_space (s : string) : bool :=
  match s with "" => true | String c _ => isspace c end.

Lemma words_go_word w s cur :
  no_space w = true -> words_go (w ++ s) cur = words_go s (srev_app w cur).
Proof.
  revert cur; induction w as [|c w IH]; intros cur Hw; [done|].
  simpl in Hw. apply andb_prop in Hw as [Hc Hw]. apply negb_true_iff in Hc.
  simpl. rewrite Hc. by apply IH.
Qed.

Lemma srev_nonempty w : w <> "" -> srev w <> "".
Proof. intros Hw E. apply Hw. by rewrite <-(srev_involutive w), E. Qed.

Lemma words_app_word w s :
  w <> "" -> no_space w = true -> starts_space s = true ->
  words (w ++ s) = w :: words s.
Proof.
  intros Hne Hw Hs. unfold words. rewrite words_go_word by done.
  rewrite srev_app_spec, sapp_nil_r.
  pose proof (srev_nonempty w Hne) as Hr.
  destruct s as [|c s]; simpl in Hs |- *; [|rewrite Hs];
    destruct (srev w) eqn:E; try done; rewrite <-E, srev_involutive; done.
Qed.

(** ** [sep.join(s.split(sep)) == s] *)

Lemma slength_app s t : String.length (s ++ t) = String.length s + String.length t.
Proof. induction s as [|c s IH]; simpl; [done|by rewrite IH]. Qed.

Lemma startswith_inv s p : startswith s p = true -> exists r, s = (p ++ r)%string.
Proof.
  revert s; induction p as [|c p IH]; intros s H; [by exists s|].
  destruct s as [|d s]; [done|]. simpl in H. apply andb_prop in H as [Hc H].
  apply bool_decide_eq_true_1 in Hc as ->. destruct (IH s H) as [r ->]. by exists r.
Qed.

Lemma split_go_nonempty sep s k cur : split_go sep s k cur <> [].
Proof.
  revert k cur; induction s as [|c s IH]; intros [|k] cur; cbn [split_go]; try done.
  by destruct (startswith (String c s) sep).
Qed.

Lemma join_cons sep x l : l <> [] -> join sep (x :: l) = (x ++ sep ++ join sep l)%string.
Proof. by destruct l. Qed.

Lemma srev_cons c s : srev (String c s) = (srev s ++ String c "")%string.
Proof. unfold srev at 1. simpl. by rewrite srev_app_spec. Qed.

Lemma join_split_go sep s cur :
  sep <> "" -> join sep (split_go sep s 0 cur) = (srev cur ++ s)%string.
Proof.
  intros Hsep. remember (String.length s) as n eqn:Hn.
  revert s cur Hn; induction n as [n IH] using lt_wf_ind; intros s cur Hn.
  destruct s as [|c s']; cbn [split_go].
  - simpl. by rewrite sapp_nil_r.
  - destruct (startswith (String c s') sep) eqn:Hst.
    + apply startswith_inv in Hst as [r Hr].
      destruct sep as [|a sep']; [done|]. injection Hr as <- Hr. subst s'.
      rewrite join_cons by apply split_go_nonempty.
      replace (String.length (String c sep') - 1) with (String.length sep') by (simpl; lia).
      rewrite split_go_skip, (IH (String.length r)); [done| |done].
      subst n. simpl. rewrite slength_app. lia.
    + rewrite (IH (String.length s')); [|simpl in Hn; lia|done].
      by rewrite srev_cons, <-sapp_assoc.
Qed.

Lemma join_split sep s : sep <> "" -> join sep (split sep s) = s.
Proof. intros H. unfold split. by rewrite join_split_go. Qed.

(** ** Occurrences of a separator *)

Lemma startswith_app_r s t p : startswith s p = true -> startswith (s ++ t) p = true.
Proof.
  revert s; induction p as [|c p IH]; intros [|d s] H; [by destruct t|done|done|].
  change (String d s ++ t)%string with (String d (s ++ t)).
  cbn [startswith] in H |- *. apply andb_prop in H as [-> H]. by rewrite IH.
Qed.

Lemma contains_nil sep : sep <> "" -> contains "" sep = false.
Proof. by destruct sep. Qed.

(** The first occurrence of [sep] in [s]. *)
Lemma contains_first s sep :
  sep <> "" -> contains s sep = true ->
  exists a b, s = (a ++ sep ++ b)%string /\ contains a sep = false.
Proof.
  intros Hsep. induction s as [|c s IH]; intros H.
  - by rewrite contains_nil in H.
  - change (startswith (String c s) sep || contains s sep = true) in H.
    destruct (startswith (String c s) sep) eqn:Hst.
    + apply startswith_inv in Hst as [b Hb]. exists "", b. split; [done|]. by apply contains_nil.
    + destruct (IH H) as (a & b & -> & Ha). exists (String c a), b. split; [done|].
      change (startswith (String c a) sep || contains a sep = false). rewrite Ha, orb_false_r.
      destruct (startswith (String c a) sep) eqn:E; [|done].
      pose proof (startswith_app_r _ (sep ++ b) _ E) as E'.
      change (String c a ++ sep ++ b)%string with (String c (a ++ sep ++ b)) in E'.
      by rewrite E' in Hst.
Qed.

Lemma split_inj sep x y : sep <> "" -> split sep x = split sep y -> x = y.
Proof. intros Hs E. by rewrite <-(join_split sep x), <-(join_split sep y), E by done. Qed.

Lemma sep_ok_nonempty sep : sep_ok sep = true -> sep <> "".
Proof. by destruct sep. Qed.

(** Two decompositions around a first occurrence coincide. *)
Lemma sep_cancel sep a c x y :
  sep_ok sep = true -> contains a sep = false -> contains c sep = false ->
  (a ++ sep ++ x = c ++ sep ++ y)%string -> a = c /\ x = y.
Proof.
  intros Hok Ha Hc E. apply (f_equal (split sep)) in E.
  rewrite !split_app_sep in E by done. injection E as -> E.
  split; [done|]. by eapply split_inj; [apply sep_ok_nonempty|].
Qed.

(** The part before a separator is unique when neither side of the
    given decomposition has another occurrence of it. *)
Lemma sep_unique sep a b c d :
  sep_ok sep = true -> contains a sep = false -> contains b sep = false ->
  (a ++ sep ++ b = c ++ sep ++ d)%string -> c = a /\ d = b.
Proof.
  intros Hok Ha Hb E. destruct (contains c sep) eqn:Hc.
  - destruct (contains_first c sep) as (c1 & c2 & -> & Hc1); [by apply sep_ok_nonempty|done|].
    rewrite <-!sapp_assoc in E.
    destruct (sep_cancel sep a c1 b (c2 ++ sep ++ d) Hok Ha Hc1 E) as [_ ->].
    exfalso. rewrite contains_suffix in Hb; [done|].
    apply contains_startswith, startswith_app.
  - destruct (sep_cancel sep a c b d Hok Ha Hc E). by split.
Qed.

(** ** Iterating over the lines of a text file *)

(** [for line in f]: the lines of the text, each with its newline except
    possibly the last. *)
Fixpoint file_lines_go (s cur : string) : list string :=
  match s with
  | "" => if cur is "" then [] else [srev cur]
  | String c s' =>
      if bool_decide (c = "010"%char) then srev (String c cur) :: file_lines_go s' ""
      else file_lines_go s' (String c cur)
  end.
Definition file_lines (s : string) : list string := file_lines_go s "".

(** [''.join(l)] *)
Definition sconcat (l : list string) : string := foldr String.append "" l.

Lemma file_lines_go_concat s cur : sconcat (file_lines_go s cur) = (srev cur ++ s)%string.
Proof.
  revert cur; induction s as [|c s IH]; intros cur; simpl.
  - destruct cur; simpl; [done|]. by rewrite sapp_nil_r.
  - case_bool_decide; simpl; rewrite IH; simpl; by rewrite srev_cons, <-sapp_assoc.
Qed.

(** Writing the lines back gives the text. *)
Lemma file_lines_concat s : sconcat (file_lines s) = s.
Proof. apply file_lines_go_concat. Qed.

Lemma contains_app_l a b sub : contains a sub = true -> contains (a ++ b) sub = true.
Proof.
  induction a as [|c a IH]; intros H.
  - destruct sub; [by destruct b|done].
  - change (startswith (String c a) sub || contains a sub = true) in H.
    change (startswith (String c (a ++ b)) sub || contains (a ++ b) sub = true).
    apply orb_true_iff in H as [H|H].
    + apply startswith_app_r with (t := b) in H.
      change (String c a ++ b)%string with (String c (a ++ b)) in H. by rewrite H.
    + by rewrite IH, orb_true_r.
Qed.

Lemma contains_mid a sub b : contains (a ++ sub ++ b) sub = true.
Proof. apply contains_suffix, contains_startswith, startswith_app. Qed.

Lemma contains_inv s sub : contains s sub = true -> exists a b, s = (a ++ sub ++ b)%string.
Proof.
  induction s as [|c s IH]; intros H.
  - destruct sub; [by exists "", ""|done].
  - change (startswith (String c s) sub || contains s sub = true) in H.
    apply orb_true_iff in H as [H|H].
    + apply startswith_inv in H as [b ->]. by exists "", b.
    + destruct (IH H) as (a & b & ->). by exists (String c a), b.
Qed.

Lemma startswith_nil_r s : startswith s "" = true.
Proof. by destruct s. Qed.

(** Splitting on a one-character separator distributes over an
    occurrence of it. *)
Lemma split_go_char_app c x y cur :
  split_go (String c "") (x ++ String c y) 0 cur =
  (split_go (String c "") x 0 cur ++ split_go (String c "") y 0 "")%list.
Proof.
  revert cur; induction x as [|d x IH]; intros cur.
  - cbn [split_go]. simpl. by rewrite bool_decide_eq_true_2, startswith_nil_r.
  - change (String d x ++ String c y)%string with (String d (x ++ String c y)).
    cbn [split_go]. cbn [startswith]. case_bool_decide as Hdc.
    + subst. rewrite !startswith_nil_r. simpl. by rewrite IH.
    + simpl. by rewrite IH.
Qed.

Lemma split_char_app c x y :
  split (String c "") (x ++ String c y) = (split (String c "") x ++ split (String c "") y)%list.
Proof. apply split_go_char_app. Qed.

(** [s[len(p):]] of [p ++ r] is [r]. *)
Lemma substring_skip p r n :
  String.length r <= n -> substring (String.length p) n (p ++ r) = r.
Proof.
  induction p as [|c p IH]; simpl; [|done].
  revert n; induction r as [|d r IHr]; intros [|n] Hn; simpl in *; [done|done|lia|].
  f_equal. apply IHr. lia.
Qed.

(** Joining a concatenation of non-empty lists. *)
Lemma join_app sep l1 l2 :
  l1 <> [] -> l2 <> [] -> join sep (l1 ++ l2) = join sep l1 ++ sep ++ join sep l2.
Proof.
  intros H1 H2. induction l1 as [|x l1 IH]; [done|].
  destruct l1 as [|y l1].
  - change ([x] ++ l2)%list with (x :: l2). by rewrite join_cons.
  - change ((x :: y :: l1) ++ l2)%list with (x :: ((y :: l1) ++ l2))%list.
    rewrite join_cons by done. rewrite IH by done. rewrite (join_cons sep x (y :: l1)) by done.
    by rewrite <-!sapp_assoc.
Qed.

(** Concatenation cancels on the right. *)
Lemma sapp_inj_r a b c : a ++ c = b ++ c -> a = b.
Proof.
  revert b; induction a as [|x a IH]; intros [|y b] E; [done| | |].
  - apply (f_equal String.length) in E. rewrite !slength_app in E. simpl in E. lia.
  - apply (f_equal String.length) in E. rewrite slength_app in E. simpl in E. lia.
  - injection E as -> E. f_equal. by apply IH.
Qed.
