(* ===== verification/PyInt.v ===== *)
(** * Python [int(s, 16)] and [hex(n)]

    The scripts carry every address and offset as a string produced by
    [hex] and read back with [int(_, 16)].  [int16] follows CPython's
    [PyLong_FromString] for base 16: surrounding whitespace, an optional
    sign, an optional [0x]/[0X] prefix, an optional underscore after the
    prefix, then hexadecimal digits with single underscores between them;
    anything else raises [ValueError].  [hex] prints [0x] (or [-0x]) and the
    lowercase digits without leading zeros.  The main facts: [int16] reads
    back what [hex] prints ([int16_hex]) and appending ["0000"] to a digit
    string multiplies its value by [0x10000] ([int16_shift16]). *)

From Stdlib Require Import ZArith String Ascii Lia.
From S2P Require Import Prelude PyStr.

Local Open Scope string_scope.
Local Open Scope Z_scope.

Definition lower_digits : string := "0123456789abcdef".
Definition upper_digits : string := "0123456789ABCDEF".

Fixpoint char_index (c : ascii) (s : string) : option nat :=
  match s with
  | "" => None
  | String d s' => if bool_decide (c = d) then Some 0%nat else S <$> char_index c s'
  end.

(** The value of one hexadecimal digit, either case. *)
Definition hexval (c : ascii) : option Z :=
  match char_index c lower_digits with
  | Some n => Some (Z.of_nat n)
  | None => Z.of_nat <$> char_index c upper_digits
  end.

(** Digits with single underscores between them.  [us] is true at the
    start and after an underscore: a digit must follow. *)
Fixpoint digits16 (s : string) (acc : Z) (us : bool) : option Z :=
  match s with
  | "" => if us then None else Some acc
  | String c s' =>
      if bool_decide (c = "_"%char) then (if us then None else digits16 s' acc true)
      else match hexval c with
           | Some d => digits16 s' (acc * 16 + d) false
           | None => None
           end
  end.

(** [s] without the literal prefix [p], if [s] starts with it. *)
Fixpoint strip_prefix (p s : string) : option string :=
  match p with
  | "" => Some s
  | String c p' =>
      match s with
      | String d s' => if bool_decide (c = d) then strip_prefix p' s' else None
      | "" => None
      end
  end.

(** [int(s, 16)] *)
Definition int16 (s : string) : result Z :=
  let t := strip s in
  let '(neg, t1) :=
    match strip_prefix "-" t with
    | Some r => (true, r)
    | None => match strip_prefix "+" t with Some r => (false, r) | None => (false, t) end
    end in
  let '(pfx, t2) :=
    match strip_prefix "0x" t1 with
    | Some r => (true, r)
    | None => match strip_prefix "0X" t1 with Some r => (true, r) | None => (false, t1) end
    end in
  let t3 := if pfx then default t2 (strip_prefix "_" t2) else t2 in
  match digits16 t3 0 true with
  | Some v => Ok (if neg then - v else v)
  | None => Raise ValueError
  end.

(** Base-16 digits of [n >= 0], most significant first; [fuel] bounds the
    number of digits (enough when [n < 16 * 2 ^ fuel]). *)
Fixpoint to_digits (fuel : nat) (n : Z) : list Z :=
  match fuel with
  | O => [n]
  | S f => if n <? 16 then [n] else to_digits f (n / 16) ++ [n mod 16]
  end.

Definition hexdigit (d : Z) : ascii :=
  match String.get (Z.to_nat d) lower_digits with Some c => c | None => "?"%char end.

Fixpoint of_digits (ds : list Z) : string :=
  match ds with
  | [] => ""
  | d :: ds' => String (hexdigit d) (of_digits ds')
  end.

(** The number of digits is at most [log2 n + 1], hence the fuel. *)
Definition hex_digits (n : Z) : string := of_digits (to_digits (Z.to_nat (Z.log2 n)) n).

(** [hex(z)] *)
Definition hex (z : Z) : string :=
  if z <? 0 then "-0x" ++ hex_digits (- z) else "0x" ++ hex_digits z.

Definition digits_value (ds : list Z) (acc : Z) : Z := fold_left (fun a d => a * 16 + d) ds acc.

Definition is_digit (d : Z) : Prop := 0 <= d < 16.

(** ** Digits *)

Lemma hexdigit_prop (P : ascii -> Prop) d :
  Forall P (list_ascii_of_string lower_digits) -> is_digit d -> P (hexdigit d).
Proof.
  intros HP Hd. unfold is_digit in Hd.
  assert (d = 0 \/ d = 1 \/ d = 2 \/ d = 3 \/ d = 4 \/ d = 5 \/ d = 6 \/ d = 7 \/ d = 8 \/
          d = 9 \/ d = 10 \/ d = 11 \/ d = 12 \/ d = 13 \/ d = 14 \/ d = 15) by lia.
  rewrite Forall_forall in HP.
  destruct_or!; subst; apply HP; vm_compute; repeat (solve [left; reflexivity] || right).
Qed.

Lemma hexval_hexdigit d : is_digit d -> hexval (hexdigit d) = Some d.
Proof.
  intros Hd. unfold is_digit in Hd.
  assert (d = 0 \/ d = 1 \/ d = 2 \/ d = 3 \/ d = 4 \/ d = 5 \/ d = 6 \/ d = 7 \/ d = 8 \/
          d = 9 \/ d = 10 \/ d = 11 \/ d = 12 \/ d = 13 \/ d = 14 \/ d = 15) by lia.
  destruct_or!; subst; reflexivity.
Qed.

Lemma hexdigit_not_underscore d : is_digit d -> bool_decide (hexdigit d = "_"%char) = false.
Proof. intros. apply bool_decide_eq_false_2. apply (hexdigit_prop (fun c => c <> "_"%char)); [|done]. repeat constructor; discriminate. Qed.

Lemma hexdigit_not_space d : is_digit d -> isspace (hexdigit d) = false.
Proof. apply (hexdigit_prop (fun c => isspace c = false)). repeat constructor. Qed.

Lemma digits_value_app l1 l2 acc :
  digits_value (l1 ++ l2) acc = digits_value l2 (digits_value l1 acc).
Proof. apply fold_left_app. Qed.

Lemma of_digits_app l1 l2 : of_digits (l1 ++ l2) = of_digits l1 ++ of_digits l2.
Proof. induction l1 as [|d l1 IH]; simpl; [done|by rewrite IH]. Qed.

Lemma digits16_of_digits ds acc us :
  Forall is_digit ds -> (ds <> [] \/ us = false) ->
  digits16 (of_digits ds) acc us = Some (digits_value ds acc).
Proof.
  revert acc us; induction ds as [|d ds IH]; intros acc us Hds Hne; simpl.
  - destruct Hne as [Hne| ->]; done.
  - apply Forall_cons_iff in Hds as [Hd Hds].
    rewrite hexdigit_not_underscore, hexval_hexdigit by done. apply IH; [done|by right].
Qed.

Lemma to_digits_spec f n :
  0 <= n < 16 * 2 ^ Z.of_nat f ->
  to_digits f n <> [] /\ Forall is_digit (to_digits f n) /\ digits_value (to_digits f n) 0 = n.
Proof.
  revert n; induction f as [|f IH]; intros n Hn; simpl.
  - split_and!; [done| |done]. constructor; [|done]. unfold is_digit. simpl in Hn. lia.
  - destruct (Z.ltb_spec n 16).
    + split_and!; [done| |done]. constructor; [unfold is_digit; lia|done].
    + rewrite Nat2Z.inj_succ, Z.pow_succ_r in Hn by lia.
      destruct (IH (n / 16)) as (Hne & Hall & Hval).
      { split; [apply Z.div_pos; lia|]. apply Z.div_lt_upper_bound; lia. }
      split_and!.
      * by destruct (to_digits f (n / 16)).
      * apply Forall_app; split; [done|]. constructor; [|done]. unfold is_digit.
        apply Z.mod_pos_bound. lia.
      * rewrite digits_value_app, Hval. simpl. pose proof (Z.div_mod n 16). lia.
Qed.

Lemma hex_fuel n : 0 <= n -> 0 <= n < 16 * 2 ^ Z.of_nat (Z.to_nat (Z.log2 n)).
Proof.
  intros Hn. rewrite Z2Nat.id by apply Z.log2_nonneg.
  destruct (Z.eq_dec n 0) as [->|]; [simpl; lia|].
  destruct (Z.log2_spec n) as [_ Hlt]; [lia|].
  rewrite Z.pow_succ_r in Hlt by apply Z.log2_nonneg.
  pose proof (Z.pow_pos_nonneg 2 (Z.log2 n)). split; lia.
Qed.

(** The digit list printed for [n >= 0]: non-empty, digits only, value [n]. *)
Lemma hex_digits_spec n :
  0 <= n -> exists ds, hex_digits n = of_digits ds /\ ds <> [] /\ Forall is_digit ds /\
                       digits_value ds 0 = n.
Proof.
  intros Hn. exists (to_digits (Z.to_nat (Z.log2 n)) n). split; [done|].
  by apply to_digits_spec, hex_fuel.
Qed.

(** ** Whitespace *)

Lemma lstrip_nonspace c t : isspace c = false -> lstrip (String c t) = String c t.
Proof. simpl. by intros ->. Qed.

Lemma strip_id c s d :
  isspace c = false -> isspace d = false ->
  strip (String c (s ++ String d "")) = String c (s ++ String d "").
Proof.
  intros Hc Hd. unfold strip, rstrip.
  rewrite (lstrip_nonspace c) by done.
  change (String c (s ++ String d "")) with (String c s ++ String d "")%string.
  rewrite srev_app_distr.
  change (srev (String d "")) with (String d "").
  change (String d "" ++ ?t)%string with (String d t).
  rewrite lstrip_nonspace by done. change (String d ?t) with (String d "" ++ t)%string.
  by rewrite srev_app_distr, srev_involutive.
Qed.

Lemma strip_of_digits c t ds :
  isspace c = false -> ds <> [] -> Forall is_digit ds ->
  strip (String c (t ++ of_digits ds)) = String c (t ++ of_digits ds).
Proof.
  intros Hc Hne Hall. rewrite (app_removelast_last 0 Hne) in Hall |- *.
  rewrite of_digits_app, sapp_assoc. simpl. apply strip_id; [done|]. apply hexdigit_not_space.
  apply Forall_app in Hall as [_ Hl]. by apply Forall_cons_iff in Hl as [? _].
Qed.

(** ** The round trip: [int(hex(z), 16) == z] *)

Lemma strip_prefix_app p s : strip_prefix p (p ++ s) = Some s.
Proof. induction p as [|c p IH]; simpl; [done|]. by rewrite bool_decide_eq_true_2. Qed.

Lemma strip_prefix_underscore ds :
  ds <> [] -> Forall is_digit ds -> strip_prefix "_" (of_digits ds) = None.
Proof.
  intros Hne Hall. destruct ds as [|d ds]; [done|]. apply Forall_cons_iff in Hall as [Hd _].
  simpl. case_bool_decide as E; [|done].
  pose proof (hexdigit_not_underscore d Hd) as H. apply bool_decide_eq_false_1 in H. congruence.
Qed.

Lemma strip_prefix_ne c d p t s :
  c <> d -> strip_prefix (String c p) (String d t ++ s) = None.
Proof. intros Hcd. simpl. by rewrite bool_decide_eq_false_2. Qed.

Lemma strip_prefix_head c p s : strip_prefix (String c "") (String c p ++ s) = Some (p ++ s).
Proof. simpl. by rewrite bool_decide_eq_true_2. Qed.

(** Parsing ["0x" ++ D] or ["-0x" ++ D] for a printed digit string [D]. *)
Lemma int16_of_digits (neg : bool) ds :
  ds <> [] -> Forall is_digit ds ->
  int16 ((if neg then "-0x" else "0x") ++ of_digits ds) =
  Ok (if neg then - digits_value ds 0 else digits_value ds 0).
Proof.
  intros Hne Hall. unfold int16.
  assert (strip ((if neg then "-0x" else "0x") ++ of_digits ds) =
          (if neg then "-0x" else "0x") ++ of_digits ds) as ->.
  { destruct neg; [apply (strip_of_digits "-" "0x")|apply (strip_of_digits "0" "x")]; done. }
  destruct neg.
  - rewrite strip_prefix_head. cbn iota beta.
    rewrite strip_prefix_app. cbn iota beta.
    rewrite strip_prefix_underscore by done. cbn [default]. rewrite digits16_of_digits by auto. done.
  - rewrite !strip_prefix_ne by discriminate. cbn iota beta.
    rewrite strip_prefix_app. cbn iota beta.
    rewrite strip_prefix_underscore by done. cbn [default]. rewrite digits16_of_digits by auto. done.
Qed.

(** [int(hex(z), 16) == z] for every integer [z]. *)
Lemma int16_hex z : int16 (hex z) = Ok z.
Proof.
  unfold hex. destruct (Z.ltb_spec z 0).
  - destruct (hex_digits_spec (- z)) as (ds & -> & Hne & Hall & Hv); [lia|].
    rewrite (int16_of_digits true) by done. f_equal. lia.
  - destruct (hex_digits_spec z) as (ds & -> & Hne & Hall & Hv); [lia|].
    rewrite (int16_of_digits false) by done. by rewrite Hv.
Qed.

(** Appending ["0000"] to the digits of a non-negative [h] shifts it
    left by 16 bits: [int("0x%x" % h + "0000", 16) == h << 16]. *)
Lemma int16_shift16 h :
  0 <= h -> int16 ("0x" ++ hex_digits h ++ "0000") = Ok (Z.shiftl h 16).
Proof.
  intros Hh. destruct (hex_digits_spec h) as (ds & -> & Hne & Hall & Hv); [lia|].
  change "0000" with (of_digits [0; 0; 0; 0]). rewrite <-of_digits_app.
  rewrite (int16_of_digits false).
  - rewrite digits_value_app, Hv, Z.shiftl_mul_pow2 by lia. simpl. f_equal. lia.
  - by destruct ds.
  - apply Forall_app; split; [done|]. repeat constructor; unfold is_digit; lia.
Qed.

(** ** [str(n)] *)

(** Base-10 digits of [n >= 0], most significant first (fuel as for
    [to_digits]: [n < 10 * 2 ^ fuel] is enough). *)
Fixpoint to_dec (fuel : nat) (n : Z) : list Z :=
  match fuel with
  | O => [n]
  | S f => if n <? 10 then [n] else to_dec f (n / 10) ++ [n mod 10]
  end.

(** [str(z)] for an integer. *)
Definition str_int (z : Z) : string :=
  (if z <? 0 then "-" else "") ++ of_digits (to_dec (Z.to_nat (Z.log2 (Z.abs z))) (Z.abs z)).
