(* ===== verification/Toolchain.v ===== *)
(** * The outside world of the scripts: processes, files and paths

    The scripts reach the outside world only through [subprocess.run]
    (objdump, mipsdisasm, gcc, grep, make), [Path.is_file] and
    [Path.read_text].  The class [Toolchain] states that interface: the
    standard output of a command line, whether a path names a file, and a
    file's text.  Every component is a function of a [Toolchain], so its
    theorems hold for any tool output, and the witnesses run the scripts
    against a concrete instance.  [path] models [pathlib.PurePosixPath]:
    construction drops empty and ["."] components, [/] appends (or replaces
    by an absolute right operand), [str] joins with ["/"], [.name] is the
    last component. *)

From Stdlib Require Import String.
From S2P Require Import Prelude PyStr.

Local Open Scope string_scope.

Class Toolchain := {
  (** [subprocess.run(argv, stdout=PIPE).stdout.decode("utf-8")]; a command
      that cannot be started raises. *)
  run_stdout : list string -> result string;
  (** [Path(p).is_file()] *)
  is_file : string -> bool;
  (** [Path(p).read_text()] *)
  read_text : string -> result string;
}.

Record path := mkpath { p_abs : bool; p_parts : list string }.

#[export] Instance path_eq_dec : EqDecision path.
Proof. solve_decision. Defined.

(** [PurePosixPath(s)] *)
Definition path_of (s : string) : path :=
  {| p_abs := startswith s "/";
     p_parts := filter (fun x => x <> "" /\ x <> ".") (split "/" s) |}.

(** [p / s] *)
Definition path_div (p : path) (s : string) : path :=
  let q := path_of s in
  if p_abs q then q else {| p_abs := p_abs p; p_parts := p_parts p ++ p_parts q |}.

(** [str(p)] *)
Definition path_str (p : path) : string :=
  if p_abs p then "/" ++ join "/" (p_parts p)
  else match p_parts p with [] => "." | _ => join "/" (p_parts p) end.

(** [p.name] *)
Definition path_name (p : path) : string := default "" (list.last (p_parts p)).
