(* ===== verification/Reloc.v ===== *)
(** * Relocation Locator: the hi/lo relocation scan

    Models the first half of [get_real_ram_addrs] ([src/order_bss.py]
    45-67; the same code is lines 29-51 of [src/order_data.py]): run
    [mips-linux-gnu-objdump -rd] on the object, split its output into
    lines, and for each line that mentions the symbol keep the offset field
    (before the first [":"]) as the HI16 or LO16 site; last occurrence
    wins.  A mentioned line with neither tag raises; exactly one of the two
    sites raises; neither means the symbol is gone ([None]). *)

From Stdlib Require Import String.
From S2P Require Import Prelude PyStr PyInt Toolchain.

Local Open Scope string_scope.

Module Reloc.

(** [line.split(":")[0].strip()] *)
Definition offset_field (line : string) : string :=
  strip (default "" (head (split ":" line))).

(** The [for line in objdump_output] loop, with [hi_offset] and
    [lo_offset] as its state. *)
Fixpoint scan_relocs (symbol : string) (lines : list string) (hi lo : string)
  : result (string * string) :=
  match lines with
  | [] => Ok (hi, lo)
  | line :: rest =>
      if contains line symbol then
        if contains line "R_MIPS_HI16" then scan_relocs symbol rest (offset_field line) lo
        else if contains line "R_MIPS_LO16" then scan_relocs symbol rest hi (offset_field line)
        else Raise (Exception ("unsure why " ++ symbol ++ " in line: " ++ line))
      else scan_relocs symbol rest hi lo
  end.

Definition both_missing : PyExc := Exception "wasn't able to find both hi and lo offsets".

(** The two checks after the loop: [None] when the symbol is gone. *)
Definition classify (hi lo : string) : result (option (string * string)) :=
  if bool_decide (hi = "") && bool_decide (lo = "") then Ok None
  else if bool_decide (hi = "") || bool_decide (lo = "") then Raise both_missing
  else Ok (Some (hi, lo)).

(** ** Specification of the scan

    A line is an HI16 site of [symbol] when it mentions the symbol and the
    HI16 tag, an LO16 site when it mentions the symbol and the LO16 tag but
    not the HI16 tag (the [if]/[elif] order), and it is ill-tagged when it
    mentions the symbol and neither tag. *)
Definition is_hi (symbol line : string) : bool :=
  contains line symbol && contains line "R_MIPS_HI16".
Definition is_lo (symbol line : string) : bool :=
  contains line symbol && negb (contains line "R_MIPS_HI16") && contains line "R_MIPS_LO16".
Definition ill_tagged (symbol line : string) : bool :=
  contains line symbol && negb (contains line "R_MIPS_HI16") && negb (contains line "R_MIPS_LO16").

(** The offset of the last line satisfying [p], or [d]. *)
Definition last_site (p : string -> bool) (lines : list string) (d : string) : string :=
  fold_left (fun acc l => if p l then offset_field l else acc) lines d.

(** Lines 53-67: the scan and the two checks after it. *)
Definition hi_lo_of_lines (symbol : string) (lines : list string)
  : result (option (string * string)) :=
  hl <- scan_relocs symbol lines "" "" ;;
  classify (fst hl) (snd hl).

Section WithTools.
Context `{Toolchain}.

(** [objdump -rd o_file] split into lines. *)
Definition objdump_rd_lines (o_file : string) : result (list string) :=
  out <- run_stdout ["mips-linux-gnu-objdump"; "-rd"; o_file] ;;
  Ok (split newline out).

(** Lines 45-67 of [get_real_ram_addrs]. *)
Definition find_hi_lo (symbol o_file : string) : result (option (string * string)) :=
  lines <- objdump_rd_lines o_file ;;
  hi_lo_of_lines symbol lines.

End WithTools.

(** ** Lemmas *)

Lemma last_site_filter (p q : string -> bool) lines d :
  (forall l, p l = true -> q l = true) ->
  last_site p lines d = last_site p (filter (fun l => q l = true) lines) d.
Proof.
  intros Hpq. unfold last_site. revert d; induction lines as [|l lines IH]; intros d; [done|].
  rewrite filter_cons. simpl. destruct (p l) eqn:Hp.
  - rewrite decide_True by auto. simpl. rewrite Hp. apply IH.
  - case_decide; simpl; [rewrite Hp|]; apply IH.
Qed.

Lemma classify_ok hi lo : hi <> "" -> lo <> "" -> classify hi lo = Ok (Some (hi, lo)).
Proof. intros. unfold classify. by rewrite !bool_decide_eq_false_2. Qed.

(** ** Properties *)

(* The loop as two independent last-occurrence folds. *)
Lemma scan_relocs_eq symbol lines hi lo :
  scan_relocs symbol lines hi lo =
  match find (ill_tagged symbol) lines with
  | Some l => Raise (Exception ("unsure why " ++ symbol ++ " in line: " ++ l))
  | None => Ok (last_site (is_hi symbol) lines hi, last_site (is_lo symbol) lines lo)
  end.
Proof.
  revert hi lo; induction lines as [|l lines IH]; intros hi lo; [done|].
  unfold ill_tagged, last_site, is_hi, is_lo in *. simpl.
  destruct (contains l symbol), (contains l "R_MIPS_HI16"), (contains l "R_MIPS_LO16");
    simpl; apply IH || done.
Qed.

(** (C3) The scan keeps the offset of the LAST HI16 line and of the LAST
    LO16 line mentioning the symbol, and raises at the first line that
    mentions the symbol with neither tag: the whole behaviour of the loop. *)
Theorem scan_relocs_spec symbol lines hi lo :
  scan_relocs symbol lines hi lo =
  match find (ill_tagged symbol) lines with
  | Some l => Raise (Exception ("unsure why " ++ symbol ++ " in line: " ++ l))
  | None => Ok (last_site (is_hi symbol) lines hi, last_site (is_lo symbol) lines lo)
  end.
Proof. apply scan_relocs_eq. Qed.

Lemma find_filter_mentions symbol lines :
  find (ill_tagged symbol) lines =
  find (ill_tagged symbol) (filter (fun l => contains l symbol = true) lines).
Proof.
  induction lines as [|l lines IH]; [done|]. rewrite filter_cons. case_decide as Hc; simpl.
  - by rewrite IH.
  - unfold ill_tagged at 1. apply not_true_is_false in Hc. rewrite Hc. apply IH.
Qed.

(** Only the lines that mention the symbol matter. *)
Lemma hi_lo_of_lines_filter symbol lines :
  hi_lo_of_lines symbol lines =
  hi_lo_of_lines symbol (filter (fun l => contains l symbol = true) lines).
Proof.
  unfold hi_lo_of_lines. rewrite !scan_relocs_eq, <-find_filter_mentions.
  rewrite <-(last_site_filter (is_hi symbol)), <-(last_site_filter (is_lo symbol)); [done| |];
    unfold is_hi, is_lo; intros l; destruct (contains l symbol); done.
Qed.

Lemma is_hi_mentions symbol l : is_hi symbol l = true -> contains l symbol = true /\ contains l "R_MIPS_HI16" = true.
Proof. unfold is_hi. by intros [? ?]%andb_prop. Qed.

Lemma is_lo_mentions symbol l :
  is_lo symbol l = true ->
  contains l symbol = true /\ contains l "R_MIPS_HI16" = false /\ contains l "R_MIPS_LO16" = true.
Proof. unfold is_lo. intros [[? ?%negb_true_iff]%andb_prop ?]%andb_prop. done. Qed.

Ltac reloc_lines :=
  repeat match goal with
  | H : is_hi _ _ = true |- _ => apply is_hi_mentions in H as [? ?]
  | H : is_lo _ _ = true |- _ => apply is_lo_mentions in H as (? & ? & ?)
  end;
  unfold hi_lo_of_lines; simpl;
  repeat match goal with H : contains _ _ = _ |- _ => rewrite H; simpl end.

(** (C4) Round trip of the relocation pair: when exactly one HI16 line and
    one LO16 line of the dump mention the symbol (in either order), the scan
    returns their two offsets. *)
Theorem hi_lo_pair symbol lines hl ll :
  (filter (fun l => contains l symbol = true) lines = [hl; ll] \/
   filter (fun l => contains l symbol = true) lines = [ll; hl]) ->
  is_hi symbol hl = true -> is_lo symbol ll = true ->
  offset_field hl <> "" -> offset_field ll <> "" ->
  hi_lo_of_lines symbol lines = Ok (Some (offset_field hl, offset_field ll)).
Proof.
  intros Hf Hh Hl Hoh Hol. rewrite hi_lo_of_lines_filter.
  destruct Hf as [-> | ->]; reloc_lines; by apply classify_ok.
Qed.

(** (C5) A symbol with only one half of the pair raises
    ["wasn't able to find both hi and lo offsets"]. *)
Theorem hi_lo_half symbol lines l :
  filter (fun l => contains l symbol = true) lines = [l] ->
  (is_hi symbol l = true \/ is_lo symbol l = true) -> offset_field l <> "" ->
  hi_lo_of_lines symbol lines = Raise both_missing.
Proof.
  intros Hf Hk Ho. rewrite hi_lo_of_lines_filter, Hf.
  destruct Hk as [Hk|Hk]; reloc_lines; unfold classify;
    rewrite (bool_decide_eq_false_2 (offset_field l = "")) by done; simpl; done.
Qed.

(** (C6) A symbol no line mentions is gone: [None], not an error. *)
Theorem hi_lo_gone symbol lines :
  Forall (fun l => contains l symbol = false) lines ->
  hi_lo_of_lines symbol lines = Ok None.
Proof.
  intros Hall. rewrite hi_lo_of_lines_filter.
  assert (filter (fun l => contains l symbol = true) lines = []) as ->; [|done].
  induction Hall as [|x l Hx _ IH]; [done|].
  by rewrite filter_cons, decide_False by congruence.
Qed.

(** ** Witnesses and findings on a sample [objdump -rd] listing *)

Definition sample_hi : string := "      8: R_MIPS_HI16 gCamera".
Definition sample_lo : string := "      c: R_MIPS_LO16 gCamera".
Definition sample_dump : list string :=
  ["00000000 <func_80246000>:"; "   8:  3c010000  lui at,0x0"; sample_hi;
   "   c:  8c220000  lw v0,0(at)"; sample_lo; "  10:  03e00008  jr ra"].

Lemma hi_lo_pair_witness :
  hi_lo_of_lines "gCamera" sample_dump = Ok (Some (offset_field sample_hi, offset_field sample_lo)).
Proof.
  apply hi_lo_pair; [left; vm_compute; reflexivity|vm_compute; reflexivity..|
                     vm_compute; congruence|vm_compute; congruence].
Defined.

Lemma hi_lo_half_witness :
  hi_lo_of_lines "gCamera" (take 3 sample_dump) = Raise both_missing.
Proof.
  apply (hi_lo_half _ _ sample_hi); [vm_compute; reflexivity|left; vm_compute; reflexivity|
                                     vm_compute; congruence].
Defined.

Lemma hi_lo_gone_witness : hi_lo_of_lines "gMarioState" sample_dump = Ok None.
Proof. apply hi_lo_gone. vm_compute. repeat constructor. Defined.



End Reloc.
