(* ===== verification/Reconstruct.v ===== *)
(** * Address Reconstructor: the 32-bit address of a hi/lo pair

    Models the second half of [get_real_ram_addrs] ([src/order_bss.py]
    69-93) and of [get_real_ram_addr] ([src/order_data.py] 53-69), with
    the disassembler wrappers [get_asm_line] (order_bss 10-39,
    order_data 9-23).  For each relocation site the file offset is
    [file_rom_start + offset]; the disassembler prints that instruction;
    the text after the last ["0x"] gives the immediate, a ["-"] right
    before the first ["0x"] of the LO16 line makes it negative, and the
    address is [hex(int(hi + "0000", 16) + int(lo, 16))].

    The theorems: the textual pipeline computes [hi * 0x10000 + lo] on
    disassembly lines of the documented shape ([ram_addr_of_lines]), it
    refines the MIPS [lui]/[addiu] address computation whenever that does
    not wrap around 32 bits ([ram_addr_refines_mips]), and the cases where
    it differs are findings. *)

From Stdlib Require Import ZArith String Ascii Lia.
From S2P Require Import Prelude PyStr PyInt Toolchain Reloc.

Local Open Scope string_scope.

Module Reconstruct.

(** [rom_func(...).split("0x")[-1].split()[0]] and the ["0x"] put back. *)
Definition hi_immediate (hi_line : string) : result string :=
  chunk <- getlast (split "0x" hi_line) ;;
  tok <- getitem (words chunk) 0 ;;
  Ok ("0x" ++ tok).

(** [thing = line.split("0x")], [negate = thing[0][-1] == "-"] and
    [("-" if negate else "") + "0x" + thing[-1].split()[0].split("(")[0]]. *)
Definition lo_immediate (lo_line : string) : result string :=
  let thing := split "0x" lo_line in
  first <- getitem thing 0 ;;
  c <- last_char first ;;
  let negate := bool_decide (c = "-"%char) in
  chunk <- getlast thing ;;
  tok <- getitem (words chunk) 0 ;;
  base <- getitem (split "(" tok) 0 ;;
  Ok ((if negate then "-" else "") ++ "0x" ++ base).

(** One pass of the [for rom_func in ...] body: [asm] is the disassembler
    wrapper applied to a file offset written with [hex]. *)
Definition ram_addr_of (asm : string -> result string)
    (file_rom_start hi_offset lo_offset : string) : result string :=
  start <- int16 file_rom_start ;;
  hoff <- int16 hi_offset ;;
  hi_line <- asm (hex (start + hoff)) ;;
  real_hi <- hi_immediate hi_line ;;
  start' <- int16 file_rom_start ;;
  loff <- int16 lo_offset ;;
  lo_line <- asm (hex (start' + loff)) ;;
  real_lo <- lo_immediate lo_line ;;
  h <- int16 (real_hi ++ "0000") ;;
  l <- int16 real_lo ;;
  Ok (hex (h + l)).

Section WithTools.
Context `{Toolchain}.

Definition baserom (sm64_source : string) : string :=
  path_str (path_div (path_of sm64_source) "baserom.eu.z64").
Definition builtrom (sm64_source : string) : string :=
  path_str (path_div (path_div (path_div (path_of sm64_source) "build") "eu") "sm64.eu.z64").

(** [get_asm_line]: the last line of [mipsdisasm -p rom 0x80200000:offset+0x4]. *)
Definition get_asm_line (sm64tools offset rom : string) : result string :=
  out <- run_stdout [path_str (path_div (path_of sm64tools) "mipsdisasm"); "-p"; rom;
                     "0x80200000:" ++ offset ++ "+0x4"] ;;
  getlast (split newline (strip out)).

(** [get_real_ram_addrs] of order_bss.py: the pair of addresses in the
    baseline and in the built ROM, or [None] when the symbol is gone. *)
Definition get_real_ram_addrs (sm64_source sm64tools symbol o_file file_rom_start : string)
  : result (option (string * string)) :=
  r <- Reloc.find_hi_lo symbol o_file ;;
  match r with
  | None => Ok None
  | Some (hi, lo) =>
      base <- ram_addr_of (fun off => get_asm_line sm64tools off (baserom sm64_source))
                          file_rom_start hi lo ;;
      built <- ram_addr_of (fun off => get_asm_line sm64tools off (builtrom sm64_source))
                           file_rom_start hi lo ;;
      Ok (Some (base, built))
  end.

(** [get_real_ram_addr] of order_data.py: the baseline address only. *)
Definition get_real_ram_addr (sm64_source sm64tools symbol o_file file_rom_start : string)
  : result (option string) :=
  r <- Reloc.find_hi_lo symbol o_file ;;
  match r with
  | None => Ok None
  | Some (hi, lo) =>
      a <- ram_addr_of (fun off => get_asm_line sm64tools off (baserom sm64_source))
                       file_rom_start hi lo ;;
      Ok (Some a)
  end.

End WithTools.

(** ** The shape of a disassembly line

    The immediate is printed by [hex]; what precedes it (mnemonic and
    registers) must not contain ["0x"], what follows the HI16 immediate
    is whitespace-led, and what follows the LO16 immediate is an optional
    base register ["(reg)"] and whitespace-led text. *)
Definition hi_ctx_ok (pre suf : string) : bool :=
  negb (contains pre "0x") && starts_space suf && negb (contains suf "0x").

Definition lo_prefix_ok (pre : string) : bool :=
  match last_char pre with Ok c => bool_decide (c <> "-"%char) | Raise _ => false end &&
  negb (contains pre "0x").

Definition operand_ok (opnd : string) : bool :=
  bool_decide (opnd = "") ||
  (startswith opnd "(" && no_space opnd && negb (contains opnd "0x")).

Definition lo_ctx_ok (pre opnd rest : string) : bool :=
  lo_prefix_ok pre && operand_ok opnd && starts_space rest && negb (contains rest "0x").

(** ** String lemmas for printed immediates *)

Lemma startswith_x_digits ds t :
  Forall is_digit ds -> startswith t "x" = false -> startswith (of_digits ds ++ t) "x" = false.
Proof.
  intros Hall Ht. destruct ds as [|d ds]; [done|]. apply Forall_cons_iff in Hall as [Hd _].
  simpl. rewrite bool_decide_eq_false_2; [done|].
  intros E. symmetry in E. revert E. apply (hexdigit_prop (fun c => c <> "x"%char)); [|done].
  repeat constructor; discriminate.
Qed.

Lemma startswith_app_l a b x : a <> "" -> startswith (a ++ b) (String x "") = startswith a (String x "").
Proof. destruct a; [done|]. simpl. intros _. by destruct (a0 ++ b)%string, a0. Qed.

Lemma contains_app_0x a b :
  contains a "0x" = false -> contains b "0x" = false -> startswith b "x" = false ->
  contains (a ++ b) "0x" = false.
Proof.
  induction a as [|c a IH]; intros Ha Hb Hx; [done|].
  apply contains_cons_false in Ha as [Hs Ha]. simpl.
  rewrite IH by done. rewrite orb_false_r. simpl in Hs.
  destruct (bool_decide ("0"%char = c)); simpl in *; [|done].
  destruct (String.eqb a "") eqn:E.
  - apply String.eqb_eq in E as ->. done.
  - apply String.eqb_neq in E. by rewrite startswith_app_l.
Qed.

Lemma contains_digits_0x ds : Forall is_digit ds -> contains (of_digits ds) "0x" = false.
Proof.
  induction 1 as [|d ds Hd Hall IH]; [done|].
  change (of_digits (d :: ds)) with (String (hexdigit d) "" ++ of_digits ds)%string.
  apply contains_app_0x; [|done|].
  - simpl. by destruct (bool_decide ("0"%char = hexdigit d)).
  - rewrite <-(sapp_nil_r (of_digits ds)). by apply startswith_x_digits.
Qed.

Lemma contains_digits_paren ds : Forall is_digit ds -> contains (of_digits ds) "(" = false.
Proof.
  induction 1 as [|d ds Hd Hall IH]; [done|]. simpl. rewrite IH, orb_false_r.
  rewrite bool_decide_eq_false_2; [done|]. intros E. symmetry in E. revert E.
  apply (hexdigit_prop (fun c => c <> "("%char)); [|done]. repeat constructor; discriminate.
Qed.

Lemma no_space_digits ds : Forall is_digit ds -> no_space (of_digits ds) = true.
Proof. induction 1; [done|]. simpl. by rewrite hexdigit_not_space. Qed.

Lemma no_space_app a b : no_space a = true -> no_space b = true -> no_space (a ++ b) = true.
Proof. induction a as [|c a IH]; [done|]. simpl. intros [-> ?]%andb_prop ?. by apply IH. Qed.

Lemma starts_space_no_x s : starts_space s = true -> startswith s "x" = false.
Proof.
  destruct s as [|c s]; [done|]. simpl. intros Hc.
  rewrite bool_decide_eq_false_2; [done|]. intros <-. done.
Qed.

Lemma last_char_snoc pre c : last_char (pre ++ String c "") = Ok c.
Proof. unfold last_char. by rewrite srev_app_distr. Qed.

Lemma of_digits_nonempty ds : ds <> [] -> of_digits ds <> "".
Proof. by destruct ds. Qed.

Lemma sep_ok_0x : sep_ok "0x" = true.
Proof. reflexivity. Qed.
Lemma sep_ok_paren : sep_ok "(" = true.
Proof. reflexivity. Qed.

(** The immediate of a HI16 line [pre ++ hex h ++ suf]. *)
Lemma hi_immediate_hex pre suf (h : Z) :
  (0 <= h)%Z -> hi_ctx_ok pre suf = true ->
  hi_immediate (pre ++ hex h ++ suf) = Ok ("0x" ++ hex_digits h).
Proof.
  intros Hh Hctx. unfold hi_ctx_ok in Hctx.
  apply andb_prop in Hctx as [[Hpre Hss]%andb_prop Hsuf]. apply negb_true_iff in Hpre, Hsuf.
  destruct (hex_digits_spec h Hh) as (ds & Hd & Hne & Hall & _).
  unfold hex. rewrite (proj2 (Z.ltb_ge h 0%Z)) by lia. rewrite Hd, <-sapp_assoc.
  unfold hi_immediate. rewrite split_app_sep by (done || apply sep_ok_0x).
  rewrite split_nocontains.
  - change [pre; (of_digits ds ++ suf)%string] with ([pre] ++ [(of_digits ds ++ suf)%string])%list.
    rewrite getlast_snoc. simpl bind.
    rewrite words_app_word by auto using of_digits_nonempty, no_space_digits. done.
  - apply contains_app_0x; auto using contains_digits_0x, starts_space_no_x.
Qed.

Lemma operand_split ds opnd rest :
  Forall is_digit ds -> ds <> [] -> operand_ok opnd = true -> starts_space rest = true ->
  (words (of_digits ds ++ opnd ++ rest) = (of_digits ds ++ opnd)%string :: words rest) /\
  (head (split "(" (of_digits ds ++ opnd)) = Some (of_digits ds)).
Proof.
  intros Hall Hne Hop Hrest. unfold operand_ok in Hop.
  apply orb_prop in Hop as [Hop|Hop].
  - apply bool_decide_eq_true_1 in Hop as ->. rewrite sapp_nil_r. split.
    + apply words_app_word; auto using of_digits_nonempty, no_space_digits.
    + by rewrite split_nocontains by auto using contains_digits_paren.
  - apply andb_prop in Hop as [[Hp Hns]%andb_prop _]. split.
    + rewrite sapp_assoc. apply words_app_word; [|by apply no_space_app, Hns; apply no_space_digits|done].
      destruct ds; [done|]. discriminate.
    + destruct opnd as [|c r]; [done|]. simpl in Hp.
      apply andb_prop in Hp as [Hc%bool_decide_eq_true_1 _]. subst c.
      change (String "(" r) with ("(" ++ r)%string.
      by rewrite split_app_sep by auto using sep_ok_paren, contains_digits_paren.
Qed.

Lemma operand_no_x opnd rest :
  operand_ok opnd = true -> starts_space rest = true -> startswith (opnd ++ rest) "x" = false.
Proof.
  unfold operand_ok. intros [Hop|Hop]%orb_prop Hr.
  - apply bool_decide_eq_true_1 in Hop as ->. by apply starts_space_no_x.
  - destruct opnd as [|c r]; [by apply starts_space_no_x|]. simpl in Hop |- *.
    apply andb_prop in Hop as [[[Hc%bool_decide_eq_true_1 _]%andb_prop _]%andb_prop _]. by subst c.
Qed.

Lemma operand_no_0x opnd : operand_ok opnd = true -> contains opnd "0x" = false.
Proof.
  unfold operand_ok. intros [Hop|Hop]%orb_prop.
  - by apply bool_decide_eq_true_1 in Hop as ->.
  - apply andb_prop in Hop as [_ H]. by apply negb_true_iff.
Qed.

(** The immediate of a LO16 line [pre ++ hex v ++ opnd ++ rest], sign
    included: the text read back is [hex v] itself. *)
Lemma lo_immediate_hex pre opnd rest (v : Z) :
  lo_ctx_ok pre opnd rest = true ->
  lo_immediate (pre ++ hex v ++ opnd ++ rest) = Ok (hex v).
Proof.
  intros Hctx. unfold lo_ctx_ok, lo_prefix_ok in Hctx.
  apply andb_prop in Hctx as [[[[Hlast Hpre]%andb_prop Hop]%andb_prop Hss]%andb_prop Hrest].
  apply negb_true_iff in Hpre, Hrest.
  assert (contains (opnd ++ rest) "0x" = false) as Hor.
  { apply contains_app_0x; auto using operand_no_0x, starts_space_no_x. }
  unfold hex. destruct (Z.ltb_spec v 0%Z) as [Hv|Hv].
  - destruct (hex_digits_spec (- v)) as (ds & -> & Hne & Hall & _); [lia|].
    destruct (operand_split ds opnd rest) as [Hw Hp]; auto.
    change ("-0x" ++ of_digits ds)%string with (String "-" "" ++ "0x" ++ of_digits ds)%string.
    rewrite <-!sapp_assoc, (sapp_assoc pre).
    unfold lo_immediate. rewrite split_app_sep.
    3: { apply contains_app_0x; [done|done|reflexivity]. }
    2: apply sep_ok_0x.
    rewrite split_nocontains by (apply contains_app_0x; auto using contains_digits_0x, operand_no_x).
    simpl getitem. simpl bind. rewrite last_char_snoc. simpl bind.
    rewrite Hw. simpl.
    rewrite (getitem_head _ _ Hp). done.
  - destruct (hex_digits_spec v) as (ds & -> & Hne & Hall & _); [lia|].
    destruct (operand_split ds opnd rest) as [Hw Hp]; auto.
    rewrite <-!sapp_assoc.
    unfold lo_immediate. rewrite split_app_sep by (done || apply sep_ok_0x).
    rewrite split_nocontains by (apply contains_app_0x; auto using contains_digits_0x, operand_no_x).
    simpl getitem. simpl bind. destruct (last_char pre) as [c|]; [|done].
    simpl bind. apply bool_decide_eq_true_1 in Hlast. rewrite bool_decide_eq_false_2 by done.
    rewrite Hw. simpl.
    rewrite (getitem_head _ _ Hp). done.
Qed.

(** ** MIPS semantics of the pair

    [lui rt, hi] puts [hi << 16] in [rt]; the LO16 instruction ([addiu],
    or a load/store displacement) adds the sign-extended 16-bit [lo],
    modulo [2^32]. *)
Definition sext16 (x : Z) : Z := if Z.testbit x 15 then (x - 2 ^ 16)%Z else x.

Definition lui_lo_addr (hi16 lo16 : Z) : Z :=
  Z.land (Z.shiftl hi16 16 + sext16 lo16) (Z.ones 32).

Lemma sext16_range x :
  (0 <= x < 2 ^ 16)%Z -> sext16 x = if (x <? 2 ^ 15)%Z then x else (x - 2 ^ 16)%Z.
Proof.
  intros Hx. unfold sext16. pose proof (Z.testbit_spec' x 15 ltac:(lia)) as Hb.
  destruct (Z.ltb_spec x (2 ^ 15)) as [Hlt|Hge].
  - rewrite Z.div_small in Hb by lia. by destruct (Z.testbit x 15).
  - assert (x / 2 ^ 15 = 1)%Z as Hq.
    { symmetry. apply Z.div_unique_pos with (x - 2 ^ 15)%Z; lia. }
    rewrite Hq in Hb. by destruct (Z.testbit x 15).
Qed.

(** ** Properties *)

(** The pass, once the LO16 immediate has been read back as [hex v]. *)
Lemma ram_addr_of_imm asm start hi_off lo_off s0 hoff loff pre_hi suf_hi lo_line h v :
  int16 start = Ok s0 -> int16 hi_off = Ok hoff -> int16 lo_off = Ok loff ->
  asm (hex (s0 + hoff)) = Ok (pre_hi ++ hex h ++ suf_hi) ->
  asm (hex (s0 + loff)) = Ok lo_line -> lo_immediate lo_line = Ok (hex v) ->
  (0 <= h)%Z -> hi_ctx_ok pre_hi suf_hi = true ->
  ram_addr_of asm start hi_off lo_off = Ok (hex (h * 65536 + v)).
Proof.
  intros Hs Hh Hl Ahi Alo Himm Hpos Hhi. unfold ram_addr_of.
  rewrite Hs, Hh. simpl bind. rewrite Ahi. simpl bind.
  rewrite hi_immediate_hex by done. simpl bind.
  rewrite Hl. simpl bind. rewrite Alo. simpl bind. rewrite Himm. simpl bind.
  pose proof (int16_shift16 h Hpos) as E. simpl in E. rewrite E. simpl bind.
  rewrite int16_hex. simpl bind. rewrite Z.shiftl_mul_pow2 by lia. done.
Qed.

Lemma ram_addr_of_lines_eq asm start hi_off lo_off s0 hoff loff pre_hi suf_hi pre_lo opnd rest h v :
  int16 start = Ok s0 -> int16 hi_off = Ok hoff -> int16 lo_off = Ok loff ->
  asm (hex (s0 + hoff)) = Ok (pre_hi ++ hex h ++ suf_hi) ->
  asm (hex (s0 + loff)) = Ok (pre_lo ++ hex v ++ opnd ++ rest) ->
  (0 <= h)%Z -> hi_ctx_ok pre_hi suf_hi = true -> lo_ctx_ok pre_lo opnd rest = true ->
  ram_addr_of asm start hi_off lo_off = Ok (hex (h * 65536 + v)).
Proof.
  intros Hs Hh Hl Ahi Alo Hpos Hhi Hlo.
  eapply ram_addr_of_imm; [exact Hs|exact Hh|exact Hl|exact Ahi|exact Alo| |exact Hpos|exact Hhi].
  by apply lo_immediate_hex.
Qed.

(** When another ["0x"] precedes the signed LO16 immediate, the sign test
    looks at the character before that first ["0x"] and the immediate is
    read back without its minus sign. *)
Lemma lo_immediate_sign_lost p q opnd rest (v : Z) :
  (v < 0)%Z -> contains p "0x" = false -> (exists c, last_char p = Ok c /\ c <> "-"%char) ->
  contains (q ++ "-") "0x" = false -> operand_ok opnd = true -> starts_space rest = true ->
  contains rest "0x" = false ->
  lo_immediate (p ++ "0x" ++ q ++ hex v ++ opnd ++ rest) = Ok (hex (- v)).
Proof.
  intros Hv Hp (c & Hc & Hcm) Hq Hop Hss Hrest.
  destruct (hex_digits_spec (- v)) as (ds & Hd & Hne & Hall & _); [lia|].
  destruct (operand_split ds opnd rest) as [Hw Hpar]; auto.
  assert (hex v = "-0x" ++ of_digits ds) as Hhv.
  { unfold hex. rewrite (proj2 (Z.ltb_lt v 0%Z)) by lia. by rewrite Hd. }
  assert (hex (- v) = "0x" ++ of_digits ds) as Hhn.
  { unfold hex. rewrite (proj2 (Z.ltb_ge (- v) 0%Z)) by lia. by rewrite Hd. }
  rewrite Hhv, Hhn.
  replace (q ++ ("-0x" ++ of_digits ds) ++ opnd ++ rest)%string
    with ((q ++ "-") ++ "0x" ++ (of_digits ds ++ opnd ++ rest))%string
    by (rewrite <-!sapp_assoc; reflexivity).
  unfold lo_immediate. rewrite split_app_sep by (done || apply sep_ok_0x).
  rewrite split_app_sep by (done || apply sep_ok_0x).
  rewrite split_nocontains.
  2: { apply contains_app_0x; auto using contains_digits_0x, operand_no_x.
       apply contains_app_0x; auto using operand_no_0x, starts_space_no_x. }
  simpl getitem. simpl bind. rewrite Hc. simpl bind. rewrite bool_decide_eq_false_2 by done.
  rewrite Hw. simpl.
  rewrite (getitem_head _ _ Hpar). done.
Qed.

(** (C1) Reconstruction: on disassembly lines of the documented shape, with
    the HI16 immediate printed as [hex h] ([h >= 0]) and the LO16 immediate
    as [hex v] (sign included), the reconstructed address is
    [hex((h << 16) + v)], the file offsets of the two sites being
    [file_rom_start + hi_offset] and [file_rom_start + lo_offset]. *)
Theorem ram_addr_of_lines asm start hi_off lo_off s0 hoff loff pre_hi suf_hi pre_lo opnd rest h v :
  int16 start = Ok s0 -> int16 hi_off = Ok hoff -> int16 lo_off = Ok loff ->
  asm (hex (s0 + hoff)) = Ok (pre_hi ++ hex h ++ suf_hi) ->
  asm (hex (s0 + loff)) = Ok (pre_lo ++ hex v ++ opnd ++ rest) ->
  (0 <= h)%Z -> hi_ctx_ok pre_hi suf_hi = true -> lo_ctx_ok pre_lo opnd rest = true ->
  ram_addr_of asm start hi_off lo_off = Ok (hex (h * 65536 + v)).
Proof. apply ram_addr_of_lines_eq. Qed.

(** (C2) Refinement of the MIPS address computation: when the disassembler
    prints [lui]'s immediate unsigned and the LO16 immediate sign-extended,
    the textual reconstruction returns [hex] of the 32-bit address the
    instruction pair computes, provided that computation does not wrap
    ([hi16 <> 0] or a non-negative low half). *)
Theorem ram_addr_refines_mips asm start hi_off lo_off s0 hoff loff pre_hi suf_hi pre_lo opnd rest
    hi16 lo16 :
  int16 start = Ok s0 -> int16 hi_off = Ok hoff -> int16 lo_off = Ok loff ->
  (0 <= hi16 < 2 ^ 16)%Z -> (0 <= lo16 < 2 ^ 16)%Z -> (hi16 <> 0 \/ lo16 < 2 ^ 15)%Z ->
  asm (hex (s0 + hoff)) = Ok (pre_hi ++ hex hi16 ++ suf_hi) ->
  asm (hex (s0 + loff)) = Ok (pre_lo ++ hex (sext16 lo16) ++ opnd ++ rest) ->
  hi_ctx_ok pre_hi suf_hi = true -> lo_ctx_ok pre_lo opnd rest = true ->
  ram_addr_of asm start hi_off lo_off = Ok (hex (lui_lo_addr hi16 lo16)).
Proof.
  intros Hs Hh Hl Hhi Hlo Hnw Ahi Alo Chi Clo.
  rewrite (ram_addr_of_lines_eq asm start hi_off lo_off s0 hoff loff pre_hi suf_hi pre_lo opnd rest
             hi16 (sext16 lo16)) by (done || lia).
  do 2 f_equal. unfold lui_lo_addr. rewrite Z.land_ones, Z.shiftl_mul_pow2 by lia.
  rewrite sext16_range by done. symmetry. apply Z.mod_small.
  destruct (Z.ltb_spec lo16 (2 ^ 15)); lia.
Qed.

(** ** Witnesses and findings *)

(** A disassembler answering for the two sites at file offsets 0x808 and 0x80c. *)
Definition table_asm (hi_line lo_line : string) (off : string) : result string :=
  if bool_decide (off = "0x808") then Ok hi_line
  else if bool_decide (off = "0x80c") then Ok lo_line
  else Ok "".

Lemma ram_addr_of_lines_witness :
  ram_addr_of (table_asm "lui   $at, 0x8034" "lw    $t6, -0x10($at)") "0x800" "8" "c" =
  Ok (hex (32820 * 65536 + -16)).
Proof.
  apply (ram_addr_of_lines _ _ _ _ 2048 8 12 "lui   $at, " "" "lw    $t6, " "($at)" "" 32820 (-16));
    (vm_compute; reflexivity) || lia.
Defined.

Lemma ram_addr_refines_mips_witness :
  ram_addr_of (table_asm "lui   $at, 0x8034" "addiu $a0, $at, -0x10") "0x800" "8" "c" =
  Ok (hex (lui_lo_addr 32820 65520)).
Proof.
  apply (ram_addr_refines_mips _ _ _ _ 2048 8 12 "lui   $at, " "" "addiu $a0, $at, " "" ""
           32820 65520); (vm_compute; reflexivity) || lia.
Defined.

(** C19: finding: when the high half is zero and the low half negative,
    the script prints the instruction pair's 32-bit address minus [2^32], a
    negative number, instead of the address itself (which is at least
    0xffff8000). *)
Theorem ram_addr_negative asm start hi_off lo_off s0 hoff loff pre_hi suf_hi pre_lo opnd rest lo16 :
  int16 start = Ok s0 -> int16 hi_off = Ok hoff -> int16 lo_off = Ok loff ->
  (2 ^ 15 <= lo16 < 2 ^ 16)%Z ->
  asm (hex (s0 + hoff)) = Ok (pre_hi ++ hex 0 ++ suf_hi) ->
  asm (hex (s0 + loff)) = Ok (pre_lo ++ hex (sext16 lo16) ++ opnd ++ rest) ->
  hi_ctx_ok pre_hi suf_hi = true -> lo_ctx_ok pre_lo opnd rest = true ->
  ram_addr_of asm start hi_off lo_off = Ok (hex (lui_lo_addr 0 lo16 - 2 ^ 32)) /\
  (lui_lo_addr 0 lo16 - 2 ^ 32 < 0)%Z.
Proof.
  intros Hs Hh Hl Hlo Ahi Alo Chi Clo.
  assert (lui_lo_addr 0 lo16 = lo16 - 2 ^ 16 + 2 ^ 32)%Z as Ha.
  { unfold lui_lo_addr. rewrite Z.land_ones by lia. rewrite sext16_range by lia.
    rewrite (proj2 (Z.ltb_ge lo16 (2 ^ 15))) by lia. rewrite Z.shiftl_0_l, Z.add_0_l.
    symmetry. apply Z.mod_unique_pos with (-1)%Z; lia. }
  split; [|lia].
  rewrite (ram_addr_of_lines_eq asm start hi_off lo_off s0 hoff loff pre_hi suf_hi pre_lo opnd rest
             0 (sext16 lo16)) by (done || lia).
  do 2 f_equal. rewrite Ha, sext16_range by lia. rewrite (proj2 (Z.ltb_ge lo16 (2 ^ 15))) by lia. lia.
Qed.

(** C20: finding: the sign test reads the character before the FIRST
    ["0x"] of the LO16 line while the immediate is taken after the LAST
    one, so on any LO16 line that shows another hexadecimal number before a
    negative immediate [v] the script adds [-v] instead of [v]. *)
Theorem ram_addr_sign_lost asm start hi_off lo_off s0 hoff loff pre_hi suf_hi p q opnd rest h v :
  int16 start = Ok s0 -> int16 hi_off = Ok hoff -> int16 lo_off = Ok loff ->
  asm (hex (s0 + hoff)) = Ok (pre_hi ++ hex h ++ suf_hi) -> (0 <= h)%Z -> hi_ctx_ok pre_hi suf_hi = true ->
  asm (hex (s0 + loff)) = Ok (p ++ "0x" ++ q ++ hex v ++ opnd ++ rest) -> (v < 0)%Z ->
  contains p "0x" = false -> (exists c, last_char p = Ok c /\ c <> "-"%char) ->
  contains (q ++ "-") "0x" = false -> operand_ok opnd = true -> starts_space rest = true ->
  contains rest "0x" = false ->
  ram_addr_of asm start hi_off lo_off = Ok (hex (h * 65536 - v)).
Proof.
  intros Hs Hh Hl Ahi Hpos Chi Alo Hv Hp Hc Hq Hop Hss Hr.
  replace (h * 65536 - v)%Z with (h * 65536 + - v)%Z by lia.
  eapply ram_addr_of_imm; [exact Hs|exact Hh|exact Hl|exact Ahi|exact Alo| |exact Hpos|exact Chi].
  by apply lo_immediate_sign_lost.
Qed.

Lemma ram_addr_negative_witness :
  ram_addr_of (table_asm "lui   $at, 0x0" "addiu $a0, $at, -0x10") "0x800" "8" "c" =
    Ok (hex (lui_lo_addr 0 65520 - 2 ^ 32)) /\ (lui_lo_addr 0 65520 - 2 ^ 32 < 0)%Z.
Proof.
  apply (ram_addr_negative _ _ _ _ 2048 8 12 "lui   $at, " "" "addiu $a0, $at, " "" "" 65520);
    (vm_compute; reflexivity) || lia.
Defined.

Lemma ram_addr_sign_lost_witness :
  ram_addr_of (table_asm "lui   $at, 0x8034" "/* 0x80c */ lw $t6, -0x10($at)") "0x800" "8" "c" =
    Ok (hex (32820 * 65536 - -16)).
Proof.
  apply (ram_addr_sign_lost _ _ _ _ 2048 8 12 "lui   $at, " "" "/* " "80c */ lw $t6, " "($at)" ""
           32820 (-16)); try (vm_compute; reflexivity); try lia.
  exists " "%char. split; [reflexivity|discriminate].
Defined.
End Reconstruct.
