(* ===== verification/Symbols.v ===== *)
(** * Symbol Enumerator: [get_symbols]

    Models [get_symbols] ([src/order_bss.py] 96-106 with a [segment]
    argument; [src/order_data.py] 72-82 with [".data"] fixed): the last
    whitespace-separated field of every [objdump -t] line that contains the
    segment tag and does not end with it (the section's own symbol).  The
    theorems: the selection never raises for a tag with a visible character
    ([select_symbols_total]), and it returns exactly the trailing names of
    the selected rows ([select_symbols_spec]). *)

From Stdlib Require Import String Ascii.
From S2P Require Import Prelude PyStr Toolchain.

Local Open Scope string_scope.

Module Symbols.

(** [segment in line and not line.endswith(segment)] *)
Definition selected (segment line : string) : bool :=
  contains line segment && negb (endswith line segment).

(** The list comprehension [[line.split()[-1] for line in symbol_table if ...]]. *)
Definition select_symbols (segment : string) (lines : list string) : result (list string) :=
  mapM (fun line => getlast (words line)) (filter (fun l => selected segment l = true) lines).

Section WithTools.
Context `{Toolchain}.

(** [get_symbols(o_file, segment)] of order_bss.py. *)
Definition get_symbols (o_file segment : string) : result (list string) :=
  out <- run_stdout ["mips-linux-gnu-objdump"; "-t"; o_file] ;;
  select_symbols segment (split newline out).

(** [get_symbols(o_file)] of order_data.py: the [".data"] rows. *)
Definition get_data_symbols (o_file : string) : result (list string) :=
  out <- run_stdout ["mips-linux-gnu-objdump"; "-t"; o_file] ;;
  select_symbols ".data" (split newline out).

End WithTools.

(** ** Lemmas *)

Fixpoint has_visible (s : string) : bool :=
  match s with
  | "" => false
  | String c s' => negb (isspace c) || has_visible s'
  end.

Lemma words_go_nonempty s cur :
  cur <> "" \/ has_visible s = true -> words_go s cur <> [].
Proof.
  revert cur; induction s as [|c s IH]; intros cur Hc; simpl.
  - destruct Hc as [Hc|]; [|done]. by destruct cur.
  - destruct (isspace c) eqn:Hsp; simpl in Hc; rewrite ?Hsp in Hc; simpl in Hc.
    + destruct cur; [|done]. simpl. apply IH. destruct Hc; [done|by right].
    + apply IH. by left.
Qed.

Lemma has_visible_startswith s sub :
  startswith s sub = true -> has_visible sub = true -> has_visible s = true.
Proof.
  revert sub; induction s as [|c s IH]; intros [|a sub] Hs Hv; try done; simpl in *.
  apply andb_prop in Hs as [Hca%bool_decide_eq_true_1 Hs]. subst a.
  apply orb_prop in Hv as [->|Hv]; [done|]. rewrite (IH sub); [by rewrite orb_true_r|done|done].
Qed.

Lemma has_visible_contains s sub :
  contains s sub = true -> has_visible sub = true -> has_visible s = true.
Proof.
  induction s as [|c s IH]; intros Hc Hv.
  - destruct sub as [|a sub]; [done|]. simpl in Hc. done.
  - simpl in Hc. apply orb_prop in Hc as [Hc|Hc].
    + by apply (has_visible_startswith (String c s) sub).
    + simpl. rewrite IH by done. by rewrite orb_true_r.
Qed.

Lemma getlast_words_ok line :
  has_visible line = true -> exists x, getlast (words line) = Ok x /\ list.last (words line) = Some x.
Proof.
  intros Hv. pose proof (words_go_nonempty line "" (or_intror Hv)) as Hne.
  unfold getlast, words. destruct (list.last (words_go line "")) eqn:E.
  - by eexists.
  - apply last_None in E. done.
Qed.

(** ** Properties *)

(** (C15) The enumeration never raises: for a segment tag with a visible
    character, every selected row has a last field. *)
Theorem select_symbols_total segment lines :
  has_visible segment = true ->
  exists names, select_symbols segment lines = Ok names /\
    Forall2 (fun line x => list.last (words line) = Some x)
            (filter (fun l => selected segment l = true) lines) names.
Proof.
  intros Hseg. unfold select_symbols.
  induction lines as [|line lines IH]; [by exists []|].
  rewrite filter_cons. case_decide as Hsel; [|done].
  destruct IH as (names & Hm & Hf).
  unfold selected in Hsel. apply andb_prop in Hsel as [Hc _].
  destruct (getlast_words_ok line) as (x & Hx & Hl); [by apply (has_visible_contains _ segment)|].
  exists (x :: names). simpl. rewrite Hx, Hm. simpl. split; [done|by constructor].
Qed.

(** (C16) The names are the trailing fields of the selected rows: a name is
    returned iff some row contains the tag, does not end with it, and has
    that name as its last field. *)
Theorem select_symbols_spec segment lines names x :
  select_symbols segment lines = Ok names ->
  x ∈ names <-> exists line, line ∈ lines /\ contains line segment = true /\
                            endswith line segment = false /\ list.last (words line) = Some x.
Proof.
  unfold select_symbols. intros Hm. rewrite (mapM_elem_of _ _ _ _ Hm).
  setoid_rewrite list_elem_of_filter. unfold selected, getlast.
  split.
  - intros (line & [[Hc He]%andb_prop Hl] & Hx). apply negb_true_iff in He.
    destruct (list.last (words line)) eqn:E; [|done]. injection Hx as ->. by exists line.
  - intros (line & Hl & Hc & He & Hx). exists line. rewrite Hc, He, Hx. done.
Qed.

(** ** Witness on the documented [objdump -t] row *)

Definition tab : string := String "009" "".

(** A data row and the section's own row: only [gCamera] is selected. *)
Definition sample_table : list string :=
  ["00000010 l     O .bss" ++ tab ++ "00000004 gCamera";
   "00000000 l    d  .bss" ++ tab ++ "00000000 .bss"].

(** The example of the specification: the [.bss] row of [gCamera]
    yields its trailing name, the section's own row is excluded. *)
Example select_symbols_sample : select_symbols ".bss" sample_table = Ok ["gCamera"].
Proof. vm_compute. reflexivity. Qed.

Lemma select_symbols_spec_witness :
  "gCamera" ∈ ["gCamera"] <->
  exists line, line ∈ sample_table /\ contains line ".bss" = true /\
               endswith line ".bss" = false /\ list.last (words line) = Some "gCamera".
Proof. apply select_symbols_spec. vm_compute. reflexivity. Defined.

Lemma select_symbols_total_witness :
  exists names, select_symbols ".bss" sample_table = Ok names /\
    Forall2 (fun line x => list.last (words line) = Some x)
            (filter (fun l => selected ".bss" l = true) sample_table) names.
Proof. apply select_symbols_total. vm_compute. reflexivity. Defined.
End Symbols.
