(* ===== verification/MapReader.v ===== *)
(** * Linker-Map Reader: [get_o_files_and_offsets]

    Models [get_o_files_and_offsets] ([src/order_bss.py] 109-171 and
    [src/order_data.py] 85-129).  The map text is split into lines; each
    line is stripped; nothing is considered before a line containing
    [".main"]; the first later line containing [".engine"] stops the scan;
    in between, a line containing ["(.text)"] names an object (its last 7
    characters cut off), resolved to a real path (archive members of
    [libultra.a] and, in order_bss, [libgoddard.a] are looked up in up to
    three places), and the next line starting with [".text"] (or else the
    one after) carries its link address, turned into a file offset by
    subtracting [ram_to_rom].  The two scripts differ in the
    [*.o] filter and the archive fallbacks; [scan_map] is the loop they
    share, parameterised by those two points. *)

From Stdlib Require Import ZArith String.
From S2P Require Import Prelude PyStr PyInt Toolchain.

Local Open Scope string_scope.

Module MapReader.

(** [ram_to_rom = int("0x80240800", 16)] *)
Definition ram_to_rom : Z := 0x80240800%Z.

(** What the loop prints. *)
Inductive MapMsg :=
| DoneParsing                 (* "done parsing map" / "encountered engine - done parsing map" *)
| CantResolve (line : string). (* "can't figure out how to make this a real .o file: ..." *)

(** Lines 164-167 (order_bss): the offset of the object named on line [idx]. *)
Definition offset_of (lines : list string) (idx : nat) : result string :=
  l1 <- getitem lines (S idx) ;;
  offset_line <- (if startswith (strip l1) ".text" then Ok (strip l1)
                  else l2 <- getitem lines (S (S idx)) ;; Ok (strip l2)) ;;
  field <- getitem (words offset_line) 1 ;;
  addr <- int16 field ;;
  Ok (hex (addr - ram_to_rom)%Z).

(** The [for idx, line in enumerate(lines)] loop.  [skip_glob] is the
    [or "*.o" in line] test of order_bss, [resolve] the path resolution
    ([None] prints the diagnostic and skips the entry). *)
Fixpoint scan_map (skip_glob : bool) (resolve : string -> option path)
    (lines : list string) (idx : nat) (rest : list string) (seen_main : bool)
    : result (list (path * string) * list MapMsg) :=
  match rest with
  | [] => Ok ([], [])
  | raw :: rest' =>
      let line := strip raw in
      let seen := seen_main || contains line ".main" in
      if negb seen then scan_map skip_glob resolve lines (S idx) rest' false
      else if contains line ".engine" then Ok ([], [DoneParsing])
      else if negb (contains line "(.text)") || (skip_glob && contains line "*.o")
      then scan_map skip_glob resolve lines (S idx) rest' true
      else
        let name := drop_last 7 line in
        match resolve name with
        | None =>
            r <- scan_map skip_glob resolve lines (S idx) rest' true ;;
            Ok (fst r, CantResolve name :: snd r)
        | Some filepath =>
            offset <- offset_of lines idx ;;
            r <- scan_map skip_glob resolve lines (S idx) rest' true ;;
            Ok ((filepath, offset) :: fst r, snd r)
        end
  end.

Section WithTools.
Context `{Toolchain}.

(** Lines 149-162 of order_bss.py. *)
Definition resolve_bss (sm64_path : path) (line : string) : option path :=
  if negb (contains line "libultra.a") && negb (contains line "libgoddard.a")
  then Some (path_div sm64_path line)
  else
    let m1 := path_div sm64_path (replace "ultra.a:" "/src/" line) in
    if is_file (path_str m1) then Some m1 else
    let m2 := path_div sm64_path (replace "ultra.a:" "/asm/" line) in
    if is_file (path_str m2) then Some m2 else
    let m3 := path_div sm64_path (replace "libgoddard.a:" "src/goddard/" line) in
    if is_file (path_str m3) then Some m3 else None.

(** Lines 112-121 of order_data.py: no [libgoddard.a] fallback. *)
Definition resolve_data (sm64_path : path) (line : string) : option path :=
  if negb (contains line "libultra.a") then Some (path_div sm64_path line)
  else
    let m1 := path_div sm64_path (replace "ultra.a:" "/src/" line) in
    if is_file (path_str m1) then Some m1 else
    let m2 := path_div sm64_path (replace "ultra.a:" "/asm/" line) in
    if is_file (path_str m2) then Some m2 else None.

Definition map_file (sm64_source : string) : string :=
  path_str (path_div (path_div (path_div (path_of sm64_source) "build") "eu") "sm64.eu.map").

(** [get_o_files_and_offsets] of order_bss.py. *)
Definition get_o_files_and_offsets_bss (sm64_source : string)
  : result (list (path * string) * list MapMsg) :=
  text <- read_text (map_file sm64_source) ;;
  let lines := split newline text in
  scan_map true (resolve_bss (path_of sm64_source)) lines 0 lines false.

(** [get_o_files_and_offsets] of order_data.py. *)
Definition get_o_files_and_offsets_data (sm64_source : string)
  : result (list (path * string) * list MapMsg) :=
  text <- read_text (map_file sm64_source) ;;
  let lines := split newline text in
  scan_map false (resolve_data (path_of sm64_source)) lines 0 lines false.

End WithTools.

(** ** Lemmas *)

Definition has_main (l : string) : bool := contains (strip l) ".main".
Definition has_engine (l : string) : bool := contains (strip l) ".engine".

(** Concatenation of two partial outputs of the loop. *)
Definition out_app (r1 r2 : list (path * string) * list MapMsg) :=
  ((fst r1 ++ fst r2)%list, (snd r1 ++ snd r2)%list).

Lemma scan_map_before_main sg rs lines idx pre rest :
  Forall (fun l => has_main l = false) pre ->
  scan_map sg rs lines idx (pre ++ rest) false = scan_map sg rs lines (idx + length pre) rest false.
Proof.
  intros Hpre. revert idx; induction Hpre as [|l pre0 Hl _ IH]; intros idx; simpl.
  - by rewrite Nat.add_0_r.
  - unfold has_main in Hl. rewrite Hl. simpl. rewrite IH. f_equal. lia.
Qed.

Lemma scan_map_main sg rs lines idx m rest :
  has_main m = true -> scan_map sg rs lines idx (m :: rest) false = scan_map sg rs lines idx (m :: rest) true.
Proof. unfold has_main. intros Hm. simpl. by rewrite Hm. Qed.

(** Inside the region the loop is a homomorphism: scanning [mid ++ rest]
    is scanning [mid], then [rest]. *)
Lemma scan_map_app sg rs lines idx mid rest :
  Forall (fun l => has_engine l = false) mid ->
  scan_map sg rs lines idx (mid ++ rest) true =
  (r1 <- scan_map sg rs lines idx mid true ;;
   r2 <- scan_map sg rs lines (idx + length mid) rest true ;;
   Ok (out_app r1 r2)).
Proof.
  intros Hmid. revert idx; induction Hmid as [|l mid0 Hl _ IH]; intros idx.
  - simpl. rewrite Nat.add_0_r. by destruct (scan_map _ _ _ _ rest _) as [[]|].
  - unfold has_engine in Hl. cbn [app scan_map]. rewrite orb_true_l. simpl negb. cbv iota.
    rewrite Hl, IH. replace (S idx + length mid0) with (idx + length (l :: mid0)) by (simpl; lia).
    destruct (_ || _); [by destruct (scan_map _ _ _ (S idx) mid0 _) as [[]|]|].
    destruct (rs _); [|by destruct (scan_map _ _ _ (S idx) mid0 _) as [[]|],
                                   (scan_map _ _ _ (idx + _) rest _) as [[]|]].
    destruct (offset_of lines idx); [|done]. simpl.
    by destruct (scan_map _ _ _ (S idx) mid0 _) as [[]|], (scan_map _ _ _ (idx + _) rest _) as [[]|].
Qed.

(** ** Properties *)

(** (C12) The map region: lines before the first [.main] line and from the
    following [.engine] line on contribute nothing (the tail [post] is
    arbitrary); the output is that of the region, followed by the
    "done parsing map" message. *)
Theorem scan_map_region sg rs lines pre m mid e post :
  Forall (fun l => has_main l = false) pre -> has_main m = true ->
  Forall (fun l => has_engine l = false) (m :: mid) -> has_engine e = true ->
  scan_map sg rs lines 0 (pre ++ m :: mid ++ e :: post) false =
  (r <- scan_map sg rs lines (length pre) (m :: mid) true ;;
   Ok (fst r, (snd r ++ [DoneParsing])%list)).
Proof.
  intros Hpre Hm Hmid He.
  rewrite scan_map_before_main, scan_map_main by done. simpl Nat.add.
  rewrite app_comm_cons, scan_map_app by done.
  assert (scan_map sg rs lines (length pre + length (m :: mid)) (e :: post) true = Ok ([], [DoneParsing]))
    as ->.
  { unfold has_engine in He. simpl. by rewrite He. }
  destruct (scan_map _ _ _ _ (m :: mid) _) as [[es ms]|]; [|done].
  unfold out_app. simpl. by rewrite app_nil_r.
Qed.

(** (C13) The file offset of an object is its link address minus
    0x80240800, printed by [hex]: the address is the second field of the
    line after the object's line when that line starts with [.text], and
    of the line after that otherwise; [int(_, 16)] reads the offset back. *)
Theorem offset_of_spec lines idx l1 oline field addr :
  lines !! S idx = Some l1 ->
  (if startswith (strip l1) ".text" then oline = strip l1
   else exists l2, lines !! S (S idx) = Some l2 /\ oline = strip l2) ->
  words oline !! 1 = Some field -> int16 field = Ok addr ->
  offset_of lines idx = Ok (hex (addr - 0x80240800)) /\
  int16 (hex (addr - 0x80240800)) = Ok (addr - 0x80240800)%Z.
Proof.
  intros Hl Ho Hf Ha. split; [|apply int16_hex].
  unfold offset_of. rewrite (getitem_lookup _ _ _ Hl). simpl bind.
  destruct (startswith (strip l1) ".text").
  - subst oline. simpl bind. rewrite (getitem_lookup _ _ _ Hf). simpl. by rewrite Ha.
  - destruct Ho as (l2 & Hl2 & ->). rewrite (getitem_lookup _ _ _ Hl2). simpl bind.
    rewrite (getitem_lookup _ _ _ Hf). simpl. by rewrite Ha.
Qed.

(** (C14) An object named on the last line of the map has no address line:
    the script dies with [IndexError]. *)
Theorem scan_map_truncated sg rs lines idx l p :
  length lines <= S idx -> has_engine l = false -> contains (strip l) "(.text)" = true ->
  (sg && contains (strip l) "*.o") = false -> rs (drop_last 7 (strip l)) = Some p ->
  scan_map sg rs lines idx [l] true = Raise IndexError.
Proof.
  unfold has_engine. intros Hlen He Ht Hg Hr. simpl. rewrite He, Ht, Hg, Hr. simpl.
  unfold offset_of. by rewrite getitem_ge.
Qed.

(** ** Witnesses and findings *)

Definition sample_map : list string :=
  ["Linker script and memory map"; " .main          0x0000000080246000";
   "  build/eu/src/game/foo.o(.text)";
   "  .text          0x0000000080241000      0x10 build/eu/src/game/foo.o";
   " .engine         0x0000000080378800"; "  build/eu/src/engine/bar.o(.text)"].

(** The example of the specification: [foo.o] at link address 0x80241000
    starts at file offset 0x800. *)
Example scan_map_sample :
  scan_map true (fun l => Some (path_div (path_of "sm64") l)) sample_map 0 sample_map false =
  Ok ([(path_div (path_of "sm64") "build/eu/src/game/foo.o", "0x800")], [DoneParsing]).
Proof. vm_compute. reflexivity. Qed.

Lemma scan_map_region_witness :
  scan_map true (fun l => Some (path_of l)) sample_map 0 sample_map false =
  (r <- scan_map true (fun l => Some (path_of l)) sample_map 1 (take 3 (drop 1 sample_map)) true ;;
   Ok (fst r, (snd r ++ [DoneParsing])%list)).
Proof.
  apply (scan_map_region _ _ _ ["Linker script and memory map"] " .main          0x0000000080246000"
           (take 2 (drop 2 sample_map)) " .engine         0x0000000080378800"
           ["  build/eu/src/engine/bar.o(.text)"]); vm_compute; repeat constructor.
Defined.

Lemma offset_of_spec_witness :
  offset_of sample_map 2 = Ok (hex (0x80241000 - 0x80240800)) /\
  int16 (hex (0x80241000 - 0x80240800)) = Ok (0x80241000 - 0x80240800)%Z /\
  hex (0x80241000 - 0x80240800) = "0x800".
Proof.
  destruct (offset_of_spec sample_map 2
              "  .text          0x0000000080241000      0x10 build/eu/src/game/foo.o"
              ".text          0x0000000080241000      0x10 build/eu/src/game/foo.o"
              "0x0000000080241000" 0x80241000%Z) as [H1 H2]; try (vm_compute; reflexivity).
  split_and!; [exact H1|exact H2|reflexivity].
Defined.

Lemma scan_map_truncated_witness :
  scan_map true (fun l => Some (path_of l)) (take 3 sample_map) 2
           ["  build/eu/src/game/foo.o(.text)"] true = Raise IndexError.
Proof.
  apply (scan_map_truncated _ _ _ _ _ (path_of "build/eu/src/game/foo.o")); vm_compute;
    reflexivity || lia.
Defined.




End MapReader.
