(* ===== verification/Report.v ===== *)
(** * Ordering Report: the main loops of order_bss.py and order_data.py

    [order_bss.py] 174-235: for the master object, every [.bss] symbol;
    for every other object of the map, its undefined symbols that are
    [.bss] symbols of the master; each is reconstructed in both ROMs
    ([print_symbol_position_diff]) and recorded in [symbol_positions]; a
    second, different observation of a symbol prints a warning and keeps
    the first; at the end the table is printed sorted by baseline address.
    Exceptions are not caught.

    The table is an association list in insertion order (a Python dict);
    [observe] is the recording step shared by the two branches.  The
    theorems: a recorded position is never changed and conflicts are
    reported ([observe_*], [order_bss_loop_keeps]), keys stay unique, every
    recorded baseline address is a [hex] string, so the final sort never
    raises and yields the table sorted by address ([order_bss_report]). *)

From Stdlib Require Import ZArith String.
From S2P Require Import Prelude PyStr PyInt Toolchain Reloc Reconstruct Symbols MapReader.

Local Open Scope string_scope.

Module Report.

(** [(baserom, builtrom, diff)] *)
Definition Pos : Type := string * string * string.

Inductive Warning :=
| Inconsistent (symbol : string) (old new : Pos) (o_name : string).

Record table := mktable { positions : list (string * Pos); warnings : list Warning }.

Definition empty_table : table := mktable [] [].

Fixpoint assoc (k : string) (l : list (string * Pos)) : option Pos :=
  match l with
  | [] => None
  | (k', v) :: l' => if bool_decide (k = k') then Some v else assoc k l'
  end.

(** Lines 206-215 (and 222-231): record [pos] for [symbol]. *)
Definition observe (t : table) (symbol : string) (pos : Pos) (o_name : string) : table :=
  match assoc symbol (positions t) with
  | Some old =>
      if bool_decide (old = pos) then t
      else mktable (positions t) (warnings t ++ [Inconsistent symbol old pos o_name])
  | None => mktable (positions t ++ [(symbol, pos)]) (warnings t)
  end.

Section WithTools.
Context `{Toolchain}.
Variables (sm64_source sm64tools : string).

(** [print_symbol_position_diff] (lines 174-183). *)
Definition print_symbol_position_diff (symbol : string) (o_file : path) (file_rom_start : string)
  : result (option Pos) :=
  r <- Reconstruct.get_real_ram_addrs sm64_source sm64tools symbol (path_str o_file) file_rom_start ;;
  match r with
  | None => Ok None
  | Some (baserom, builtrom) =>
      b <- int16 baserom ;; t <- int16 builtrom ;;
      Ok (Some (baserom, builtrom, hex (b - t)%Z))
  end.

(** The inner [for symbol in ...] loops (lines 202-215 and 217-231). *)
Fixpoint record_symbols (o_file : path) (file_rom_start : string) (syms : list string) (t : table)
  : result table :=
  match syms with
  | [] => Ok t
  | symbol :: rest =>
      pos <- print_symbol_position_diff symbol o_file file_rom_start ;;
      let t' := match pos with
                | None => t
                | Some p => observe t symbol p (path_name o_file)
                end in
      record_symbols o_file file_rom_start rest t'
  end.

(** The outer [for o_file, file_rom_start in o_files_and_offsets] loop
    (lines 200-231). *)
Fixpoint order_bss_loop (master_name : string) (bss_symbols : list string)
    (files : list (path * string)) (t : table) : result table :=
  match files with
  | [] => Ok t
  | (o_file, file_rom_start) :: rest =>
      t' <- (if bool_decide (path_name o_file = master_name)
             then record_symbols o_file file_rom_start bss_symbols t
             else und <- Symbols.get_symbols (path_str o_file) "*UND*" ;;
                  record_symbols o_file file_rom_start
                    (filter (fun s => s ∈ bss_symbols) und) t) ;;
      order_bss_loop master_name bss_symbols rest t'
  end.

End WithTools.

(** [int(kv[1][0], 16)]: the sort key of a table row. *)
Definition row_key (kv : string * Pos) : result Z := int16 (fst (fst (snd kv))).

Section Main.
Context `{Toolchain}.

(** The [__main__] block of order_bss.py (lines 186-235); [sm64tools_env]
    is [os.environ.get("SM64_TOOLS")]. *)
Definition order_bss_main (sm64_source master_o_file : string) (sm64tools_env : option string)
  : result (list MapReader.MapMsg * list (string * Pos) * list Warning) :=
  fo <- MapReader.get_o_files_and_offsets_bss sm64_source ;;
  sm64tools <- match sm64tools_env with
               | Some s => if bool_decide (s = "") then Raise (Exception "define SM64_TOOLS as an env var")
                           else Ok s
               | None => Raise (Exception "define SM64_TOOLS as an env var")
               end ;;
  bss <- Symbols.get_symbols master_o_file ".bss" ;;
  t <- order_bss_loop sm64_source sm64tools (path_name (path_of master_o_file)) bss (fst fo) empty_table ;;
  report <- py_sorted row_key (positions t) ;;
  Ok (snd fo, report, warnings t).

End Main.

(** ** Lemmas *)

Lemma assoc_app k l r : assoc k (l ++ r) = match assoc k l with Some v => Some v | None => assoc k r end.
Proof. induction l as [|[k' v] l IH]; simpl; [done|]. by case_bool_decide. Qed.

Lemma assoc_In k l v : assoc k l = Some v -> (k, v) ∈ l.
Proof.
  induction l as [|[k' v'] l IH]; simpl; [done|].
  case_bool_decide; [intros [= <-]; subst; left|intros; right; auto].
Qed.

Lemma assoc_None k l : assoc k l = None -> k ∉ map fst l.
Proof.
  induction l as [|[k' v'] l IH]; simpl; [intros _; apply not_elem_of_nil|].
  case_bool_decide; [done|]. intros Hl. rewrite elem_of_cons. intros [->|]; [done|by apply IH].
Qed.

(** The baseline address of a row is a [hex] string. *)
Definition hex_row (kv : string * Pos) : Prop := exists z, fst (fst (snd kv)) = hex z.

(** The table invariant: one row per symbol, every baseline address a
    [hex] string. *)
Definition table_inv (t : table) : Prop :=
  NoDup (map fst (positions t)) /\ Forall hex_row (positions t).

(** [t'] extends [t]: rows and warnings are only appended. *)
Definition extends (t t' : table) : Prop :=
  positions t `prefix_of` positions t' /\ warnings t `prefix_of` warnings t'.

Lemma extends_refl t : extends t t.
Proof. split; reflexivity. Qed.

Lemma extends_trans t1 t2 t3 : extends t1 t2 -> extends t2 t3 -> extends t1 t3.
Proof. intros [??] [??]. split; by etrans. Qed.

Lemma observe_extends t s p n : extends t (observe t s p n).
Proof.
  unfold observe. destruct (assoc s (positions t)); [case_bool_decide|];
    split; simpl; try reflexivity; by eexists.
Qed.

Lemma observe_inv t s p n : table_inv t -> hex_row (s, p) -> table_inv (observe t s p n).
Proof.
  unfold observe. intros [Hnd Hhex] Hp. destruct (assoc s (positions t)) eqn:E; [by case_bool_decide|].
  split; simpl.
  - rewrite map_app. apply list.NoDup_app. split_and!; [done| |by apply list.NoDup_singleton].
    intros x Hx ->%list_elem_of_singleton. by apply (assoc_None s (positions t)).
  - apply Forall_app. split; [done|by constructor].
Qed.

Lemma assoc_extends t t' s p : extends t t' -> assoc s (positions t) = Some p -> assoc s (positions t') = Some p.
Proof. intros [[k ->] _] Hs. by rewrite assoc_app, Hs. Qed.

(** [ram_addr_of] prints its result with [hex]. *)
Lemma ram_addr_of_hex asm start hi lo r :
  Reconstruct.ram_addr_of asm start hi lo = Ok r -> exists z, r = hex z.
Proof.
  unfold Reconstruct.ram_addr_of. intros H.
  repeat (apply bind_Ok in H as (? & _ & H)). injection H as <-. by eexists.
Qed.

Section Loops.
Context `{Toolchain}.
Variables (sm64_source sm64tools : string).

Lemma print_symbol_position_diff_hex symbol o_file start p :
  print_symbol_position_diff sm64_source sm64tools symbol o_file start = Ok (Some p) ->
  hex_row (symbol, p).
Proof.
  unfold print_symbol_position_diff, Reconstruct.get_real_ram_addrs. intros Hp.
  apply bind_Ok in Hp as (r & Hr & Hp). apply bind_Ok in Hr as (o & _ & Hr).
  destruct o as [[hi lo]|]; [|injection Hr as <-; done].
  apply bind_Ok in Hr as (b & Hb & Hr). apply bind_Ok in Hr as (t & _ & Hr). injection Hr as <-.
  repeat (apply bind_Ok in Hp as (? & _ & Hp)). injection Hp as <-.
  destruct (ram_addr_of_hex _ _ _ _ _ Hb) as [z ->]. by exists z.
Qed.

(** Any property [R] of (before, after) pairs that is reflexive,
    transitive and holds across one [observe] of a [hex] row holds across
    the loops. *)
Section Preserve.
Variable R : table -> table -> Prop.
Hypothesis R_refl : forall t, R t t.
Hypothesis R_trans : forall t1 t2 t3, R t1 t2 -> R t2 t3 -> R t1 t3.
Hypothesis R_observe : forall t s p n, hex_row (s, p) -> R t (observe t s p n).

Lemma record_symbols_preserve o_file start syms t t' :
  record_symbols sm64_source sm64tools o_file start syms t = Ok t' -> R t t'.
Proof.
  revert t; induction syms as [|s syms IH]; intros t Hr; simpl in Hr.
  - by injection Hr as <-.
  - apply bind_Ok in Hr as (pos & Hpos & Hr). destruct pos as [p|].
    + eapply R_trans; [|by apply IH]. apply R_observe.
      by eapply print_symbol_position_diff_hex.
    + by apply IH.
Qed.

Lemma order_bss_loop_preserve master bss files t t' :
  order_bss_loop sm64_source sm64tools master bss files t = Ok t' -> R t t'.
Proof.
  revert t; induction files as [|[o start] files IH]; intros t Hr; simpl in Hr.
  - by injection Hr as <-.
  - apply bind_Ok in Hr as (t1 & Ht1 & Hr). eapply R_trans; [|by apply IH].
    case_bool_decide; [by eapply record_symbols_preserve|].
    apply bind_Ok in Ht1 as (und & _ & Ht1). by eapply record_symbols_preserve.
Qed.
End Preserve.
End Loops.

Definition row_addr (kv : string * Pos) : Z :=
  match row_key kv with Ok z => z | Raise _ => 0%Z end.

Lemma table_inv_keys t kv : table_inv t -> kv ∈ positions t -> row_key kv = Ok (row_addr kv).
Proof.
  intros [_ Hhex] Hkv. rewrite Forall_forall in Hhex. destruct (Hhex kv) as [z Hz].
  - by apply list_elem_of_In.
  - unfold row_addr, row_key. rewrite Hz, int16_hex. done.
Qed.

(** ** Properties *)

(** (C7) First observation wins: after [observe], a symbol already in the
    table keeps its position, a new symbol gets the observed one, and the
    other symbols are unchanged. *)
Theorem observe_lookup t s s' p n :
  assoc s (positions (observe t s' p n)) =
  match assoc s (positions t) with
  | Some q => Some q
  | None => if bool_decide (s = s') then Some p else None
  end.
Proof.
  unfold observe. destruct (assoc s' (positions t)) eqn:E'.
  - destruct (assoc s (positions t)) eqn:E; repeat case_bool_decide; simpl; try done;
      subst; congruence.
  - simpl. rewrite assoc_app. destruct (assoc s (positions t)) eqn:E; [done|]. simpl.
    by case_bool_decide.
Qed.

(** (C8) A conflicting observation is reported with both values and the
    object file name, and changes no position. *)
Theorem observe_conflict t s p q n :
  assoc s (positions t) = Some q -> q <> p ->
  observe t s p n = mktable (positions t) (warnings t ++ [Inconsistent s q p n]).
Proof. intros Hq Hne. unfold observe. rewrite Hq. by rewrite bool_decide_eq_false_2. Qed.

Section MainProps.
Context `{Toolchain}.

(** (C9) The main loop only appends rows and warnings: a position, once
    recorded, is the one reported at the end. *)
Theorem order_bss_loop_keeps src tools master bss files t t' s p :
  order_bss_loop src tools master bss files t = Ok t' ->
  assoc s (positions t) = Some p -> assoc s (positions t') = Some p /\ extends t t'.
Proof.
  intros Hl Hs. assert (extends t t') as Hext.
  { eapply (order_bss_loop_preserve _ _ extends); eauto using extends_refl, extends_trans, observe_extends. }
  split; [by eapply assoc_extends|done].
Qed.

Lemma loop_table_inv src tools master bss files t t' :
  table_inv t -> order_bss_loop src tools master bss files t = Ok t' -> table_inv t'.
Proof.
  intros Hinv Hl.
  refine (order_bss_loop_preserve src tools (fun t t' => table_inv t -> table_inv t') _ _ _
            master bss files t t' Hl Hinv); [auto|auto|intros; by apply observe_inv].
Qed.

(** (C10) The table invariant holds throughout the main loop: one row per
    symbol, and every baseline address a [hex] string. *)
Theorem order_bss_loop_inv src tools master bss files t t' :
  table_inv t -> order_bss_loop src tools master bss files t = Ok t' -> table_inv t'.
Proof. apply loop_table_inv. Qed.

(** (C11) The report: whenever the script runs to the end, SM64_TOOLS is
    set, and the rows it prints are the table that the main loop built
    from the map's objects and the master's [.bss] symbols, in ascending
    baseline address, one row per symbol, each address read back exactly;
    the messages printed first are the map reader's, the warnings are the
    loop's; the sort never raises. *)
Theorem order_bss_report src master env msgs report ws :
  order_bss_main src master env = Ok (msgs, report, ws) ->
  exists fo tools bss t,
    MapReader.get_o_files_and_offsets_bss src = Ok fo /\ env = Some tools /\ tools <> "" /\
    Symbols.get_symbols master ".bss" = Ok bss /\
    order_bss_loop src tools (path_name (path_of master)) bss (fst fo) empty_table = Ok t /\
    msgs = snd fo /\ report ≡ₚ positions t /\ ws = warnings t /\
    Sorted (fun a b => (row_addr a <= row_addr b)%Z) report /\
    NoDup (map fst report) /\ Forall (fun kv => row_key kv = Ok (row_addr kv)) report.
Proof.
  unfold order_bss_main. intros Hm.
  apply bind_Ok in Hm as (fo & Hfo & Hm). apply bind_Ok in Hm as (tools & Htools & Hm).
  apply bind_Ok in Hm as (bss & Hbss & Hm). apply bind_Ok in Hm as (t & Ht & Hm).
  apply bind_Ok in Hm as (r & Hr & Hm). injection Hm as <- <- <-.
  assert (env = Some tools /\ tools <> "") as [Henv Hne].
  { destruct env as [s|]; [|done]. case_bool_decide; [done|]. by injection Htools as ->. }
  assert (table_inv t) as Hinv.
  { eapply loop_table_inv; [|exact Ht]. split; constructor. }
  destruct (py_sorted_spec row_key row_addr (positions t)) as (r' & Hr' & Hperm & Hsorted & _).
  { intros kv Hkv. by apply (table_inv_keys t). }
  rewrite Hr in Hr'. injection Hr' as <-.
  exists fo, tools, bss, t. split_and!; try done.
  - rewrite Hperm. apply Hinv.
  - apply Forall_forall. intros kv Hkv. apply (table_inv_keys t); [done|].
    rewrite <-Hperm. by apply list_elem_of_In.
Qed.
End MainProps.

(** ** A sample run

    A toolchain that answers like the real tools for one object: the map
    of [MapReader.sample_map], the symbol table of [Symbols.sample_table],
    the relocations of [Reloc.sample_dump], and a disassembler whose built
    ROM has the variable 0x10000 higher than the baseline. *)
Definition sample_disasm (rom range : string) : string :=
  if bool_decide (range = "0x80200000:0x808+0x4")
  then (if endswith rom "baserom.eu.z64" then "lui   $at, 0x8034" else "lui   $at, 0x8035")
  else "lw    $t6, -0x10($at)".

Definition sample_run (argv : list string) : result string :=
  match argv with
  | [_; flag; _] =>
      if bool_decide (flag = "-t") then Ok (join newline Symbols.sample_table)
      else Ok (join newline Reloc.sample_dump)
  | [_; _; rom; range] => Ok ("disassembly of " ++ rom ++ newline ++ sample_disasm rom range ++ newline)
  | _ => Raise (Exception "no such tool")
  end.

Definition sample_tools : Toolchain :=
  {| run_stdout := sample_run; is_file := fun _ => false;
     read_text := fun _ => Ok (join newline MapReader.sample_map) |}.

Definition sample_obj : path := path_div (path_of "sm64") "build/eu/src/game/foo.o".
Definition sample_pos : Pos := ("0x8033fff0", "0x8034fff0", "-0x10000").

(** The whole of order_bss.py on the sample toolchain: [gCamera] at
    0x8033fff0 in the baseline, 0x8034fff0 in the built ROM, no warning. *)
Example order_bss_sample :
  @order_bss_main sample_tools "sm64" "build/eu/src/game/foo.o" (Some "tools") =
  Ok ([MapReader.DoneParsing], [("gCamera", sample_pos)], []).
Proof. vm_compute. reflexivity. Qed.

Definition sample_table : table := mktable [("gCamera", sample_pos)] [].
Definition other_pos : Pos := ("0x8033fff0", "0x8033fff0", "0x0").

Lemma observe_conflict_witness :
  observe sample_table "gCamera" other_pos "bar.o" =
  mktable (positions sample_table)
          (warnings sample_table ++ [Inconsistent "gCamera" sample_pos other_pos "bar.o"]).
Proof. apply observe_conflict; [reflexivity|discriminate]. Defined.

Lemma order_bss_loop_keeps_witness :
  assoc "gCamera" (positions (mktable [("gCamera", sample_pos)] [])) = Some sample_pos /\
  extends (mktable [("gCamera", sample_pos)] []) (mktable [("gCamera", sample_pos)] []).
Proof.
  apply (@order_bss_loop_keeps sample_tools "sm64" "tools" "foo.o" ["gCamera"]
           [(sample_obj, "0x800")]); vm_compute; reflexivity.
Defined.

Lemma order_bss_loop_inv_witness : table_inv (mktable [("gCamera", sample_pos)] []).
Proof.
  apply (@order_bss_loop_inv sample_tools "sm64" "tools" "foo.o" ["gCamera"]
           [(sample_obj, "0x800")] empty_table).
  - split; constructor.
  - vm_compute. reflexivity.
Defined.

Lemma order_bss_report_witness :
  exists fo tools bss t,
    @MapReader.get_o_files_and_offsets_bss sample_tools "sm64" = Ok fo /\ Some "tools" = Some tools /\
    tools <> "" /\ @Symbols.get_symbols sample_tools "build/eu/src/game/foo.o" ".bss" = Ok bss /\
    @order_bss_loop sample_tools "sm64" tools (path_name (path_of "build/eu/src/game/foo.o")) bss (fst fo)
      empty_table = Ok t /\ [MapReader.DoneParsing] = snd fo /\
    [("gCamera", sample_pos)] ≡ₚ positions t /\ [] = warnings t /\
    Sorted (fun a b => (row_addr a <= row_addr b)%Z) [("gCamera", sample_pos)] /\
    NoDup (map fst [("gCamera", sample_pos)]) /\
    Forall (fun kv => row_key kv = Ok (row_addr kv)) [("gCamera", sample_pos)].
Proof.
  apply (@order_bss_report sample_tools "sm64" "build/eu/src/game/foo.o" (Some "tools")).
  vm_compute. reflexivity.
Defined.
End Report.
