(* ===== verification/OrderData.v ===== *)
(** * Ordering Report of order_data.py: objects ordered by their data

    [src/order_data.py] 132-165: for every object of the map, each
    [.data] symbol is reconstructed in the baseline ROM inside
    [try ... except Exception: print("whatever...")]; the object's key is
    the largest address obtained, starting from [-1]; objects with a key
    other than [-1] are stored in [file_order] (a dict keyed by path) and
    printed sorted by key.  ([min_symbol] is computed but never read, and
    is left out.)  The theorems: a failing symbol only drops out of the
    maximum ([file_max_spec]), and the printed list is sorted by key, one
    row per object ([order_data_report]). *)

From Stdlib Require Import ZArith String.
From S2P Require Import Prelude PyStr PyInt Toolchain Reloc Reconstruct Symbols MapReader.

Local Open Scope string_scope.

Module OrderData.

(** [file_order[o_file] = max_symbol]: overwrite in place or append. *)
Fixpoint dict_set (k : path) (v : Z) (d : list (path * Z)) : list (path * Z) :=
  match d with
  | [] => [(k, v)]
  | (k', v') :: d' => if bool_decide (k = k') then (k, v) :: d' else (k', v') :: dict_set k v d'
  end.

Section WithTools.
Context `{Toolchain}.
Variables (sm64_source sm64tools : string).

(** The [try] body for one symbol: its address as an integer, if any. *)
Definition symbol_addr (o_file : path) (file_rom_start symbol : string) : result (option Z) :=
  a <- Reconstruct.get_real_ram_addr sm64_source sm64tools symbol (path_str o_file) file_rom_start ;;
  match a with
  | Some ram_addr => z <- int16 ram_addr ;; Ok (Some z)
  | None => Ok None
  end.

(** The inner loop (lines 147-158): [except Exception] turns any failure
    of a symbol into "no address". *)
Fixpoint file_max (o_file : path) (file_rom_start : string) (syms : list string) (max_symbol : Z)
  : result Z :=
  match syms with
  | [] => Ok max_symbol
  | symbol :: rest =>
      r <- catch (symbol_addr o_file file_rom_start symbol) (fun _ => Ok None) ;;
      file_max o_file file_rom_start rest
        (match r with Some z => Z.max max_symbol z | None => max_symbol end)
  end.

(** The outer loop (lines 144-162). *)
Fixpoint order_data_loop (files : list (path * string)) (file_order : list (path * Z))
  : result (list (path * Z)) :=
  match files with
  | [] => Ok file_order
  | (o_file, file_rom_start) :: rest =>
      syms <- Symbols.get_data_symbols (path_str o_file) ;;
      m <- file_max o_file file_rom_start syms (-1) ;;
      order_data_loop rest
        (if bool_decide (m <> -1)%Z then dict_set o_file m file_order else file_order)
  end.

End WithTools.

Section Main.
Context `{Toolchain}.

(** The [__main__] block of order_data.py (lines 132-165). *)
Definition order_data_main (sm64_source : string) (sm64tools_env : option string)
  : result (list (path * Z)) :=
  fo <- MapReader.get_o_files_and_offsets_data sm64_source ;;
  sm64tools <- match sm64tools_env with
               | Some s => if bool_decide (s = "") then Raise (Exception "define SM64_TOOLS as an env var")
                           else Ok s
               | None => Raise (Exception "define SM64_TOOLS as an env var")
               end ;;
  file_order <- order_data_loop sm64_source sm64tools (fst fo) [] ;;
  py_sorted (fun kv => Ok (snd kv)) file_order.

End Main.

(** ** Lemmas *)

Lemma dict_set_dom k v d x : x ∈ map fst (dict_set k v d) <-> x = k \/ x ∈ map fst d.
Proof.
  induction d as [|[k' v'] d IH]; simpl.
  - rewrite elem_of_cons. split; [intros [->|Hx]; [by left|by apply not_elem_of_nil in Hx]|].
    intros [->|Hx]; [by left|by apply not_elem_of_nil in Hx].
  - case_bool_decide; subst; simpl; rewrite !elem_of_cons; [naive_solver|]. rewrite IH. naive_solver.
Qed.

Lemma dict_set_keys k v d : NoDup (map fst d) -> NoDup (map fst (dict_set k v d)).
Proof.
  induction d as [|[k' v'] d IH]; simpl; intros Hnd.
  - by apply list.NoDup_singleton.
  - apply list.NoDup_cons in Hnd as [Hk Hnd]. case_bool_decide; subst; simpl.
    + by apply list.NoDup_cons.
    + apply list.NoDup_cons. split; [|by apply IH].
      rewrite dict_set_dom. naive_solver.
Qed.

Lemma dict_set_values (P : Z -> Prop) k v d :
  P v -> Forall (fun kv => P (snd kv)) d -> Forall (fun kv => P (snd kv)) (dict_set k v d).
Proof.
  intros Hv. induction 1 as [|[k' v'] d Hp Hd IH]; simpl; [by constructor|].
  case_bool_decide; constructor; simpl; auto.
Qed.

Section Props.
Context `{Toolchain}.
Variables (sm64_source sm64tools : string).

(** The addresses of the symbols whose reconstruction succeeds. *)
Definition found_addrs (o_file : path) (start : string) (syms : list string) : list Z :=
  omap (fun s => match symbol_addr sm64_source sm64tools o_file start s with
                 | Ok (Some z) => Some z
                 | _ => None
                 end) syms.

(** (C17) [try]/[except] per symbol: the key of an object is the maximum of
    [-1] and the addresses that could be reconstructed; a failure only
    drops that symbol, and the inner loop never raises. *)
Theorem file_max_spec o_file start syms m :
  file_max sm64_source sm64tools o_file start syms m =
  Ok (fold_left Z.max (found_addrs o_file start syms) m).
Proof.
  revert m; induction syms as [|s syms IH]; intros m; [done|]. simpl.
  unfold found_addrs. simpl.
  destruct (symbol_addr sm64_source sm64tools o_file start s) as [[z|]|e]; simpl; apply IH.
Qed.

Definition data_inv (d : list (path * Z)) : Prop :=
  NoDup (map fst d) /\ Forall (fun kv => snd kv <> (-1)%Z) d.

Lemma order_data_loop_inv files d d' :
  data_inv d -> order_data_loop sm64_source sm64tools files d = Ok d' -> data_inv d'.
Proof.
  revert d; induction files as [|[o start] files IH]; intros d [Hnd Hv] Hl; simpl in Hl.
  - by injection Hl as <-.
  - apply bind_Ok in Hl as (syms & _ & Hl). apply bind_Ok in Hl as (m & _ & Hl).
    eapply IH; [|exact Hl]. case_bool_decide; [|done].
    split; [by apply dict_set_keys|by apply (dict_set_values (fun z => z <> (-1)%Z))].
Qed.
End Props.

(** (C18) The report of order_data.py lists each object at most once, with
    a key other than the [-1] sentinel, in ascending key order. *)
Theorem order_data_report `{Toolchain} src env r :
  order_data_main src env = Ok r ->
  Sorted (fun a b => (snd a <= snd b)%Z) r /\ NoDup (map fst r) /\
  Forall (fun kv => snd kv <> (-1)%Z) r.
Proof.
  unfold order_data_main. intros Hm.
  apply bind_Ok in Hm as (fo & _ & Hm). apply bind_Ok in Hm as (tools & _ & Hm).
  apply bind_Ok in Hm as (d & Hd & Hm).
  destruct (order_data_loop_inv _ _ _ [] d ltac:(split; constructor) Hd) as [Hnd Hv].
  destruct (py_sorted_spec (fun kv : path * Z => Ok (snd kv)) snd d) as (r' & Hr' & Hperm & Hs & _);
    [done|].
  rewrite Hm in Hr'. injection Hr' as <-. split_and!; [done| |].
  - by rewrite Hperm.
  - by rewrite Hperm.
Qed.

(** ** A sample run *)

Definition sample_table : list string :=
  ["00000010 l     O .data" ++ Symbols.tab ++ "00000004 gCamera";
   "00000000 l    d  .data" ++ Symbols.tab ++ "00000000 .data"].

Definition sample_run (argv : list string) : result string :=
  match argv with
  | [_; flag; _] =>
      if bool_decide (flag = "-t") then Ok (join newline sample_table)
      else Ok (join newline Reloc.sample_dump)
  | [_; _; _; range] =>
      Ok (if bool_decide (range = "0x80200000:0x808+0x4") then "lui   $at, 0x8034"
          else "addiu $a0, $at, 0x20")
  | _ => Raise (Exception "no such tool")
  end.

Definition sample_tools : Toolchain :=
  {| run_stdout := sample_run; is_file := fun _ => false;
     read_text := fun _ => Ok (join newline MapReader.sample_map) |}.

(** The whole of order_data.py on the sample toolchain: [foo.o] keyed
    by the address 0x80340020 of its one data symbol. *)
Example order_data_sample :
  @order_data_main sample_tools "sm64" (Some "tools") =
  Ok [(path_div (path_of "sm64") "build/eu/src/game/foo.o", 0x80340020%Z)].
Proof. vm_compute. reflexivity. Qed.

Lemma order_data_report_witness :
  Sorted (fun a b => (snd a <= snd b)%Z) [(path_div (path_of "sm64") "build/eu/src/game/foo.o", 0x80340020%Z)] /\
  NoDup (map fst [(path_div (path_of "sm64") "build/eu/src/game/foo.o", 0x80340020%Z)]) /\
  Forall (fun kv => snd kv <> (-1)%Z) [(path_div (path_of "sm64") "build/eu/src/game/foo.o", 0x80340020%Z)].
Proof. apply (@order_data_report sample_tools "sm64" (Some "tools")). vm_compute. reflexivity. Defined.
End OrderData.
