(* ===== verification/Regex.v ===== *)
(** * Python's [re.match] on the patterns of the scripts

    Three functions parse a line with [re.match]: [replace_function] and
    [get_next_nonmatching] in add_nonmatching.py, [ezcopy] in
    text_extract.py (the patterns are written out as item lists where
    they are modelled, since a comment cannot hold them verbatim).
    They use literal characters (escaped or not), [.],
    the greedy [.*] and capturing groups that do not nest.  [item] is
    that fragment; a pattern is a list of items.

    [mtch] is the backtracking matcher of CPython's [sre] restricted to
    the fragment: items are matched left to right, [.] and [.*] never
    consume a newline (no [DOTALL]), [.*] first takes every character up
    to the next newline and gives them back one at a time ([star_try]),
    and the match is anchored at the start only ([re.match], not
    [fullmatch]).  A successful match returns the remainder of the input
    at each group boundary; [groups] turns them into [m.group(1)],
    [m.group(2)], ...

    [mrun] is the declarative semantics (which strings the pattern
    matches, with which group boundaries).  The theorems: the matcher is
    sound and complete for it ([mtch_sound], [mtch_complete]), and [.*]
    is greedy: the match found consumes the longest run after which the
    rest of the pattern matches ([star_try_greedy]).  Together they fix
    the result of [re.match] on this fragment. *)

From Stdlib Require Import String Ascii Lia.
From S2P Require Import Prelude PyStr.

Local Open Scope string_scope.

Module Regex.

Inductive item :=
| Lit (c : ascii)   (* a literal character, also an escaped one: \( \[ \{ *)
| Dot               (* . : any character but a newline *)
| DotStar           (* .* *)
| Open              (* ( : start of a capturing group *)
| Close.            (* ) : its end *)

#[export] Instance item_eq_dec : EqDecision item.
Proof. solve_decision. Defined.

Definition nl : ascii := "010".

(** The strings [.] and [.*] may consume: no newline. *)
Fixpoint no_nl (s : string) : bool :=
  match s with
  | "" => true
  | String c s' => negb (bool_decide (c = nl)) && no_nl s'
  end.

(** [.*] followed by [k]: take every character up to the first newline,
    then give them back one by one until [k] succeeds. *)
Fixpoint star_try {B} (k : string -> option B) (r : string) : option B :=
  match r with
  | "" => k ""
  | String c r' =>
      if bool_decide (c = nl) then k r
      else match star_try k r' with
           | Some b => Some b
           | None => k r
           end
  end.

(** The matcher: [Some marks] gives the remainder of the input at each
    group boundary, in pattern order. *)
Fixpoint mtch (p : list item) (r : string) : option (list string) :=
  match p with
  | [] => Some []
  | Lit c :: p' =>
      match r with
      | String d r' => if bool_decide (c = d) then mtch p' r' else None
      | "" => None
      end
  | Dot :: p' =>
      match r with
      | String d r' => if bool_decide (d = nl) then None else mtch p' r'
      | "" => None
      end
  | DotStar :: p' => star_try (mtch p') r
  | Open :: p' => cons r <$> mtch p' r
  | Close :: p' => cons r <$> mtch p' r
  end.

(** [m.group(1)], [m.group(2)], ... from the group boundaries of
    non-nested groups. *)
Fixpoint groups (marks : list string) : list string :=
  match marks with
  | o :: c :: ms => substring 0 (String.length o - String.length c) o :: groups ms
  | _ => []
  end.

(** [re.match(pattern, s)]: [None] for no match, otherwise the groups. *)
Definition re_match (p : list item) (s : string) : option (list string) :=
  groups <$> mtch p s.

(** A literal part of a pattern. *)
Definition lits (s : string) : list item := map Lit (list_ascii_of_string s).

(** ** Declarative semantics: [mrun p r rest marks] when [p] matches a
    prefix of [r], leaving [rest], with group boundaries [marks]. *)
Inductive mrun : list item -> string -> string -> list string -> Prop :=
| mr_nil r : mrun [] r r []
| mr_lit c p r rest m : mrun p r rest m -> mrun (Lit c :: p) (String c r) rest m
| mr_dot c p r rest m : c <> nl -> mrun p r rest m -> mrun (Dot :: p) (String c r) rest m
| mr_star u p r rest m : no_nl u = true -> mrun p r rest m -> mrun (DotStar :: p) (u ++ r) rest m
| mr_open p r rest m : mrun p r rest m -> mrun (Open :: p) r rest (r :: m)
| mr_close p r rest m : mrun p r rest m -> mrun (Close :: p) r rest (r :: m).

(** ** The matcher against the semantics *)

Lemma star_try_None {B} (k : string -> option B) r :
  star_try k r = None <-> forall u r2, r = (u ++ r2)%string -> no_nl u = true -> k r2 = None.
Proof.
  revert k; induction r as [|c r IH]; intros k; simpl.
  - split; [|intros H; by apply (H "")]. intros Hk [|??] r2; simpl; [by intros <-|done].
  - case_bool_decide as Hc.
    + split; [|intros H; by apply (H "")].
      intros Hk [|d u] r2; simpl; [by intros <-|]. intros [= <- _]. by case_bool_decide.
    + destruct (star_try k r) eqn:E.
      { split; [done|]. intros H. exfalso.
        enough (star_try k r = None) by congruence. apply IH.
        intros u r2 -> Hu. apply (H (String c u)); simpl; [done|].
        by rewrite bool_decide_eq_false_2, Hu. }
      split.
      * intros Hk [|d u] r2; simpl; [by intros <-|]. intros [= <- ->] Hu.
        apply andb_prop in Hu as [_ Hu]. by apply (proj1 (IH k) E u).
      * intros H. by apply (H "").
Qed.

(** [.*] is greedy: the remainder handed to the rest of the pattern is
    the one after the longest run for which the rest succeeds. *)
Lemma star_try_greedy {B} (k : string -> option B) r b :
  star_try k r = Some b ->
  exists u r2, r = (u ++ r2)%string /\ no_nl u = true /\ k r2 = Some b /\
    forall u' r', r = (u' ++ r')%string -> no_nl u' = true ->
      String.length u < String.length u' -> k r' = None.
Proof.
  revert k b; induction r as [|c r IH]; intros k b; simpl.
  - intros Hk. exists "", "". split_and!; [done|done|done|].
    intros [|??] ?; simpl; [lia|done].
  - case_bool_decide as Hc.
    + intros Hk. exists "", (String c r). split_and!; [done|done|done|].
      intros [|d u'] r'; simpl; [lia|]. intros [= <- _]. by case_bool_decide.
    + destruct (star_try k r) eqn:E.
      * intros [= <-]. destruct (IH _ _ E) as (u & r2 & -> & Hu & Hk & Hmax).
        exists (String c u), r2. simpl. rewrite bool_decide_eq_false_2 by done.
        split_and!; [done|done|done|].
        intros [|d u'] r'; simpl; [lia|]. intros [= <- Heq] Hu'.
        apply andb_prop in Hu' as [_ Hu']. intros ?. apply (Hmax u' r'); [done|done|lia].
      * intros Hk. exists "", (String c r). split_and!; [done|done|done|].
        intros [|d u'] r'; simpl; [lia|]. intros [= <- Heq] Hu' _.
        apply andb_prop in Hu' as [_ Hu']. by apply (proj1 (star_try_None k r) E u').
Qed.

Lemma mtch_sound p r m : mtch p r = Some m -> exists rest, mrun p r rest m.
Proof.
  revert r m; induction p as [|[c| | | |] p IH]; intros r m H; cbn [mtch] in H.
  - injection H as <-. eexists; constructor.
  - destruct r as [|d r]; [done|]. case_bool_decide; [subst|done].
    destruct (IH _ _ H). eexists; by constructor.
  - destruct r as [|d r]; [done|]. case_bool_decide; [done|].
    destruct (IH _ _ H). eexists; by constructor.
  - apply star_try_greedy in H as (u & r2 & -> & Hu & Hk & _).
    destruct (IH _ _ Hk). eexists; by constructor.
  - destruct (mtch p r) eqn:E; simpl in H; [|done]. injection H as <-.
    destruct (IH _ _ E). eexists; by constructor.
  - destruct (mtch p r) eqn:E; simpl in H; [|done]. injection H as <-.
    destruct (IH _ _ E). eexists; by constructor.
Qed.

Lemma mtch_complete p r rest m : mrun p r rest m -> exists m', mtch p r = Some m'.
Proof.
  induction 1 as [r|c p r rest m _ IH|c p r rest m Hc _ IH|u p r rest m Hu _ IH
                 |p r rest m _ IH|p r rest m _ IH]; cbn [mtch].
  - eauto.
  - by rewrite bool_decide_eq_true_2.
  - by rewrite bool_decide_eq_false_2.
  - destruct (star_try (mtch p) (u ++ r)) eqn:E; [eauto|].
    destruct IH as [m' Hm']. by rewrite (proj1 (star_try_None _ _) E u r) in Hm'.
  - destruct IH as [m' ->]. eauto.
  - destruct IH as [m' ->]. eauto.
Qed.

(** ** Composing patterns *)

Lemma mrun_app p q r rest m :
  mrun (p ++ q)%list r rest m <->
  exists r2 m1 m2, mrun p r r2 m1 /\ mrun q r2 rest m2 /\ m = (m1 ++ m2)%list.
Proof.
  revert r m; induction p as [|i p IH]; intros r m; simpl.
  - split; [intros H; exists r, [], m; split_and!; [constructor|done|done]|].
    intros (r2 & m1 & m2 & H1 & H2 & ->). by inversion H1; subst.
  - split.
    + intros H; inversion H; subst;
        match goal with Hp : mrun _ _ _ _ |- _ =>
          apply IH in Hp as (?r2 & ?m1 & ?m2 & ? & ? & ->) end;
        do 3 eexists; (split; [by constructor|]); (split; [done|]); done.
    + intros (r2 & m1 & m2 & H1 & H2 & ->).
      inversion H1; subst; simpl; constructor; try done; apply IH; eauto 10.
Qed.

Lemma mrun_lits s p r rest m :
  mrun (lits s ++ p)%list r rest m <-> exists r', r = (s ++ r')%string /\ mrun p r' rest m.
Proof.
  revert r; induction s as [|c s IH]; intros r; simpl; [naive_solver|].
  split.
  - intros H. inversion H; subst. apply IH in H5 as (r' & -> & Hr). eauto.
  - intros (r' & -> & Hr). constructor. apply IH. eauto.
Qed.

Lemma mrun_nil r rest m : mrun [] r rest m <-> rest = r /\ m = [].
Proof. split; [by inversion 1|]. intros [-> ->]. constructor. Qed.

Lemma mrun_star p r rest m :
  mrun (DotStar :: p) r rest m <->
  exists u r', r = (u ++ r')%string /\ no_nl u = true /\ mrun p r' rest m.
Proof. split; [inversion 1; subst; eauto|]. intros (u & r' & -> & ? & ?). by constructor. Qed.

Lemma mrun_dot p r rest m :
  mrun (Dot :: p) r rest m <-> exists c r', r = String c r' /\ c <> nl /\ mrun p r' rest m.
Proof. split; [inversion 1; subst; eauto|]. intros (c & r' & -> & ? & ?). by constructor. Qed.

Lemma mrun_group p r rest m :
  mrun (Open :: p) r rest m <-> exists m', m = r :: m' /\ mrun p r rest m'.
Proof. split; [inversion 1; subst; eauto|]. intros (m' & -> & ?). by constructor. Qed.

Lemma mrun_close p r rest m :
  mrun (Close :: p) r rest m <-> exists m', m = r :: m' /\ mrun p r rest m'.
Proof. split; [inversion 1; subst; eauto|]. intros (m' & -> & ?). by constructor. Qed.

Lemma substring_prefix w r : substring 0 (String.length w) (w ++ r) = w.
Proof. induction w as [|c w IH]; simpl; [by destruct r|by rewrite IH]. Qed.

Lemma groups_cons w r ms : groups ((w ++ r)%string :: r :: ms) = w :: groups ms.
Proof.
  simpl. rewrite slength_app, Nat.add_sub, substring_prefix. done.
Qed.

(** When the matcher succeeds and every match of the pattern has the same
    groups, those are the groups [re.match] returns. *)
Lemma re_match_unique p s gs :
  (exists rest m, mrun p s rest m) ->
  (forall rest m, mrun p s rest m -> groups m = gs) ->
  re_match p s = Some gs.
Proof.
  intros [rest [m Hm]] Hall. destruct (mtch_complete _ _ _ _ Hm) as [m' Hm'].
  unfold re_match. rewrite Hm'. simpl. f_equal.
  destruct (mtch_sound _ _ _ Hm') as [rest' Hr]. by apply (Hall rest').
Qed.

Lemma re_match_sound p s gs :
  re_match p s = Some gs -> exists rest m, mrun p s rest m /\ gs = groups m.
Proof.
  unfold re_match. destruct (mtch p s) as [m|] eqn:E; simpl; [|done].
  intros [= <-]. destruct (mtch_sound _ _ _ E) as [rest Hr]. eauto.
Qed.

Lemma re_match_None p s : re_match p s = None -> forall rest m, ~ mrun p s rest m.
Proof.
  unfold re_match. intros H rest m Hm. destruct (mtch_complete _ _ _ _ Hm) as [m' Hm'].
  by rewrite Hm' in H.
Qed.


Lemma no_nl_app s t : no_nl (s ++ t) = no_nl s && no_nl t.
Proof. induction s as [|c s IH]; simpl; [done|]. by rewrite IH, andb_assoc. Qed.

Lemma mrun_lits_end s r rest m : mrun (lits s) r rest m <-> r = (s ++ rest)%string /\ m = [].
Proof.
  rewrite <-(app_nil_r (lits s)), mrun_lits. setoid_rewrite mrun_nil. naive_solver.
Qed.

End Regex.
