(* ===== verification/PyIO.v ===== *)
(** * The effects of the interactive scripts

    add_nonmatching.py, unused_asm.py, behaviors_headers.py and
    text_extract.py read and write files, change directory, read the environment, ask the operator
    and run programs whose effects depend on the file system.  Their
    model runs in [io], a state monad over a [world] in which Python
    exceptions propagate as [Raise] while the effects already performed
    stay done (a file written before an exception keeps its contents).

    - [w_files]: the file system, as a map from absolute paths (lists of
      components) to contents.  A directory exists when it is the root
      or holds a file; empty directories are not modelled.
    - [w_cwd]: the working directory; relative paths are resolved
      against it as the kernel does ([resolve]: ["."] and empty
      components dropped, [".."] goes up; no symbolic links).
    - [w_env]: [os.environ].
    - [w_stdin]: the lines the operator will type, in order.
    - [w_trace]: what the script did, in order: text printed, files
      written, renamed or deleted, programs started.  Theorems about
      what a script writes are stated on the trace.

    A program is an oracle ([Shell]): given the working directory, the
    argument vector and the file system it returns the exit status, the
    captured standard output and error, and the file system afterwards;
    [None] is a program that is not on [PATH].  A program named by a
    path (one with a ["/"]) must be a file, or [subprocess.run] raises
    [FileNotFoundError] before anything runs.  Output is taken as
    already decoded text; [decode("utf-8")] failures are not modelled,
    nor are line-ending translations (files use ["\n"]). *)

From Stdlib Require Import ZArith String Ascii.
From Stdlib Require Init.Byte.
From stdpp Require Import gmap.
From S2P Require Import Prelude PyStr.

Local Open Scope string_scope.

(** What the script did, in order. *)
Inductive event :=
| EOut (s : string)                        (* text on standard output *)
| EOutBytes (b : string)                   (* print(b) of a bytes object *)
| EWrite (p : list string) (text : string) (* open(p, "w") / write_text: contents set *)
| EAppend (p : list string) (text : string)(* f.write(text) on an open file *)
| ERename (src dst : list string)          (* Path.replace *)
| EUnlink (p : list string)                (* Path.unlink *)
| ERun (argv : list string).               (* a program started *)

Record world := mkworld {
  w_files : gmap (list string) string;
  w_cwd : list string;
  w_env : gmap string string;
  w_stdin : list string;
  w_trace : list event;
}.

(** The result of [subprocess.run]. *)
Record proc := mkproc { returncode : Z; stdout : string; stderr : string }.

Class Shell := {
  sh_exec : list string -> list string -> gmap (list string) string ->
            option (proc * gmap (list string) string)
}.

Definition io (A : Type) : Type := world -> result A * world.

#[export] Instance io_ret : MRet io := fun A a w => (Ok a, w).
#[export] Instance io_bind : MBind io := fun A B k m w =>
  match m w with
  | (Ok a, w') => k a w'
  | (Raise e, w') => (Raise e, w')
  end.

Definition raise {A} (e : PyExc) : io A := fun w => (Raise e, w).

(** ** Paths *)

Fixpoint norm (acc : list string) (parts : list string) : list string :=
  match parts with
  | [] => acc
  | x :: xs =>
      if bool_decide (x = "" \/ x = ".") then norm acc xs
      else if bool_decide (x = "..") then norm (tail acc) xs
      else norm (x :: acc) xs
  end.

(** The absolute path the kernel opens for [s] in directory [cwd]. *)
Definition resolve (cwd : list string) (s : string) : list string :=
  rev (norm (if startswith s "/" then [] else rev cwd) (split "/" s)).

Definition is_file (w : world) (p : list string) : bool :=
  bool_decide (is_Some (w_files w !! p)).

Definition is_dir (w : world) (d : list string) : bool :=
  bool_decide (d = []) ||
  existsb (fun p => bool_decide (d `prefix_of` p /\ length d < length p))
          (map fst (map_to_list (w_files w))).

(** ** World updates *)

Definition log (e : event) (w : world) : world :=
  mkworld (w_files w) (w_cwd w) (w_env w) (w_stdin w) (w_trace w ++ [e]).
Definition set_files (fs : gmap (list string) string) (w : world) : world :=
  mkworld fs (w_cwd w) (w_env w) (w_stdin w) (w_trace w).
Definition set_cwd (d : list string) (w : world) : world :=
  mkworld (w_files w) d (w_env w) (w_stdin w) (w_trace w).
Definition set_stdin (l : list string) (w : world) : world :=
  mkworld (w_files w) (w_cwd w) (w_env w) l (w_trace w).

Definition not_found {A} : io A := raise (OSError "FileNotFoundError").

(** ** Primitives *)

(** [print(s, end=e)] *)
Definition print_end (s e : string) : io unit := fun w => (Ok tt, log (EOut (s ++ e)) w).
(** [print(s)] *)
Definition print (s : string) : io unit := print_end s newline.

(** [print(b)] of a bytes object (its [repr] is printed). *)
Definition print_bytes (b : string) : io unit := fun w => (Ok tt, log (EOutBytes b) w).

(** [input(prompt)]: the prompt is written, then a line is read. *)
Definition input (prompt : string) : io string := fun w =>
  let w := log (EOut prompt) w in
  match w_stdin w with
  | [] => (Raise EOFError, w)
  | l :: ls => (Ok l, set_stdin ls w)
  end.

(** [os.environ.get(k)] *)
Definition getenv (k : string) : io (option string) := fun w => (Ok (w_env w !! k), w).

(** [os.chdir(s)] *)
Definition chdir (s : string) : io unit := fun w =>
  let d := resolve (w_cwd w) s in
  if is_dir w d then (Ok tt, set_cwd d w) else not_found w.

(** [Path(s).read_text()] *)
Definition read_text (s : string) : io string := fun w =>
  match w_files w !! resolve (w_cwd w) s with
  | Some t => (Ok t, w)
  | None => not_found w
  end.

(** [Path(s).read_bytes()]: the raw contents. *)
Definition read_bytes (s : string) : io (list Init.Byte.byte) := fun w =>
  match w_files w !! resolve (w_cwd w) s with
  | Some t => (Ok (list_byte_of_string t), w)
  | None => not_found w
  end.

(** [open(s, "w")] and [Path(s).write_text(t)]: the directory must exist. *)
Definition write_text (s t : string) : io unit := fun w =>
  let p := resolve (w_cwd w) s in
  if is_dir w (removelast p) && bool_decide (p <> [])
  then (Ok tt, log (EWrite p t) (set_files (<[p := t]> (w_files w)) w))
  else not_found w.

(** [f.write(t)] on a file opened by [write_text]. *)
Definition append_text (s t : string) : io unit := fun w =>
  let p := resolve (w_cwd w) s in
  (Ok tt, log (EAppend p t) (set_files (<[p := default "" (w_files w !! p) ++ t]> (w_files w)) w)).

(** [subprocess.run(argv, stdout=PIPE, stderr=PIPE)] *)
Definition run `{Shell} (argv : list string) : io proc := fun w =>
  match argv with
  | [] => (Raise IndexError, w)
  | prog :: _ =>
      if contains prog "/" && negb (is_file w (resolve (w_cwd w) prog)) then not_found w
      else match sh_exec (w_cwd w) argv (w_files w) with
           | None => not_found w
           | Some (pr, fs) => (Ok pr, log (ERun argv) (set_files fs w))
           end
  end.

(** The names of the entries of directory [d]: the components that follow
    [d] in the paths of the file system, each once, in the map's order
    (the order of [os.scandir] is unspecified). *)
Definition entries (fs : gmap (list string) string) (d : list string) : list string :=
  remove_dups (omap (fun p => if bool_decide (d `prefix_of` p) then p !! length d else None)
                    (map fst (map_to_list fs))).

(** [Path(s).iterdir()]: the entry names of an existing directory. *)
Definition iterdir (s : string) : io (list string) := fun w =>
  let d := resolve (w_cwd w) s in
  if is_dir w d then (Ok (entries (w_files w) d), w) else not_found w.

(** [Path(s).rglob("*" + suffix)]: the files below [s] whose name ends
    with [suffix], as paths relative to [s], in the map's order; nothing
    when [s] does not exist. *)
Definition rglob (s suffix : string) : io (list (list string)) := fun w =>
  let d := resolve (w_cwd w) s in
  (Ok (omap (fun p => if bool_decide (d `prefix_of` p /\ length d < length p) &&
                         endswith (default "" (list.last p)) suffix
                      then Some (drop (length d) p) else None)
            (map fst (map_to_list (w_files w)))), w).

(** [Path(s).replace(t)]: the file moves; the target directory must exist. *)
Definition replace_path (s t : string) : io unit := fun w =>
  let p := resolve (w_cwd w) s in
  let q := resolve (w_cwd w) t in
  match w_files w !! p with
  | Some x =>
      if is_dir w (removelast q) && bool_decide (q <> [])
      then (Ok tt, log (ERename p q) (set_files (<[q := x]> (delete p (w_files w))) w))
      else not_found w
  | None => not_found w
  end.

(** [Path(s).unlink()] *)
Definition unlink (s : string) : io unit := fun w =>
  let p := resolve (w_cwd w) s in
  match w_files w !! p with
  | Some _ => (Ok tt, log (EUnlink p) (set_files (delete p (w_files w)) w))
  | None => not_found w
  end.

(** A value or exception of the pure model, in [io]. *)
Definition io_of_result {A} (r : result A) : io A := fun w => (r, w).

(** A list comprehension whose body has effects: left to right, stopping
    at the first exception. *)
Fixpoint io_mapM {A B} (f : A -> io B) (l : list A) : io (list B) :=
  match l with
  | [] => mret []
  | x :: l' => y ← f x; ys ← io_mapM f l'; mret (y :: ys)
  end.

(** The paths written, appended to, renamed or deleted in a trace. *)
Definition written (t : list event) : list (list string) :=
  flat_map (fun e => match e with
                     | EWrite p _ | EAppend p _ | EUnlink p => [p]
                     | ERename p q => [p; q]
                     | _ => []
                     end) t.


(** ** Which files an action may write

    [writes_only P m]: whatever the world, [m] only appends to the trace
    and every path it writes satisfies [P].  The lemmas below make this a
    discipline on programs: primitives that write nothing satisfy it for
    every [P], writes satisfy it when [P] holds of the resolved path, and
    it is closed under [mret] and bind. *)
Definition writes_only {A} (P : list string -> Prop) (m : io A) : Prop :=
  forall w, exists t, w_trace (m w).2 = (w_trace w ++ t)%list /\ Forall P (written t).

(** The world after [es] is appended to the trace, and the events of
    printing each line of [ls] with [print]. *)
Definition log_all (es : list event) (w : world) : world :=
  mkworld (w_files w) (w_cwd w) (w_env w) (w_stdin w) (w_trace w ++ es).
Definition lines_out (ls : list string) : list event := map (fun s => EOut (s ++ newline)) ls.

(** ** Reasoning about [io] *)

Lemma io_bind_ok {A B} (m : io A) (k : A -> io B) w a w' :
  m w = (Ok a, w') -> (x ← m; k x) w = k a w'.
Proof. intros H. unfold mbind, io_bind. by rewrite H. Qed.

Lemma io_bind_raise {A B} (m : io A) (k : A -> io B) w e w' :
  m w = (Raise e, w') -> (x ← m; k x) w = (Raise e, w').
Proof. intros H. unfold mbind, io_bind. by rewrite H. Qed.

Lemma io_ret_run {A} (a : A) w : (mret a : io A) w = (Ok a, w).
Proof. done. Qed.

Lemma input_run p w l ls :
  w_stdin w = l :: ls ->
  input p w = (Ok l, mkworld (w_files w) (w_cwd w) (w_env w) ls (w_trace w ++ [EOut p])).
Proof. intros H. unfold input. simpl. by rewrite H. Qed.

Lemma input_eof p w :
  w_stdin w = [] ->
  input p w = (Raise EOFError, mkworld (w_files w) (w_cwd w) (w_env w) [] (w_trace w ++ [EOut p])).
Proof. intros H. unfold input. simpl. rewrite H. by destruct w; simpl in *; subst. Qed.

Lemma io_bind_assoc {A B C} (m : io A) (f : A -> io B) (g : B -> io C) w :
  (x ← (y ← m; f y); g x) w = (y ← m; x ← f y; g x) w.
Proof. unfold mbind, io_bind. by destruct (m w) as [[a|e] w']. Qed.

Lemma print_run s w : print s w = (Ok tt, log (EOut (s ++ newline)) w).
Proof. done. Qed.

Lemma log_all_nil w : log_all [] w = w.
Proof. destruct w; unfold log_all; simpl. by rewrite app_nil_r. Qed.
Lemma log_all_log e es w : log_all es (log e w) = log_all (e :: es) w.
Proof. unfold log_all, log; simpl. by rewrite <-app_assoc. Qed.
Lemma log_all_app es1 es2 w : log_all es2 (log_all es1 w) = log_all (es1 ++ es2) w.
Proof. unfold log_all; simpl. by rewrite <-app_assoc. Qed.
Lemma log_log_all e es w : log e (log_all es w) = log_all (es ++ [e]) w.
Proof. unfold log_all, log; simpl. by rewrite <-app_assoc. Qed.

Lemma print_log_all s w : print s w = (Ok tt, log_all (lines_out [s]) w).
Proof. rewrite print_run. change (lines_out [s]) with [EOut (s ++ newline)]. by rewrite <-log_all_log, log_all_nil. Qed.

(** Reading an existing file, and writing over one. *)
Lemma read_text_run s w t :
  w_files w !! resolve (w_cwd w) s = Some t -> read_text s w = (Ok t, w).
Proof. intros Ht. unfold read_text. by rewrite Ht. Qed.

Lemma is_dir_parent w p t : w_files w !! p = Some t -> p <> [] -> is_dir w (removelast p) = true.
Proof.
  intros Hp Hne. unfold is_dir. apply orb_true_iff. right. apply existsb_exists.
  exists p. split.
  - apply in_map_iff. exists (p, t). split; [done|]. apply list_elem_of_In, elem_of_map_to_list, Hp.
  - apply bool_decide_eq_true. split.
    + destruct p as [|x p] using rev_ind; [done|]. rewrite removelast_last. by exists [x].
    + destruct p as [|x p] using rev_ind; [done|]. rewrite removelast_last, length_app. simpl. lia.
Qed.

Lemma write_text_run s t w u :
  w_files w !! resolve (w_cwd w) s = Some u -> resolve (w_cwd w) s <> [] ->
  write_text s t w =
    (Ok tt, log (EWrite (resolve (w_cwd w) s) t) (set_files (<[resolve (w_cwd w) s := t]> (w_files w)) w)).
Proof.
  intros Hu Hne. unfold write_text. rewrite (is_dir_parent _ _ _ Hu Hne).
  by rewrite bool_decide_eq_true_2.
Qed.

Lemma written_replicate_out n s : written (replicate n (EOut s)) = [].
Proof. induction n; [done|]. exact IHn. Qed.

Lemma append_run s t w :
  append_text s t w =
    (Ok tt, log (EAppend (resolve (w_cwd w) s) t)
              (set_files (<[resolve (w_cwd w) s := default "" (w_files w !! resolve (w_cwd w) s) ++ t]> (w_files w)) w)).
Proof. done. Qed.

Lemma written_app t1 t2 : written (t1 ++ t2)%list = (written t1 ++ written t2)%list.
Proof. apply flat_map_app. Qed.

Section WritesOnly.
Context (P : list string -> Prop).

Lemma wo_ret {A} (a : A) : writes_only P (mret a).
Proof. intros w. exists []. by rewrite app_nil_r. Qed.

Lemma wo_raise {A} e : writes_only P (raise (A := A) e).
Proof. intros w. exists []. by rewrite app_nil_r. Qed.

Lemma wo_bind {A B} (m : io A) (k : A -> io B) :
  writes_only P m -> (forall a, writes_only P (k a)) -> writes_only P (x ← m; k x).
Proof.
  intros Hm Hk w. unfold mbind, io_bind. destruct (Hm w) as (t1 & Ht1 & Hw1).
  destruct (m w) as [[a|e] w'] eqn:E; simpl in *.
  - destruct (Hk a w') as (t2 & Ht2 & Hw2). exists (t1 ++ t2)%list.
    rewrite Ht2, Ht1, app_assoc, written_app. split; [done|]. by apply Forall_app.
  - by exists t1.
Qed.

Lemma wo_log_silent e w w' :
  w_trace w' = w_trace w -> written [e] = [] ->
  exists t, w_trace (log e w') = (w_trace w ++ t)%list /\ Forall P (written t).
Proof. intros Hw H. exists [e]. split; [unfold log; cbn [w_trace]; by rewrite Hw|]. rewrite H. constructor. Qed.

Lemma wo_print_end s e : writes_only P (print_end s e).
Proof. intros w. by apply (wo_log_silent _ w). Qed.

Lemma wo_print s : writes_only P (print s).
Proof. apply wo_print_end. Qed.

Lemma wo_print_bytes b : writes_only P (print_bytes b).
Proof. intros w. by apply (wo_log_silent _ w). Qed.

Lemma wo_input p : writes_only P (input p).
Proof. intros w. unfold input. destruct (w_stdin _); simpl; by apply (wo_log_silent _ w). Qed.

Lemma wo_read_bytes s : writes_only P (read_bytes s).
Proof. intros w. unfold read_bytes. exists []. rewrite app_nil_r. by destruct (_ !! _). Qed.

Lemma wo_of_result {A} (r : result A) : writes_only P (io_of_result r).
Proof. intros w. exists []. by rewrite app_nil_r. Qed.

Lemma wo_getenv k : writes_only P (getenv k).
Proof. intros w. exists []. by rewrite app_nil_r. Qed.

Lemma wo_chdir s : writes_only P (chdir s).
Proof. intros w. unfold chdir. exists []. rewrite app_nil_r. by destruct (is_dir _ _). Qed.

Lemma wo_read_text s : writes_only P (read_text s).
Proof. intros w. unfold read_text. exists []. rewrite app_nil_r. by destruct (_ !! _). Qed.

Lemma wo_run `{Shell} argv : writes_only P (run argv).
Proof.
  intros w. unfold run. destruct argv as [|prog ?]; [exists []; by rewrite app_nil_r|].
  destruct (_ && _); [exists []; by rewrite app_nil_r|].
  destruct (sh_exec _ _ _) as [[pr fs]|]; [|exists []; by rewrite app_nil_r].
  by apply (wo_log_silent _ w).
Qed.

Lemma wo_write_text s t : (forall cwd, P (resolve cwd s)) -> writes_only P (write_text s t).
Proof.
  intros HP w. unfold write_text. destruct (_ && _); [|exists []; by rewrite app_nil_r].
  exists [EWrite (resolve (w_cwd w) s) t]. simpl. split; [done|]. repeat constructor. apply HP.
Qed.

Lemma wo_append_text s t : (forall cwd, P (resolve cwd s)) -> writes_only P (append_text s t).
Proof. intros HP w. exists [EAppend (resolve (w_cwd w) s) t]. simpl. split; [done|]. repeat constructor. apply HP. Qed.

Lemma wo_iterdir s : writes_only P (iterdir s).
Proof. intros w. unfold iterdir. exists []. rewrite app_nil_r. by destruct (is_dir _ _). Qed.

Lemma wo_rglob s suf : writes_only P (rglob s suf).
Proof. intros w. exists []. by rewrite app_nil_r. Qed.

Lemma wo_replace_path s t :
  (forall cwd, P (resolve cwd s)) -> (forall cwd, P (resolve cwd t)) -> writes_only P (replace_path s t).
Proof.
  intros Hs Ht w. unfold replace_path. destruct (_ !! _); [|exists []; by rewrite app_nil_r].
  destruct (_ && _); [|exists []; by rewrite app_nil_r].
  eexists. split; [done|]. simpl. repeat constructor; auto.
Qed.

Lemma wo_unlink s : (forall cwd, P (resolve cwd s)) -> writes_only P (unlink s).
Proof.
  intros Hs w. unfold unlink. destruct (_ !! _); [|exists []; by rewrite app_nil_r].
  eexists. split; [done|]. simpl. repeat constructor; auto.
Qed.

End WritesOnly.

Create HintDb io_writes discriminated.
#[export] Hint Resolve wo_ret wo_raise wo_print_end wo_print wo_print_bytes wo_input
  wo_getenv wo_chdir wo_read_text wo_read_bytes wo_run wo_of_result wo_iterdir wo_rglob : io_writes.

(** [writes_only] through binds, conditionals and pattern bindings. *)
Ltac solve_writes :=
  repeat match goal with
  | |- writes_only _ (mbind _ _) => apply wo_bind; [|intros ?]
  | |- writes_only _ (match ?x with _ => _ end) => destruct x eqn:?
  | |- writes_only _ (if ?b then _ else _) => destruct b eqn:?
  | |- writes_only _ (write_text _ _) => apply wo_write_text
  | |- writes_only _ (append_text _ _) => apply wo_append_text
  | |- writes_only _ (replace_path _ _) => apply wo_replace_path
  | |- writes_only _ (unlink _) => apply wo_unlink
  | |- writes_only _ _ => solve [eauto with io_writes]
  end.

Lemma writes_nothing_trace {A} (m : io A) w :
  writes_only (fun _ => False) m -> exists t, w_trace (m w).2 = (w_trace w ++ t)%list /\ written t = [].
Proof.
  intros H. destruct (H w) as (t & Ht & Hw). exists t. split; [done|].
  destruct (written t) as [|p ?]; [done|]. by inversion Hw.
Qed.

(** ** Resolving a path whose last component is a plain name *)

Lemma contains_app_char a b c :
  contains (a ++ b) (String c "") = contains a (String c "") || contains b (String c "").
Proof.
  induction a as [|d a IH]; [done|].
  change (startswith (String d (a ++ b)) (String c "") || contains (a ++ b) (String c "") =
          (startswith (String d a) (String c "") || contains a (String c "")) || contains b (String c "")).
  rewrite IH. cbn [startswith]. rewrite !startswith_nil_r. by rewrite orb_assoc.
Qed.

Lemma norm_app acc xs ys : norm acc (xs ++ ys) = norm (norm acc xs) ys.
Proof. revert acc; induction xs as [|x xs IH]; intros acc; simpl; [done|]. case_bool_decide; [apply IH|]. case_bool_decide; apply IH. Qed.

Lemma resolve_last cwd dir name :
  contains name "/" = false -> name <> "" -> name <> "." -> name <> ".." ->
  list.last (resolve cwd (dir ++ "/" ++ name)) = Some name.
Proof.
  intros Hs H1 H2 H3. unfold resolve. change (dir ++ "/" ++ name)%string with (dir ++ String "/" name)%string. rewrite (split_char_app "/"), (split_nocontains "/" name) by done.
  rewrite norm_app. simpl. rewrite !bool_decide_eq_false_2 by naive_solver.
  simpl. apply last_snoc.
Qed.
