(* ===== verification/AddNonmatching.v ===== *)
(** * add_nonmatching.py: the interactive patch-and-build driver

    [main] asks [first-diff.py] for the first function whose code differs
    from the original ROM, disassembles it from the ROM into
    [asm/non_matchings/<function>_eu.s] ([write_asm]), wraps the C
    definition of the function in an [#if defined(VERSION_EU)] block that
    includes that assembly instead ([replace_function]), rebuilds
    ([make]) and runs [first-diff.py] again.  The operator confirms each
    step ([prompt]).  Everything runs in the [io] monad of [PyIO.v].

    Modelling choices: the function name is a C identifier, so the
    f-string pattern of line 25 is [sig_pattern] with the name as
    literal characters; [random.randint(0, 99)] is the
    argument [seed] of [write_asm] and [main]; [argparse] (lines 163-170)
    is not modelled, [main] takes the parsed arguments. *)

From Stdlib Require Import ZArith String Ascii Lia.
From stdpp Require Import gmap.
From S2P Require Import Prelude PyStr PyInt Toolchain Regex PyIO.

Local Open Scope string_scope.

Module AddNonmatching.
Import Regex.

(** A double quote character. *)
Definition dq : string := String "034" "".

(** ** [replace_function] (lines 13-33) *)

(** The pattern of line 25: group, [.*], the name, [.*], end of group,
    then a space and an opening brace. *)
Definition sig_pattern (f : string) : list item :=
  [Open; DotStar] ++ lits f ++ [DotStar; Close] ++ lits " {".

Definition if_eu : string := "#if defined(VERSION_EU) && !defined(NON_MATCHING)".
Definition global_asm (f : string) : string :=
  "GLOBAL_ASM(" ++ dq ++ "asm/non_matchings/" ++ f ++ "_eu.s" ++ dq ++ ")".
Definition close_brace : string := "}" ++ newline.

(** What one [print] of the loop writes: the line read ([print(line,
    end="")]) or a line of its own ([print(x)], newline added). *)
Inductive out_line := Echo (l : string) | Ins (l : string).

Definition out_text (o : out_line) : string :=
  match o with Echo l => l | Ins l => l ++ newline end.

(** One iteration of the [for line in fp] loop: the new [inside] flag
    and what is printed. *)
Definition rf_step (f : string) (inside : bool) (line : string) : bool * list out_line :=
  if inside && bool_decide (line = close_brace) then (false, [Echo line; Ins "#endif"])
  else match re_match (sig_pattern f) line with
       | Some gs => (true, [Ins if_eu; Ins (nth 0 gs "" ++ ";"); Ins (global_asm f);
                           Ins "#else"; Echo line])
       | None => (inside, [Echo line])
       end.

Fixpoint rf_loop (f : string) (inside : bool) (lines : list string) : list out_line :=
  match lines with
  | [] => []
  | l :: ls => let '(inside', out) := rf_step f inside l in (out ++ rf_loop f inside' ls)%list
  end.

(** [fileinput.input(files=[path], inplace=True)]: the file is replaced
    by what the loop prints. *)
Definition replace_function (sm64_source path_to_c_file function : string) : io unit :=
  let p := path_str (path_div (path_of sm64_source) path_to_c_file) in
  text ← read_text p;
  write_text p (sconcat (map out_text (rf_loop function false (file_lines text)))).

(** ** [write_asm] (lines 36-72) *)

(** Lines 61-63. *)
Definition rewrite_line (rand_seed line : string) : string :=
  replace ".L" (".L" ++ rand_seed) (replace "D_" "0x" (replace "func_" "0x" line)).

(** The loop of lines 58-70 over the disassembly lines after the first
    four. *)
Fixpoint write_asm_loop (asm_filename rand_seed : string) (should_break : bool)
    (lines : list string) : io unit :=
  match lines with
  | [] => mret tt
  | line :: ls =>
      let line := rewrite_line rand_seed line in
      append_text asm_filename (line ++ newline);;
      print line;;
      if should_break then mret tt
      else if contains line "jr    $ra" then
        a ← input "done? ";
        write_asm_loop asm_filename rand_seed (bool_decide (a <> "n")) ls
      else write_asm_loop asm_filename rand_seed should_break ls
  end.

Definition sm64_tools_error : PyExc :=
  OSError ("Env variable SM64_TOOLS should point to " ++
           "sm64tools checkout with mipsdisasm built").

Definition asm_path (sm64_source function : string) : string :=
  sm64_source ++ "/asm/non_matchings/" ++ function ++ "_eu.s".

Section WithShell.
Context `{Shell}.

(** [seed] is the value of [random.randint(0, 99)]. *)
Definition write_asm (sm64_source function rom_offset : string) (seed : Z) : io string :=
  tools ← getenv "SM64_TOOLS";
  match tools with
  | None | Some "" => raise sm64_tools_error
  | Some t =>
      r ← run [t ++ "/mipsdisasm"; "-p"; sm64_source ++ "/baserom.eu.z64";
               "0x80200000:" ++ rom_offset ++ "+0x1000"];
      let asm_filename := asm_path sm64_source function in
      let rand_seed := str_int seed ++ "_" in
      write_text asm_filename "";;
      append_text asm_filename ("glabel " ++ function ++ newline);;
      write_asm_loop asm_filename rand_seed false (drop 4 (split newline (stdout r)));;
      mret asm_filename
  end.

(** ** [get_next_nonmatching] (lines 75-94) *)

(** The pattern of lines 85-86, item by item (the [.] before [o] is
    the unescaped any-character of the source). *)
Definition diff_pattern : list item :=
  lits "First difference at ROM addr " ++ [DotStar] ++ lits ", in " ++
  [Open; DotStar; Close] ++ lits " (ram " ++ [DotStar] ++ lits ", rom " ++
  [Open; DotStar; Close] ++ lits ", build/eu/" ++ [Open; DotStar; Close; Dot] ++ lits "o)".

(** The [for line in output.split("\n")] loop: the first line that matches. *)
Fixpoint first_diff (lines : list string) : option (string * string * string) :=
  match lines with
  | [] => None
  | l :: ls =>
      match re_match diff_pattern l with
      | Some gs => Some (nth 0 gs "", nth 1 gs "", nth 2 gs "" ++ ".c")
      | None => first_diff ls
      end
  end.

Definition diff_error : PyExc := Exception "first-diff.py output didn't match expectations".

Definition get_next_nonmatching (sm64_source : string) : io (string * string * string) :=
  chdir sm64_source;;
  let first_diff_cmd := path_str (path_div (path_of sm64_source) "first-diff.py") in
  r ← run [first_diff_cmd];
  match first_diff (split newline (stdout r)) with
  | Some t => mret t
  | None => raise diff_error
  end.

(** ** [make] (lines 97-102) *)

Definition make (sm64_source : string) : io bool :=
  chdir sm64_source;;
  r ← run ["make"; "VERSION=eu"; "COMPARE=0"];
  (if bool_decide (returncode r <> 0%Z) then print_bytes (stdout r) else mret tt);;
  mret (bool_decide (returncode r = 0%Z)).

End WithShell.

(** ** [prompt] (lines 105-109) *)

Definition allowed (question_mark : bool) : list string :=
  ["y"; "n"] ++ (if question_mark then ["?"] else []).

Definition prompt_text (question_mark : bool) : string :=
  "continue? y/n" ++ (if question_mark then "/?" else "") ++ ": ".

(** The [while] loop.  Each iteration reads one line of standard input,
    so [S (length stdin)] iterations are enough ([prompt_spec]); the
    branch without fuel is never taken. *)
Fixpoint prompt_go (question_mark : bool) (fuel : nat) (response : string) : io string :=
  if bool_decide (response ∈ allowed question_mark) then mret response
  else match fuel with
       | O => mret response
       | S fuel' => r ← input (prompt_text question_mark); prompt_go question_mark fuel' r
       end.

Definition prompt (question_mark : bool) : io string :=
  fun w => prompt_go question_mark (S (length (w_stdin w))) "" w.

(** ** [main] (lines 112-160) *)

Section Main.
Context `{Shell}.

Definition main (sm64_source : string) (no_replace : bool) (seed : Z) : io unit :=
  print "first-diffing...";;
  '(function, rom_offset, path_to_c_file) ← get_next_nonmatching sm64_source;
  print ("got function = " ++ function ++ ", offset = " ++ rom_offset ++
         ", path = " ++ path_to_c_file);;
  if contains function "/" || contains function "." then
    print "function looks wrong. bailing."
  else
  response ← prompt true;
  path_to_c_file ←
    (if bool_decide (response = "?") then
       print "ok, you want to change the target c file to modify.";;
       print "(this is for .inc.c-type files - behavior_actions in particular)";;
       input "what's the actual c file path?"
     else mret path_to_c_file);
  if bool_decide (response = "n") then print "bailing." else
  print "overwriting asm file...";;
  asm_filename ← write_asm sm64_source function rom_offset seed;
  response ← prompt true;
  response ←
    (if bool_decide (response = "?") then
       t ← read_text asm_filename; print t;; prompt false
     else mret response);
  if bool_decide (response = "n") then
    print ("bailing. go delete that asm file (" ++ asm_filename ++ ")")
  else
  (if no_replace then mret tt
   else print "injecting c file contents...";;
        replace_function sm64_source path_to_c_file function);;
  print "making...";;
  result ← make sm64_source;
  if negb result then print "something went wrong during make. bailing." else
  print "first-diffing again...";;
  '(function2, rom_offset2, _) ← get_next_nonmatching sm64_source;
  if bool_decide (function = function2) || bool_decide (rom_offset = rom_offset2) then
    print ("functions or rom offsets match (" ++ function2 ++ ", " ++ rom_offset2 ++ ").");;
    print "you'll likely have to #define static to find the real next function."
  else
    print "seems different enough.";;
    print "done".

End Main.

(** ** Observations used by the theorems *)

#[export] Instance out_line_eq_dec : EqDecision out_line.
Proof. solve_decision. Defined.

(** The lines of the file that [replace_function] read: the echoed ones. *)
Definition echoes (o : list out_line) : list string :=
  omap (fun x => match x with Echo l => Some l | Ins _ => None end) o.

(** How many lines [x] the loop inserted. *)
Definition count_ins (x : string) (o : list out_line) : nat := length (filter (fun y => y = Ins x) o).

(** The [inside] flag after the loop. *)
Definition rf_inside (f : string) (b : bool) (lines : list string) : bool :=
  foldl (fun b l => (rf_step f b l).1) b lines.

(** While a block is open, no line but its closing brace matches. *)
Fixpoint no_nested (f : string) (inside : bool) (lines : list string) : Prop :=
  match lines with
  | [] => True
  | l :: ls => (inside = true -> l <> close_brace -> re_match (sig_pattern f) l = None) /\
               no_nested f (rf_step f inside l).1 ls
  end.

(** ** Sample inputs *)

Definition sample_fn : string := "func_80240000".
Definition sample_sig : string := "void func_80240000(s32 a)".
Definition sample_c : list string :=
  ["int x;" ++ newline; sample_sig ++ " {" ++ newline; "    bar();" ++ newline; close_brace;
   "int y;" ++ newline].

(** A recursive function: the call in its body opens a second block. *)
Definition recursive_c : list string :=
  ["void foo(s32 n) {" ++ newline; "    if (n && foo(n - 1)) {" ++ newline;
   "        n++;" ++ newline; "    }" ++ newline; close_brace].

Definition sample_diff_line : string :=
  "First difference at ROM addr 0x1234, in func_80240000 (ram 0x80240000, rom 0x1000, build/eu/src/game/foo.o)".
Definition sample_disasm : string :=
  sconcat (map (fun l => l ++ newline)
    ["h1"; "h2"; "h3"; "h4"; "func_80240000:"; "  addiu $sp, $sp, -0x18"; "  jal func_80250000";
     ".L80240010:"; "  jr    $ra"; "  nop"; "  other"]).
Definition sample_root : list string := ["home"; "u"; "sm64"].

(** [first-diff.py] reports [func_80240000] before [make] has built
    [build/ok] and another function afterwards; [make] builds
    [build/ok]; [mipsdisasm] prints [sample_disasm]. *)
Definition sample_shell : Shell := {|
  sh_exec cwd argv fs :=
    match argv with
    | ["/home/u/sm64/first-diff.py"] =>
        Some (mkproc 0 (if bool_decide (is_Some (fs !! (sample_root ++ ["build"; "ok"])%list))
                        then "First difference at ROM addr 0x2234, in func_80250000 (ram 0x80250000, rom 0x2000, build/eu/src/game/bar.o)"
                        else sample_diff_line) "", fs)
    | "/tools/mipsdisasm" :: _ => Some (mkproc 0 sample_disasm "", fs)
    | ["make"; _; _] => Some (mkproc 0 "" "", <[(sample_root ++ ["build"; "ok"])%list := ""]> fs)
    | _ => None
    end |}.

Definition sample_world (stdin : list string) : world :=
  mkworld
    (list_to_map [((sample_root ++ ["first-diff.py"])%list, "");
                  ((sample_root ++ ["src"; "game"; "foo.c"])%list, sconcat sample_c);
                  (["tools"; "mipsdisasm"], "");
                  ((sample_root ++ ["asm"; "non_matchings"; "a.s"])%list, "")])
    ["home"; "u"] (<["SM64_TOOLS" := "/tools"]> ∅) stdin [].

(** ** Lemmas *)

Lemma sig_pattern_mrun f l rest m :
  mrun (sig_pattern f) l rest m <->
  exists u1 u2, l = ((u1 ++ f ++ u2) ++ " {" ++ rest)%string /\ no_nl u1 = true /\
                no_nl u2 = true /\ m = [l; (" {" ++ rest)%string].
Proof.
  change (sig_pattern f) with (Open :: DotStar :: (lits f ++ DotStar :: Close :: lits " {")%list).
  rewrite mrun_group. setoid_rewrite mrun_star. setoid_rewrite mrun_lits.
  setoid_rewrite mrun_star. setoid_rewrite mrun_close. setoid_rewrite mrun_lits_end.
  split.
  - intros (m' & -> & u1 & r1 & -> & Hu1 & r2 & -> & u2 & r3 & -> & Hu2 & m'' & -> & -> & ->).
    exists u1, u2. rewrite <-!sapp_assoc. done.
  - intros (u1 & u2 & -> & Hu1 & Hu2 & ->). rewrite <-!sapp_assoc.
    eexists; split; [done|]. exists u1. eexists; split; [done|]. split; [done|].
    eexists; split; [done|]. exists u2. eexists; split; [done|]. split; [done|].
    eexists; split; [done|]. done.
Qed.

Lemma sep_ok_brace : sep_ok " {" = true.
Proof. done. Qed.

Lemma sig_match f pre post :
  no_nl pre = true -> contains pre f = true ->
  contains pre " {" = false -> contains post " {" = false ->
  re_match (sig_pattern f) (pre ++ " {" ++ post) = Some [pre].
Proof.
  intros Hnl Hf Hpre Hpost. apply re_match_unique.
  - destruct (contains_inv _ _ Hf) as (u1 & u2 & ->).
    rewrite !no_nl_app in Hnl. apply andb_prop in Hnl as [Hu1 Hnl]. apply andb_prop in Hnl as [_ Hu2].
    exists post, [((u1 ++ f ++ u2) ++ " {" ++ post)%string; (" {" ++ post)%string].
    apply sig_pattern_mrun. eauto 10.
  - intros rest m Hm. apply sig_pattern_mrun in Hm as (u1 & u2 & Heq & _ & _ & ->).
    rewrite Heq, groups_cons. simpl. f_equal. f_equal.
    by destruct (sep_unique " {" pre post (u1 ++ f ++ u2) rest sep_ok_brace Hpre Hpost Heq) as [-> _].
Qed.

Lemma sig_nomatch f l : contains l f = false -> re_match (sig_pattern f) l = None.
Proof.
  intros Hl. destruct (re_match (sig_pattern f) l) eqn:E; [|done].
  apply re_match_sound in E as (rest & m & Hm & _). apply sig_pattern_mrun in Hm as (u1 & u2 & -> & _).
  rewrite <-!sapp_assoc, contains_mid in Hl. done.
Qed.

Lemma rf_step_echoes f b l : echoes (rf_step f b l).2 = [l].
Proof.
  unfold rf_step. destruct (b && bool_decide (l = close_brace)); [done|].
  by destruct (re_match (sig_pattern f) l).
Qed.

Lemma rf_loop_echoes f b lines : echoes (rf_loop f b lines) = lines.
Proof.
  revert b; induction lines as [|l ls IH]; intros b; [done|]. simpl.
  destruct (rf_step f b l) as [b' o] eqn:E. unfold echoes in *. rewrite omap_app, IH.
  pose proof (rf_step_echoes f b l) as H. rewrite E in H. simpl in H. unfold echoes in H. by rewrite H.
Qed.

(** C24: [replace_function] only inserts lines: the lines it echoes,
    concatenated, are the original file. *)
Theorem replace_function_keeps f text :
  sconcat (echoes (rf_loop f false (file_lines text))) = text.
Proof. by rewrite rf_loop_echoes, file_lines_concat. Qed.

Lemma rf_loop_skip f b ls rest :
  Forall (fun l => contains l f = false) ls -> (b = true -> close_brace ∉ ls) ->
  rf_loop f b (ls ++ rest) = (map Echo ls ++ rf_loop f b rest)%list.
Proof.
  intros Hls Hb. induction Hls as [|l ls Hl Hls IH]; [done|]. simpl.
  unfold rf_step. rewrite sig_nomatch by done.
  destruct b; simpl.
  - rewrite bool_decide_eq_false_2 by (intros ->; apply (Hb eq_refl); left). simpl.
    f_equal. apply IH. intros _ Hin. apply (Hb eq_refl). by right.
  - f_equal. by apply IH.
Qed.

Lemma rf_step_sig f pre :
  no_nl pre = true -> contains pre f = true -> contains pre " {" = false ->
  rf_step f false (pre ++ " {" ++ newline) =
    (true, [Ins if_eu; Ins (pre ++ ";"); Ins (global_asm f); Ins "#else"; Echo (pre ++ " {" ++ newline)]).
Proof. intros. unfold rf_step. by rewrite (sig_match f pre newline). Qed.

Lemma header_not_close pre : (pre ++ " {" ++ newline) <> close_brace.
Proof.
  intros E. apply (f_equal String.length) in E. rewrite !slength_app in E. simpl in E. lia.
Qed.

Lemma rf_step_sig_any f b pre :
  no_nl pre = true -> contains pre f = true -> contains pre " {" = false ->
  rf_step f b (pre ++ " {" ++ newline) =
    (true, [Ins if_eu; Ins (pre ++ ";"); Ins (global_asm f); Ins "#else"; Echo (pre ++ " {" ++ newline)]).
Proof.
  intros. unfold rf_step. rewrite (bool_decide_eq_false_2 (_ = close_brace)) by apply header_not_close.
  rewrite andb_false_r. by rewrite (sig_match f pre newline).
Qed.

Lemma rf_step_close f : rf_step f true close_brace = (false, [Echo close_brace; Ins "#endif"]).
Proof. unfold rf_step. by rewrite bool_decide_eq_true_2. Qed.

(** C23: [replace_function] wraps the definition of the function: on a file
    whose only line naming [function] is its header [pre {] and whose body
    has no line [}], the lines before are copied, the header is preceded by
    [#if defined(VERSION_EU) && !defined(NON_MATCHING)], the prototype
    [pre;], the [GLOBAL_ASM] line and [#else], the body is copied and the
    first [}] line is followed by [#endif]. *)
Theorem rf_wrap f before pre body after :
  no_nl pre = true -> contains pre f = true -> contains pre " {" = false ->
  Forall (fun l => contains l f = false) (before ++ body ++ after) -> close_brace ∉ body ->
  rf_loop f false (before ++ [pre ++ " {" ++ newline] ++ body ++ [close_brace] ++ after) =
    (map Echo before ++ [Ins if_eu; Ins (pre ++ ";"); Ins (global_asm f); Ins "#else";
                         Echo (pre ++ " {" ++ newline)] ++
     map Echo body ++ [Echo close_brace; Ins "#endif"] ++ map Echo after)%list.
Proof.
  intros Hnl Hf Hpre Hall Hbody. rewrite !Forall_app in Hall. destruct Hall as (Hbe & Hbo & Haf).
  rewrite rf_loop_skip by done. f_equal. cbn [app rf_loop]. rewrite rf_step_sig by done.
  cbn [app]. do 5 f_equal. rewrite rf_loop_skip by done. f_equal.
  cbn [app rf_loop]. rewrite rf_step_close. cbn [app]. do 2 f_equal.
  rewrite <-(app_nil_r after), rf_loop_skip by done. by rewrite !app_nil_r.
Qed.

Lemma semicolon_ne g t : srev t <> "" -> String.get 0 (srev t) <> Some ";"%char -> (g ++ ";")%string <> t.
Proof.
  intros Hne Hget E. apply Hget. rewrite <-E, srev_app_distr. done.
Qed.

(** C25: on a file with no line naming the function inside a wrapped
    definition, every [#if] that [replace_function] inserts is closed by an
    [#endif], except one still open at the end of the file. *)
Lemma rf_balanced f b lines :
  no_nested f b lines ->
  count_ins if_eu (rf_loop f b lines) + Nat.b2n b =
  count_ins "#endif" (rf_loop f b lines) + Nat.b2n (rf_inside f b lines).
Proof.
  revert b; induction lines as [|l ls IH]; intros b Hn; [done|]. destruct Hn as [Hl Hls].
  cbn [rf_loop rf_inside foldl] in *. unfold count_ins in *.
  destruct (rf_step f b l) as [b' o] eqn:E. simpl in Hls. rewrite !list.filter_app, !length_app.
  pose proof (IH b' Hls) as IHb. fold (rf_inside f b' ls). unfold rf_inside in IHb.
  unfold rf_step in E. destruct (b && bool_decide (l = close_brace)) eqn:Hc.
  - injection E as <- <-. apply andb_prop in Hc as [-> _]. simpl in *. lia.
  - destruct (re_match (sig_pattern f) l) as [gs|] eqn:Hm.
    + destruct b.
      { exfalso. assert (l <> close_brace) as Hne.
        { intros ->. rewrite bool_decide_eq_true_2 in Hc by done. discriminate. }
        pose proof (Hl eq_refl Hne). congruence. }
      injection E as <- <-. cbn [app]. rewrite !filter_cons.
      repeat first [ rewrite decide_True by done
                   | rewrite decide_False by (intros [= E]; revert E; first [done | apply semicolon_ne; vm_compute; discriminate]) ].
      simpl in *. lia.
    + injection E as <- <-. simpl. lia.
Qed.

(** C26: finding: [replace_function] does not balance its blocks when the
    function is recursive.  On a file whose header line [pre {] names the
    function, followed by a body in which a second line [ipre {] names it
    again (a recursive call opening a block) before the closing [}], the
    second line also matches the signature regex: the output has two
    [#if defined(VERSION_EU) && !defined(NON_MATCHING)] blocks (each with
    its prototype, [GLOBAL_ASM] and [#else]) and a single [#endif] after
    the [}], so the C file no longer preprocesses. *)
Theorem rf_unbalanced f before pre body1 ipre body2 after :
  no_nl pre = true -> contains pre f = true -> contains pre " {" = false ->
  no_nl ipre = true -> contains ipre f = true -> contains ipre " {" = false ->
  Forall (fun l => contains l f = false) (before ++ body1 ++ body2 ++ after)%list ->
  close_brace ∉ (body1 ++ body2)%list ->
  rf_loop f false (before ++ [pre ++ " {" ++ newline]%string ++ body1 ++
                   [ipre ++ " {" ++ newline]%string ++ body2 ++ [close_brace] ++ after)%list =
    (map Echo before ++ [Ins if_eu; Ins (pre ++ ";"); Ins (global_asm f); Ins "#else";
                         Echo (pre ++ " {" ++ newline)] ++
     map Echo body1 ++ [Ins if_eu; Ins (ipre ++ ";"); Ins (global_asm f); Ins "#else";
                        Echo (ipre ++ " {" ++ newline)] ++
     map Echo body2 ++ [Echo close_brace; Ins "#endif"] ++ map Echo after)%list.
Proof.
  intros Hnl Hf Hpre Hinl Hif Hipre Hall Hbody. rewrite !Forall_app in Hall.
  destruct Hall as (Hbe & Hb1 & Hb2 & Haf).
  assert ((close_brace ∉ body1) /\ (close_brace ∉ body2)) as [Hc1 Hc2] by set_solver.
  rewrite rf_loop_skip by done. f_equal. cbn [app rf_loop]. rewrite rf_step_sig_any by done.
  cbn [app]. do 5 f_equal. rewrite rf_loop_skip by done. f_equal.
  cbn [app rf_loop]. rewrite rf_step_sig_any by done. cbn [app]. do 5 f_equal.
  rewrite rf_loop_skip by done. f_equal.
  cbn [app rf_loop]. rewrite rf_step_close. cbn [app]. do 2 f_equal.
  rewrite <-(app_nil_r after), rf_loop_skip by done. by rewrite !app_nil_r.
Qed.

Lemma prompt_go_done qm fuel r : r ∈ allowed qm -> prompt_go qm fuel r = mret r.
Proof. intros H. destruct fuel; cbn [prompt_go]; by rewrite bool_decide_eq_true_2. Qed.

Lemma prompt_go_spec qm bad a rest fuel resp w :
  resp ∉ allowed qm -> Forall (fun x => x ∉ allowed qm) bad -> a ∈ allowed qm ->
  w_stdin w = (bad ++ a :: rest)%list -> length bad < fuel ->
  prompt_go qm fuel resp w =
    (Ok a, mkworld (w_files w) (w_cwd w) (w_env w) rest
                   (w_trace w ++ replicate (S (length bad)) (EOut (prompt_text qm)))%list).
Proof.
  intros Hr Hbad Ha. revert fuel resp w Hr.
  induction Hbad as [|b bad Hb Hbad IH]; intros [|fuel] resp w Hr Hin Hlen; simpl in Hlen; try lia;
    cbn [prompt_go]; rewrite bool_decide_eq_false_2 by done.
  - erewrite io_bind_ok by (apply input_run, Hin). by rewrite prompt_go_done.
  - erewrite io_bind_ok by (apply input_run, Hin). rewrite (IH fuel b); [|done|done|lia].
    simpl. by rewrite <-app_assoc.
Qed.

Lemma prompt_go_eof qm fuel resp w :
  resp ∉ allowed qm -> Forall (fun x => x ∉ allowed qm) (w_stdin w) -> length (w_stdin w) < fuel ->
  prompt_go qm fuel resp w =
    (Raise EOFError, mkworld (w_files w) (w_cwd w) (w_env w) []
                   (w_trace w ++ replicate (S (length (w_stdin w))) (EOut (prompt_text qm)))%list).
Proof.
  destruct w as [fs cwd env stdin tr]; simpl. revert fuel resp tr.
  induction stdin as [|b bad IH]; intros [|fuel] resp tr Hr Hbad Hlen; simpl in Hlen; try lia;
    cbn [prompt_go]; rewrite bool_decide_eq_false_2 by done.
  - by erewrite io_bind_raise by (by apply input_eof).
  - apply Forall_cons_iff in Hbad as [Hb Hbad].
    erewrite io_bind_ok by (by apply input_run). rewrite (IH fuel b); [|done|done|simpl; lia].
    simpl. by rewrite <-app_assoc.
Qed.

(** C27: [prompt] asks again after every answer outside [y], [n] (and [?]
    when allowed), and returns the first allowed answer, having printed its
    question once per line read. *)
Theorem prompt_spec qm w bad a rest :
  w_stdin w = (bad ++ a :: rest)%list -> Forall (fun x => x ∉ allowed qm) bad -> a ∈ allowed qm ->
  prompt qm w =
    (Ok a, mkworld (w_files w) (w_cwd w) (w_env w) rest
                   (w_trace w ++ replicate (S (length bad)) (EOut (prompt_text qm)))%list).
Proof.
  intros Hin Hbad Ha. unfold prompt. apply prompt_go_spec; try done.
  - destruct qm; compute; intros H; repeat (apply elem_of_cons in H as [H|H]; [discriminate|]); by apply elem_of_nil in H.
  - rewrite Hin, length_app. simpl. lia.
Qed.

Lemma prompt_go_writes P qm fuel r : writes_only P (prompt_go qm fuel r).
Proof. revert r; induction fuel as [|fuel IH]; intros r; cbn [prompt_go]; solve_writes. Qed.

Lemma prompt_writes P qm : writes_only P (prompt qm).
Proof. intros w. exact (prompt_go_writes P qm (S (length (w_stdin w))) "" w). Qed.

Lemma write_asm_loop_writes P fname sd sb ls :
  (forall cwd, P (resolve cwd fname)) -> writes_only P (write_asm_loop fname sd sb ls).
Proof. intros HP. revert sb; induction ls as [|l ls IH]; intros sb; cbn [write_asm_loop]; solve_writes; auto. Qed.

Section Writes.
Context `{Shell}.

Lemma write_asm_writes P src f off seed :
  (forall cwd, P (resolve cwd (asm_path src f))) -> writes_only P (write_asm src f off seed).
Proof. intros HP. unfold write_asm. solve_writes; try apply write_asm_loop_writes; auto. Qed.

Lemma get_next_writes P src : writes_only P (get_next_nonmatching src).
Proof. unfold get_next_nonmatching. solve_writes. Qed.

Lemma make_writes P src : writes_only P (make src).
Proof. unfold make. solve_writes. Qed.

Lemma replace_function_writes P src c f :
  (forall cwd, P (resolve cwd (path_str (path_div (path_of src) c)))) ->
  writes_only P (replace_function src c f).
Proof. intros HP. unfold replace_function. solve_writes; auto. Qed.

End Writes.

Lemma eu_name_ok f :
  contains f "/" = false ->
  contains (f ++ "_eu.s") "/" = false /\ (f ++ "_eu.s")%string <> "" /\
  (f ++ "_eu.s")%string <> "." /\ (f ++ "_eu.s")%string <> "..".
Proof.
  intros Hf. split_and!; [by rewrite contains_app_char, Hf|..];
    intros E; apply (f_equal String.length) in E; rewrite slength_app in E; simpl in E; lia.
Qed.

Lemma asm_path_last cwd src f :
  contains f "/" = false -> list.last (resolve cwd (asm_path src f)) = Some (f ++ "_eu.s")%string.
Proof.
  intros Hf. destruct (eu_name_ok f Hf) as (H1 & H2 & H3 & H4).
  replace (asm_path src f) with ((src ++ "/asm/non_matchings") ++ "/" ++ (f ++ "_eu.s"))%string.
  - by apply resolve_last.
  - unfold asm_path. by rewrite <-!sapp_assoc.
Qed.

Section Main.
Context `{Shell}.

(** C28: with [--no-replace] every file the script writes is named
    [<something>_eu.s]: the assembly file of [write_asm], never a C file. *)
Theorem main_no_replace_writes src seed :
  writes_only (fun p => exists g, list.last p = Some (g ++ "_eu.s")%string) (main src true seed).
Proof.
  unfold main. apply wo_bind; [apply wo_print|intros _].
  apply wo_bind; [apply get_next_writes|intros [[f off] c]]. solve_writes.
  all: try apply prompt_writes.
  - apply write_asm_writes. intros cwd. exists f. apply asm_path_last.
    by apply orb_false_elim in Heqb as [? _].
  - apply make_writes.
  - apply get_next_writes.
Qed.
End Main.

Section Bail.
Context `{Shell}.

(** C29: answering [n] to the first question (after any number of invalid
    answers) makes the script stop without writing, renaming or deleting any
    file. *)
Theorem main_bail_n src nr seed w f off c w1 bad rest :
  (print "first-diffing...";; get_next_nonmatching src) w = (Ok (f, off, c), w1) ->
  w_stdin w1 = (bad ++ "n" :: rest)%list -> Forall (fun x => x ∉ allowed true) bad ->
  written (w_trace (main src nr seed w).2) = written (w_trace w).
Proof.
  intros Hg Hin Hbad. unfold main. rewrite <-io_bind_assoc, (io_bind_ok _ _ _ _ _ Hg).
  destruct (writes_nothing_trace (print "first-diffing...";; get_next_nonmatching src) w)
    as (t & Ht & Hwt); [solve_writes; apply get_next_writes|]. rewrite Hg in Ht. simpl in Ht.
  cbn beta iota. rewrite (io_bind_ok _ _ _ _ _ (print_run _ _)).
  destruct (contains f "/" || contains f ".").
  { simpl. rewrite Ht, !written_app, Hwt. simpl. by rewrite !app_nil_r. }
  rewrite (io_bind_ok _ _ _ _ _ (prompt_spec true (log _ w1) bad "n" rest Hin Hbad ltac:(by right; left))).
  rewrite (bool_decide_eq_false_2 ("n" = "?")) by discriminate.
  rewrite (io_bind_ok _ _ _ _ _ (io_ret_run _ _)), bool_decide_eq_true_2 by done.
  rewrite print_run. cbn [fst snd w_trace log].
  rewrite Ht, !written_app, Hwt, written_replicate_out. simpl. by rewrite !app_nil_r.
Qed.

(** C30: finding: [get_next_nonmatching] changes directory into
    [sm64_source] and then runs [sm64_source/first-diff.py] relative to the
    new directory, so with a relative [sm64_source] (e.g. [../sm64]) the
    program is looked up in the wrong place and [FileNotFoundError] is
    raised. *)
Theorem relative_source_breaks_first_diff src w :
  let cmd := path_str (path_div (path_of src) "first-diff.py") in
  let d := resolve (w_cwd w) src in
  is_dir w d = true -> contains cmd "/" = true -> is_file w (resolve d cmd) = false ->
  get_next_nonmatching src w = (Raise (OSError "FileNotFoundError"), set_cwd d w).
Proof.
  intros cmd d Hd Hc Hf. unfold get_next_nonmatching. unfold mbind at 1, io_bind at 1.
  unfold chdir. fold d. rewrite Hd. unfold mbind, io_bind, run. fold cmd.
  unfold is_file in *. simpl. rewrite Hc, Hf. done.
Qed.

End Bail.

Lemma write_asm_loop_confirmed fname sd body jr delay rest w a inp :
  Forall (fun l => contains (rewrite_line sd l) "jr    $ra" = false) body ->
  contains (rewrite_line sd jr) "jr    $ra" = true ->
  w_stdin w = a :: inp -> a <> "n" ->
  let p := resolve (w_cwd w) fname in
  exists w', write_asm_loop fname sd false (body ++ jr :: delay :: rest) w = (Ok tt, w') /\
    w_files w' = <[p := default "" (w_files w !! p) ++
                        sconcat (map (fun l => rewrite_line sd l ++ newline) (body ++ [jr; delay]))]> (w_files w) /\
    w_stdin w' = inp /\ w_cwd w' = w_cwd w.
Proof.
  intros Hbody Hjr Hin Ha p. revert w Hin p. induction Hbody as [|l body Hl Hbody IH]; intros w Hin p.
  - cbn [app write_asm_loop]. rewrite (io_bind_ok _ _ _ _ _ (append_run _ _ _)).
    rewrite (io_bind_ok _ _ _ _ _ (print_run _ _)). rewrite Hjr.
    erewrite io_bind_ok by (apply input_run; exact Hin). cbn [write_asm_loop].
    rewrite bool_decide_eq_true_2 by done.
    rewrite (io_bind_ok _ _ _ _ _ (append_run _ _ _)), (io_bind_ok _ _ _ _ _ (print_run _ _)).
    eexists; split; [reflexivity|]. cbn. split_and!; [|done|done].
    fold p. rewrite lookup_insert_eq, insert_insert_eq. simpl. by rewrite sapp_nil_r, !sapp_assoc.
  - cbn [app write_asm_loop]. rewrite (io_bind_ok _ _ _ _ _ (append_run _ _ _)).
    rewrite (io_bind_ok _ _ _ _ _ (print_run _ _)). rewrite Hl.
    match goal with |- exists _, write_asm_loop _ _ _ _ ?W = _ /\ _ =>
      destruct (IH W) as (w' & Hrun & Hfs & Hst & Hcwd); [exact Hin|] end.
    rewrite Hrun. eexists; split; [reflexivity|]. cbn in Hfs, Hcwd |- *. split_and!; [|done|done].
    rewrite Hfs. fold p. rewrite lookup_insert_eq, insert_insert_eq. simpl. by rewrite !sapp_assoc.
Qed.

Section WriteAsm.
Context `{Shell}.

(** C31: [write_asm] writes [glabel f], then the disassembly from its
    fifth line on with [func_] and [D_] replaced by [0x] and local labels
    made unique by the seed, up to and including the line after the first
    [jr    $ra] (its delay slot) once the operator confirms. *)
Theorem write_asm_content src f off seed w t r w1 body jr delay rest a inp :
  let sd := (str_int seed ++ "_")%string in
  let p := resolve (w_cwd w1) (asm_path src f) in
  w_env w !! "SM64_TOOLS" = Some t -> t <> "" ->
  run [t ++ "/mipsdisasm"; "-p"; src ++ "/baserom.eu.z64"; "0x80200000:" ++ off ++ "+0x1000"] w = (Ok r, w1) ->
  is_dir w1 (removelast p) = true -> p <> [] ->
  drop 4 (split newline (stdout r)) = (body ++ jr :: delay :: rest)%list ->
  Forall (fun l => contains (rewrite_line sd l) "jr    $ra" = false) body ->
  contains (rewrite_line sd jr) "jr    $ra" = true ->
  w_stdin w1 = a :: inp -> a <> "n" ->
  exists w', write_asm src f off seed w = (Ok (asm_path src f), w') /\
    w_files w' !! p = Some ("glabel " ++ f ++ newline ++
                            sconcat (map (fun l => rewrite_line sd l ++ newline) (body ++ [jr; delay]))) /\
    w_stdin w' = inp.
Proof.
  intros sd p Henv Ht Hrun Hdir Hp Hlines Hbody Hjr Hin Ha.
  unfold write_asm. erewrite io_bind_ok by (unfold getenv; rewrite Henv; reflexivity).
  destruct t as [|c t']; [done|]. rewrite (io_bind_ok _ _ _ _ _ Hrun).
  unfold write_text at 1. unfold mbind at 1, io_bind at 1. fold p. rewrite Hdir, bool_decide_eq_true_2 by done.
  simpl andb. cbv iota. rewrite (io_bind_ok _ _ _ _ _ (append_run _ _ _)), Hlines.
  match goal with |- exists _, (write_asm_loop _ _ _ _ ≫= _) ?W = _ /\ _ =>
    destruct (write_asm_loop_confirmed (asm_path src f) sd body jr delay rest W a inp)
      as (w' & Hloop & Hfs & Hst & Hcwd); [done|done|exact Hin|done|] end.
  rewrite (io_bind_ok _ _ _ _ _ Hloop). eexists; split; [reflexivity|]. split; [|done].
  rewrite Hfs. simpl in Hcwd |- *. fold p. rewrite lookup_insert_eq. simpl. fold p.
  rewrite !lookup_insert_eq. simpl. by rewrite <-!sapp_assoc.
Qed.

End WriteAsm.

Lemma diff_pattern_mrun l rest m :
  mrun diff_pattern l rest m ->
  exists a f r o p x,
    l = ("First difference at ROM addr " ++ a ++ ", in " ++ f ++ " (ram " ++ r ++ ", rom " ++ o ++
         ", build/eu/" ++ p ++ String x ("o)" ++ rest))%string /\
    groups m = [f; o; p].
Proof.
  unfold diff_pattern. intros H.
  apply mrun_lits in H as (r1 & -> & H). apply mrun_star in H as (a & r2 & -> & _ & H).
  apply mrun_lits in H as (r3 & -> & H). apply mrun_group in H as (m1 & -> & H).
  apply mrun_star in H as (f & r4 & -> & _ & H). apply mrun_close in H as (m2 & -> & H).
  apply mrun_lits in H as (r5 & -> & H). apply mrun_star in H as (r & r6 & -> & _ & H).
  apply mrun_lits in H as (r7 & -> & H). apply mrun_group in H as (m3 & -> & H).
  apply mrun_star in H as (o & r8 & -> & _ & H). apply mrun_close in H as (m4 & -> & H).
  apply mrun_lits in H as (r9 & -> & H). apply mrun_group in H as (m5 & -> & H).
  apply mrun_star in H as (p & r10 & -> & _ & H). apply mrun_close in H as (m6 & -> & H).
  apply mrun_dot in H as (x & r11 & -> & _ & H). apply mrun_lits_end in H as [-> ->].
  exists a, f, r, o, p, x. split; [done|]. rewrite !groups_cons. done.
Qed.

(** C32: the triple [get_next_nonmatching] returns comes from a line of
    first-diff.py's output of the expected form: the function, the ROM
    offset, and the object path with [.o] replaced by [.c]. *)
Theorem first_diff_sound lines f o c :
  first_diff lines = Some (f, o, c) ->
  exists l a r p x tail, l ∈ lines /\
    l = ("First difference at ROM addr " ++ a ++ ", in " ++ f ++ " (ram " ++ r ++ ", rom " ++ o ++
         ", build/eu/" ++ p ++ String x ("o)" ++ tail))%string /\
    c = (p ++ ".c")%string.
Proof.
  induction lines as [|l ls IH]; simpl; [done|].
  destruct (re_match diff_pattern l) as [gs|] eqn:E.
  - intros [= <- <- <-]. apply re_match_sound in E as (rest & m & Hm & ->).
    destruct (diff_pattern_mrun _ _ _ Hm) as (a & f & r & o & p & x & -> & ->).
    eexists _, a, r, p, x, rest. split_and!; [left|reflexivity|done].
  - intros H. destruct (IH H) as (l' & a & r & p & x & tail & Hin & Hl & Hc).
    exists l', a, r, p, x, tail. split_and!; [by right|done|done].
Qed.

(** ** Witnesses *)

Lemma rf_wrap_witness :
  rf_loop sample_fn false sample_c =
    (map Echo [("int x;" ++ newline)%string] ++
     [Ins if_eu; Ins (sample_sig ++ ";")%string; Ins (global_asm sample_fn); Ins "#else";
      Echo (sample_sig ++ " {" ++ newline)%string] ++
     map Echo [("    bar();" ++ newline)%string] ++ [Echo close_brace; Ins "#endif"] ++
     map Echo [("int y;" ++ newline)%string])%list.
Proof.
  apply (rf_wrap sample_fn ["int x;" ++ newline] sample_sig ["    bar();" ++ newline]
                 ["int y;" ++ newline]); try (vm_compute; reflexivity).
  - repeat constructor.
  - apply not_elem_of_cons. split; [vm_compute; discriminate|apply not_elem_of_nil].
Defined.

Lemma rf_balanced_witness :
  count_ins if_eu (rf_loop sample_fn false sample_c) + Nat.b2n false =
  count_ins "#endif" (rf_loop sample_fn false sample_c) + Nat.b2n (rf_inside sample_fn false sample_c).
Proof.
  apply rf_balanced. vm_compute.
  repeat split; intros; first [discriminate | reflexivity | exfalso; congruence].
Defined.

Lemma rf_unbalanced_witness :
  count_ins if_eu (rf_loop "foo" false recursive_c) = 2 /\
  count_ins "#endif" (rf_loop "foo" false recursive_c) = 1.
Proof.
  assert (recursive_c = ([] ++ ["void foo(s32 n)" ++ " {" ++ newline]%string ++ [] ++
            ["    if (n && foo(n - 1))" ++ " {" ++ newline]%string ++
            ["        n++;" ++ newline; "    }" ++ newline]%string ++ [close_brace] ++ [])%list) as -> by reflexivity.
  rewrite (rf_unbalanced "foo" [] "void foo(s32 n)" [] "    if (n && foo(n - 1))"
             ["        n++;" ++ newline; "    }" ++ newline]%string []).
  - vm_compute. split; reflexivity.
  - vm_compute. reflexivity.
  - vm_compute. reflexivity.
  - vm_compute. reflexivity.
  - vm_compute. reflexivity.
  - vm_compute. reflexivity.
  - vm_compute. reflexivity.
  - repeat constructor; vm_compute; reflexivity.
  - refine (bool_decide_unpack _ _). vm_compute. reflexivity.
Defined.

Lemma prompt_spec_witness : (prompt true (sample_world ["maybe"; "y"; "z"])).1 = Ok "y".
Proof.
  rewrite (prompt_spec true _ ["maybe"] "y" ["z"]); [reflexivity|reflexivity| |].
  - repeat constructor. rewrite list_elem_of_In. simpl. intuition discriminate.
  - rewrite list_elem_of_In. simpl. tauto.
Defined.

Lemma main_bail_n_witness :
  written (w_trace (@main sample_shell "/home/u/sm64" false 42 (sample_world ["n"])).2) =
  written (w_trace (sample_world ["n"])).
Proof.
  eapply (@main_bail_n sample_shell _ _ _ _ _ _ _ _ [] []); [vm_compute; reflexivity|vm_compute; reflexivity|].
  constructor.
Defined.

Lemma relative_source_witness :
  is_file (sample_world []) (resolve ["home"; "u"] "sm64/first-diff.py") = true /\
  @get_next_nonmatching sample_shell "sm64" (sample_world []) =
    (Raise (OSError "FileNotFoundError"), set_cwd (resolve ["home"; "u"] "sm64") (sample_world [])).
Proof.
  split; [vm_compute; reflexivity|].
  apply relative_source_breaks_first_diff; vm_compute; reflexivity.
Defined.

Lemma write_asm_content_witness :
  exists w', @write_asm sample_shell "/home/u/sm64" sample_fn "0x1000" 42 (sample_world ["y"]) =
               (Ok (asm_path "/home/u/sm64" sample_fn), w') /\
    w_files w' !! (sample_root ++ ["asm"; "non_matchings"; "func_80240000_eu.s"])%list =
      Some ("glabel func_80240000" ++ newline ++ "0x80240000:" ++ newline ++
            "  addiu $sp, $sp, -0x18" ++ newline ++ "  jal 0x80250000" ++ newline ++
            ".L42_80240010:" ++ newline ++ "  jr    $ra" ++ newline ++ "  nop" ++ newline) /\
    w_stdin w' = [].
Proof.
  eapply (@write_asm_content sample_shell "/home/u/sm64" sample_fn "0x1000" 42 _ "/tools" _ _
            ["func_80240000:"; "  addiu $sp, $sp, -0x18"; "  jal func_80250000"; ".L80240010:"]
            "  jr    $ra" "  nop" ["  other"; ""] "y" []);
    try (vm_compute; reflexivity); try (vm_compute; discriminate).
  repeat constructor.
Defined.

Lemma first_diff_sound_witness :
  exists l a r p x tail, l ∈ [sample_diff_line] /\
    l = ("First difference at ROM addr " ++ a ++ ", in " ++ "func_80240000" ++ " (ram " ++ r ++
         ", rom " ++ "0x1000" ++ ", build/eu/" ++ p ++ String x ("o)" ++ tail))%string /\
    "src/game/foo.c" = (p ++ ".c")%string.
Proof. apply first_diff_sound. vm_compute. reflexivity. Defined.

End AddNonmatching.
