(* ===== verification/TextExtract.v ===== *)
(** * text_extract.py: the game's text tables and a ROM byte dump

    The script reads bytes from a ROM image ([get_n_bytes]), splits them
    into phrases at [0xff] and drops the [0x00] padding ([parse]),
    decodes every byte through [charmap.txt] ([charmap], [translate]),
    prints C [#define]s for English/French/German triplets
    ([print_triplet]) or an EU variant of a text array declaration
    ([ezcopy]); its [__main__] block prints the bytes of a file from an
    offset on as a C array initializer, eight per row.

    Representation: Python [bytes] are [list byte]; a Python [str] is its
    UTF-8 encoding as a Rocq [string].  Splitting, prefix tests, joining
    and replacing give the same result on the encoding as on the code
    points, because a UTF-8 encoding never matches inside another
    character; the two operations that look at single characters are
    modelled on characters: [text[1:-1]] drops one code point at each
    end ([slice_1_m1]) and [c.isalnum()] runs over the UTF-8 characters
    ([utf8_chars]), exact on ASCII and given by the parameter
    [uc_isalnum] (Unicode's table) elsewhere.  Default arguments are
    explicit parameters. *)

From Stdlib Require Import ZArith String Ascii Lia.
From Stdlib Require Init.Byte Strings.Byte.
From Equations Require Import Equations.
From stdpp Require Import gmap.
From S2P Require Import Prelude PyStr PyInt Regex PyIO.

Local Open Scope string_scope.
#[local] Set Warnings "-abstract-large-number".

Module TextExtract.
Import Regex.

Abbreviation byte := Init.Byte.byte.

#[export] Instance byte_eq_dec : EqDecision byte := Byte.byte_eq_dec.

(** ** [chunks] (lines 6-8) *)

(** [range(i, stop, step)] for [step > 0]; [fuel] bounds the number of
    elements ([stop] is enough). *)
Fixpoint range_from (fuel i step stop : nat) : list nat :=
  match fuel with
  | O => []
  | S f => if i <? stop then i :: range_from f (i + step) step stop else []
  end%nat.

(** [range(0, stop, step)] *)
Definition py_range0 (stop step : nat) : list nat := range_from stop 0 step stop.

(** [list(chunks(l, n))]: [range] raises [ValueError] for a zero step
    and is empty for a negative one; [l[i:i+n]] is [take n (drop i l)]. *)
Definition chunks {A} (l : list A) (n : Z) : result (list (list A)) :=
  if bool_decide (n = 0%Z) then Raise ValueError
  else if bool_decide (n < 0)%Z then Ok []
  else Ok (map (fun i => take (Z.to_nat n) (drop i l)) (py_range0 (length l) (Z.to_nat n))).

(** A reference definition: the first [S k] elements, then the rest. *)
Equations? chunks_ref {A} (k : nat) (l : list A) : list (list A) by wf (length l) lt :=
  chunks_ref k [] := [];
  chunks_ref k (x :: xs) := take (S k) (x :: xs) :: chunks_ref k (drop (S k) (x :: xs)).
Proof. simpl. rewrite length_drop. lia. Defined.

(** ** [get_n_bytes] (lines 11-16): the slice end is commented out, so
    [n] is not used. *)
Definition get_n_bytes (n : Z) (filename : string) (offset : nat) : io (list byte) :=
  b ← read_bytes filename;
  mret (drop offset b).

(** ** [parse] (lines 19-20) *)

(** [bytes.split(sep)] for a one-byte separator; [cur] is the current
    piece, reversed. *)
Fixpoint bsplit_go (sep : byte) (l cur : list byte) : list (list byte) :=
  match l with
  | [] => [rev cur]
  | x :: l' => if decide (x = sep) then rev cur :: bsplit_go sep l' [] else bsplit_go sep l' (x :: cur)
  end.
Definition bsplit (sep : byte) (l : list byte) : list (list byte) := bsplit_go sep l [].

Definition parse (hexbytes : list byte) : list (list byte) :=
  map (filter (fun b => b <> Init.Byte.x00)) (bsplit Init.Byte.xff hexbytes).

(** [sep.join(pieces)] on bytes. *)
Fixpoint bjoin (sep : byte) (ls : list (list byte)) : list byte :=
  match ls with
  | [] => []
  | [x] => x
  | x :: ls' => x ++ sep :: bjoin sep ls'
  end.

(** ** [charmap] (lines 23-34) *)

(** [int.from_bytes(c, "big")] *)
Definition from_bytes_big (c : list byte) : Z :=
  fold_left (fun acc b => acc * 256 + Z.of_N (Byte.to_N b))%Z c 0%Z.

Definition hexdigit_upper (d : Z) : ascii :=
  match String.get (Z.to_nat d) upper_digits with Some c => c | None => "?"%char end.

(** [f"{n:0>2X}"] for [n >= 0]: upper-case digits, padded with [0] on
    the left to two characters. *)
Definition fmt_02X (n : Z) : string :=
  let s := string_of_list_ascii (map hexdigit_upper (to_digits (Z.to_nat (Z.log2 n)) n)) in
  string_of_list_ascii (repeat "0"%char (2 - String.length s)) ++ s.

(** A UTF-8 continuation byte ([10xxxxxx]). *)
Definition is_cont (c : ascii) : bool := ((128 <=? nat_of_ascii c) && (nat_of_ascii c <? 192))%nat.

Fixpoint skip_cont (s : string) : string :=
  match s with
  | String c s' => if is_cont c then skip_cont s' else s
  | "" => ""
  end.

(** [s[1:]] and [s[:-1]] on the code points of a UTF-8 string. *)
Definition drop_first_char (s : string) : string :=
  match s with "" => "" | String _ s' => skip_cont s' end.
Definition drop_last_char (s : string) : string :=
  match skip_cont (srev s) with "" => "" | String _ r => srev r end.

(** [text[1:-1]] *)
Definition slice_1_m1 (s : string) : string := drop_last_char (drop_first_char s).

(** One iteration of the loop of lines 27-32. *)
Definition charmap_step (v : string) (winner : option string) (map_line : string)
  : result (option string) :=
  if bool_decide (map_line = "") || startswith map_line "#" then Ok winner
  else match split " = " map_line with
       | [text; val] => Ok (if bool_decide (val = v) then Some (slice_1_m1 text) else winner)
       | _ => Raise ValueError
       end.

Fixpoint charmap_scan (v : string) (winner : option string) (lines : list string)
  : result (option string) :=
  match lines with
  | [] => Ok winner
  | l :: ls => w <- charmap_step v winner l ;; charmap_scan v w ls
  end.

(** [current_winner or "@"] *)
Definition or_at (w : option string) : string :=
  match w with Some s => if bool_decide (s = "") then "@" else s | None => "@" end.

Definition charmap (c : list byte) : io string :=
  t ← read_text "./sm64_source/charmap.txt";
  io_of_result (fmap_result or_at (charmap_scan ("0x" ++ fmt_02X (from_bytes_big c)) None (split newline t))).

(** ** [translate] (lines 37-41) *)

(** ["Ã•"]: U+00C3 U+2022, in UTF-8. *)
Definition mojibake_bullet : string :=
  String "195" (String "131" (String "226" (String "128" (String "162" "")))).

Definition translate (parsed : list (list byte)) : io (list string) :=
  io_mapM (fun s =>
    cs ← io_of_result (chunks s 1);
    strs ← io_mapM charmap cs;
    mret (replace mojibake_bullet " " (join "" strs))) parsed.

(** ** [print_triplet] (lines 44-52) *)

(** The characters of a UTF-8 string, each as its bytes: a lead byte and
    the continuation bytes after it. *)
Fixpoint utf8_chars_go (s cur : string) : list string :=
  match s with
  | "" => if cur is "" then [] else [srev cur]
  | String c s' =>
      if is_cont c then utf8_chars_go s' (String c cur)
      else (if cur is "" then [] else [srev cur]) ++ utf8_chars_go s' (String c "")
  end.
Definition utf8_chars (s : string) : list string := utf8_chars_go s "".

Definition ascii_isalnum (c : ascii) : bool :=
  let n := nat_of_ascii c in
  (((48 <=? n) && (n <=? 57)) || ((65 <=? n) && (n <=? 90)) || ((97 <=? n) && (n <=? 122)))%nat.

Definition dq : string := String "034" "".

Section Triplet.
(** [str.isalnum] on a character outside ASCII (Unicode's table). *)
Variable uc_isalnum : string -> bool.

Definition char_isalnum (ch : string) : bool :=
  match ch with String c "" => ascii_isalnum c | _ => uc_isalnum ch end.

(** [name] of line 46. *)
Definition triplet_name (en : string) : string :=
  join "" (filter (fun ch => bool_decide (ch = "_") || char_isalnum ch) (utf8_chars (replace " " "_" en))).

Definition print_triplet (triplet : list string) : io unit :=
  match triplet with
  | [en; fr; de] =>
      let base := "#define TEXT_" ++ triplet_name en in
      print (base ++ "_FR _(" ++ dq ++ fr ++ dq ++ ")");;
      print (base ++ "_DE _(" ++ dq ++ de ++ dq ++ ")");;
      print ""
  | _ => raise ValueError
  end.
End Triplet.

(** ** [ezcopy] (lines 55-71) *)

(** The pattern of line 59, item by item. *)
Definition ez_pattern : list item :=
  [Open; DotStar] ++ lits "[]" ++ [Close] ++ lits " = { " ++ [Open; DotStar; Close] ++ lits " };".

Definition ezcopy (line : string) : io unit :=
  print "#ifndef VERSION_EU";;
  print line;;
  print "#else";;
  match re_match ez_pattern line with
  | Some gs =>
      let g1 := nth 0 gs "" in
      let g2 := nth 1 gs "" in
      let triple := "{ " ++ g2 ++ " }, { " ++ g2 ++ "_FR }, { " ++ g2 ++ "_DE }" in
      print (g1 ++ "[20] = {" ++ triple ++ "};");;
      print "#endif";;
      print ""
  | None => raise AttributeError
  end.

(** ** The [__main__] block (lines 98-105) *)

(** The loop body for the [i]-th one-byte chunk [c]. *)
Definition dump_step (i : nat) (c : list byte) : io unit :=
  (if bool_decide (i mod 8 = 0)%nat then print_end (newline ++ "    ") "" else mret tt);;
  print_end ("0x" ++ fmt_02X (from_bytes_big c) ++ ", ") "".

Fixpoint dump_loop (i : nat) (cs : list (list byte)) : io unit :=
  match cs with
  | [] => mret tt
  | c :: cs' => dump_step i c;; dump_loop (S i) cs'
  end.

Definition rom_path : string := "./sm64_source/mio0_menu_baserom.out".

Definition main : io unit :=
  hexa ← get_n_bytes 0x400 rom_path 0xFF50;
  print ("{" ++ newline);;
  cs ← io_of_result (chunks hexa 1);
  dump_loop 0 cs;;
  print (newline ++ "}").


(** ** Observations used by the theorems *)

(** The token [dump_step] prints for a one-byte chunk. *)
Definition byte_token (b : byte) : string := "0x" ++ fmt_02X (from_bytes_big [b]).

(** The events [dump_loop i] appends for the bytes [bs], one byte a chunk. *)
Fixpoint dump_events (i : nat) (bs : list byte) : list event :=
  match bs with
  | [] => []
  | b :: bs' =>
      ((if bool_decide (i mod 8 = 0)%nat then [EOut (newline ++ "    ")] else []) ++
      EOut (byte_token b ++ ", ") :: dump_events (S i) bs')%list
  end.

(** The printed pieces that are array elements: those ending in [", "]. *)
Definition is_token (e : event) : bool :=
  match e with EOut s => endswith s ", " | _ => false end.
Definition tokens (es : list event) : list event := filter (fun e => is_token e = true) es.

(** The separator of the two groups of [ez_pattern]. *)
Definition ez_sep : string := "[] = { ".

(** Sample inputs: a ROM image [0x401] bytes longer than the offset, in
    the working directory, and an empty world. *)
Definition sample_rom : string := string_of_list_ascii (repeat "A"%char (0xFF50 + 0x401)).
Definition sample_world : world := mkworld ∅ [] ∅ [] [].
Definition sample_rom_world : world :=
  mkworld {[ ["sm64_source"; "mio0_menu_baserom.out"] := sample_rom ]} [] ∅ [] [].

(** ** Properties *)

(** The comprehension over [range(i, len(l), k+1)] builds the reference
    pieces of [l[i:]]; [fuel] only needs to exceed [len(l) - i]. *)
Lemma range_chunks {A} (l : list A) k fuel i :
  length l - i <= fuel ->
  map (fun j => take (S k) (drop j l)) (range_from fuel i (S k) (length l)) = chunks_ref k (drop i l).
Proof.
  revert i; induction fuel as [|f IH]; intros i Hf; cbn [range_from].
  - rewrite drop_ge by lia. by simp chunks_ref.
  - destruct (Nat.ltb_spec i (length l)) as [Hi|Hi].
    + destruct (drop i l) as [|x xs] eqn:E.
      { apply (f_equal length) in E. rewrite length_drop in E. simpl in E. lia. }
      simp chunks_ref. cbn [map]. f_equal; [by rewrite E|].
      rewrite IH by lia. by rewrite <-drop_drop, E.
    + rewrite drop_ge by lia. by simp chunks_ref.
Qed.

Lemma chunks_pos {A} (l : list A) n :
  (0 < n)%Z -> chunks l n = Ok (chunks_ref (Z.to_nat n - 1) l).
Proof.
  intros Hn. unfold chunks. rewrite !bool_decide_eq_false_2 by lia. f_equal.
  unfold py_range0. assert (Z.to_nat n = S (Z.to_nat n - 1)) as Hk by lia.
  remember (Z.to_nat n - 1) as k. rewrite Hk. rewrite range_chunks by lia. done.
Qed.

(** C33: [list(chunks(l, n))] is, for a positive [n], the reference
    splitting of [l] into pieces of [n] (the first [n] elements, then the
    rest); a zero step raises [ValueError] and a negative one gives no
    pieces. *)
Theorem chunks_equiv {A} (l : list A) n :
  chunks l n = if decide (n = 0)%Z then Raise ValueError
               else if decide (n < 0)%Z then Ok []
               else Ok (chunks_ref (Z.to_nat n - 1) l).
Proof.
  destruct (decide (n = 0)%Z) as [->|H0]; [done|].
  destruct (decide (n < 0)%Z) as [Hn|Hn].
  - unfold chunks. by rewrite bool_decide_eq_false_2, bool_decide_eq_true_2.
  - apply chunks_pos. lia.
Qed.

(** The reference pieces concatenate back to the list. *)
Lemma chunks_ref_concat {A} k (l : list A) : mjoin (chunks_ref k l) = l.
Proof.
  funelim (chunks_ref k l); simp chunks_ref; [done|]. cbn [mjoin list_join].
  etransitivity; [apply (f_equal (app _) H)|]. apply take_drop.
Qed.

(** Every reference piece has between one and [k+1] elements, and all
    but the last exactly [k+1]. *)
Lemma chunks_ref_lengths {A} k (l : list A) :
  Forall (fun c => 0 < length c <= S k) (chunks_ref k l) /\
  Forall (fun c => length c = S k) (removelast (chunks_ref k l)).
Proof.
  funelim (chunks_ref k l); simp chunks_ref; [done|].
  match goal with IH : _ /\ _ |- _ => destruct IH as [H1 H2] end. split.
  - constructor; [|done]. rewrite length_take. simpl. lia.
  - destruct (chunks_ref k (drop (S k) (x :: xs))) as [|c cs] eqn:E; [done|].
    cbn [removelast]. constructor; [|done].
    rewrite length_take. assert (drop (S k) (x :: xs) <> []) as Hne.
    { intros Hd. rewrite Hd in E. by simp chunks_ref in E. }
    destruct (decide (S k <= length (x :: xs))); [lia|]. exfalso. apply Hne. apply drop_ge. lia.
Qed.

(** Round trip of [chunks]: for a positive [n] the pieces concatenate to
    [l], each has between one and [n] elements, all but the last exactly
    [n]. *)
Theorem chunks_roundtrip {A} (l : list A) n cs :
  (0 < n)%Z -> chunks l n = Ok cs ->
  mjoin cs = l /\ Forall (fun c => (0 < Z.of_nat (length c) <= n)%Z) cs /\
  Forall (fun c => Z.of_nat (length c) = n) (removelast cs).
Proof.
  intros Hn Hc. rewrite chunks_pos in Hc by done. injection Hc as <-.
  destruct (chunks_ref_lengths (Z.to_nat n - 1) l) as [H1 H2]. split_and!.
  - apply chunks_ref_concat.
  - eapply Forall_impl; [|exact H1]. simpl. lia.
  - eapply Forall_impl; [|exact H2]. simpl. lia.
Qed.

Lemma bsplit_go_nonempty sep l cur : bsplit_go sep l cur <> [].
Proof. revert cur; induction l as [|x l IH]; intros cur; simpl; [done|]. by case_decide. Qed.

Lemma bjoin_cons sep x ls : ls <> [] -> bjoin sep (x :: ls) = (x ++ sep :: bjoin sep ls)%list.
Proof. by destruct ls. Qed.

(** [sep.join(l.split(sep))] gives back [l]. *)
Lemma bjoin_bsplit_go sep l cur : bjoin sep (bsplit_go sep l cur) = (rev cur ++ l)%list.
Proof.
  revert cur; induction l as [|x l IH]; intros cur; simpl; [by rewrite app_nil_r|].
  case_decide as Hx.
  - rewrite bjoin_cons by apply bsplit_go_nonempty. rewrite IH. by subst.
  - rewrite IH. simpl. by rewrite <-app_assoc.
Qed.

(** No piece of a split contains the separator. *)
Lemma bsplit_go_sep_free sep l cur :
  sep ∉ cur -> Forall (fun p => sep ∉ p) (bsplit_go sep l cur).
Proof.
  revert cur; induction l as [|x l IH]; intros cur Hcur; simpl.
  - constructor; [|done]. by rewrite list_elem_of_In, <-in_rev, <-list_elem_of_In.
  - case_decide as Hx.
    + constructor; [by rewrite list_elem_of_In, <-in_rev, <-list_elem_of_In|]. apply IH. apply not_elem_of_nil.
    + apply IH. rewrite elem_of_cons. intros [?|?]; [congruence|done].
Qed.

(** Dropping bytes other than the separator commutes with joining. *)
Lemma bjoin_filter (P : byte -> Prop) `{forall b, Decision (P b)} sep ls :
  P sep -> bjoin sep (map (filter P) ls) = filter P (bjoin sep ls).
Proof.
  intros Hs. induction ls as [|x ls IH]; [done|].
  destruct ls as [|y ls]; [done|].
  change (bjoin sep (map (filter P) (x :: y :: ls))) with
    (filter P x ++ sep :: bjoin sep (map (filter P) (y :: ls)))%list.
  rewrite IH. change (bjoin sep (x :: y :: ls)) with (x ++ sep :: bjoin sep (y :: ls))%list.
  rewrite list.filter_app, filter_cons, decide_True by done. done.
Qed.

(** C34: [parse] loses only the [0x00] padding: joining its phrases with
    [0xff] gives the input without its [0x00] bytes, and no phrase contains
    [0xff] or [0x00]. *)
Theorem parse_spec hexbytes :
  bjoin Init.Byte.xff (parse hexbytes) = filter (fun b => b <> Init.Byte.x00) hexbytes /\
  Forall (fun p => (Init.Byte.xff ∉ p) /\ (Init.Byte.x00 ∉ p)) (parse hexbytes).
Proof.
  unfold parse, bsplit. split.
  - rewrite bjoin_filter by done. by rewrite bjoin_bsplit_go.
  - pose proof (bsplit_go_sep_free Init.Byte.xff hexbytes [] (not_elem_of_nil _)) as H.
    apply Forall_map. eapply Forall_impl; [|exact H]. intros p Hp. split.
    + intros Hin. apply list_elem_of_filter in Hin as [_ ?]. done.
    + intros Hin. by apply list_elem_of_filter in Hin as [? _].
Qed.

(** The token of a byte is four characters, [0x] and two upper-case hex
    digits, and [int(_, 16)] reads the byte back. *)
Lemma byte_token_int16 b :
  int16 (byte_token b) = Ok (Z.of_N (Byte.to_N b)) /\ String.length (byte_token b) = 4%nat.
Proof. destruct b; vm_compute; split; reflexivity. Qed.

(** [chunks(l, 1)] is the list of one-element pieces. *)
Lemma chunks_one {A} (l : list A) : chunks l 1 = Ok (map (fun x => [x]) l).
Proof.
  rewrite chunks_pos by lia. f_equal. change (Z.to_nat 1 - 1)%nat with 0%nat.
  induction l as [|x l IH]; simp chunks_ref; [done|].
  change (drop 1 (x :: l)) with l. by rewrite IH.
Qed.

(** The loop of lines 100-104 on one-byte chunks. *)
Lemma dump_loop_run i bs w :
  dump_loop i (map (fun x => [x]) bs) w = (Ok tt, log_all (dump_events i bs) w).
Proof.
  revert i w; induction bs as [|b bs IH]; intros i w; [by rewrite log_all_nil|].
  cbn [map dump_loop dump_events]. unfold dump_step, mbind, io_bind.
  case_bool_decide; cbn -[Nat.modulo].
  - rewrite IH, sapp_nil_r, !log_all_log. done.
  - rewrite IH, sapp_nil_r, log_all_log. done.
Qed.

Lemma get_n_bytes_run n f off w t :
  w_files w !! resolve (w_cwd w) f = Some t ->
  get_n_bytes n f off w = (Ok (drop off (list_byte_of_string t)), w).
Proof. intros Ht. unfold get_n_bytes, mbind, io_bind, read_bytes. by rewrite Ht. Qed.

(** Without the ROM image the block raises before printing. *)
Lemma main_missing w :
  w_files w !! resolve (w_cwd w) rom_path = None ->
  main w = (Raise (OSError "FileNotFoundError"), w).
Proof. intros Ht. unfold main. apply io_bind_raise. unfold get_n_bytes, mbind, io_bind, read_bytes, rom_path in *. by rewrite Ht. Qed.

Lemma is_token_byte b : is_token (EOut (byte_token b ++ ", ")) = true.
Proof. by destruct b; vm_compute. Qed.

(** The array elements printed by the loop are the tokens of the bytes,
    in order. *)
Lemma tokens_dump_events i bs :
  tokens (dump_events i bs) = map (fun b => EOut (byte_token b ++ ", ")) bs.
Proof.
  unfold tokens. revert i; induction bs as [|b bs IH]; intros i; [done|].
  cbn [dump_events map]. rewrite list.filter_app, filter_cons_True by apply is_token_byte.
  rewrite IH. case_bool_decide; [|done]. by rewrite filter_cons_False.
Qed.

(** C35: the [__main__] block prints, as array elements and in order, the
    token of every byte of the ROM image from offset [0xFF50] to its end:
    the length [0x400] passed to [get_n_bytes] limits nothing. *)
Theorem main_prints_bytes w t :
  w_files w !! resolve (w_cwd w) rom_path = Some t ->
  exists es, main w = (Ok tt, log_all es w) /\
    tokens es = map (fun b => EOut (byte_token b ++ ", ")) (drop 0xFF50 (list_byte_of_string t)).
Proof.
  intros Ht. exists ([EOut ("{" ++ newline ++ newline)] ++
                     dump_events 0 (drop 0xFF50 (list_byte_of_string t)) ++
                     [EOut (newline ++ "}" ++ newline)])%list. split.
  - unfold main.
    rewrite (io_bind_ok _ _ _ _ _ (get_n_bytes_run _ _ _ _ _ Ht)).
    rewrite (io_bind_ok _ _ _ _ _ (print_run _ _)), chunks_one.
    erewrite io_bind_ok by reflexivity.
    rewrite (io_bind_ok _ _ _ _ _ (dump_loop_run _ _ _)), print_run.
    rewrite !log_all_log, log_log_all, <-!sapp_assoc. done.
  - unfold tokens. rewrite !list.filter_app, !filter_cons_False, filter_nil by done.
    fold (tokens (dump_events 0 (drop 0xFF50 (list_byte_of_string t)))).
    by rewrite tokens_dump_events, app_nil_r.
Qed.

(** The matches of the pattern of line 59. *)
Lemma ez_pattern_mrun l rest m :
  mrun ez_pattern l rest m <->
  exists u1 u2, l = (u1 ++ "[]" ++ " = { " ++ u2 ++ " };" ++ rest)%string /\ no_nl u1 = true /\
    no_nl u2 = true /\
    m = [l; (" = { " ++ u2 ++ " };" ++ rest)%string; (u2 ++ " };" ++ rest)%string; (" };" ++ rest)%string].
Proof.
  change ez_pattern with (Open :: DotStar :: (lits "[]" ++ Close :: (lits " = { " ++
    Open :: DotStar :: Close :: lits " };")%list)%list).
  rewrite mrun_group. setoid_rewrite mrun_star. setoid_rewrite mrun_lits.
  setoid_rewrite mrun_close. setoid_rewrite mrun_lits. setoid_rewrite mrun_group.
  setoid_rewrite mrun_star. setoid_rewrite mrun_close. setoid_rewrite mrun_lits_end.
  split.
  - intros (m' & -> & u1 & r1 & -> & Hu1 & r2 & -> & m2 & -> & r3 & -> & m3 & -> & u2 & r4 & -> & Hu2 & m4 & -> & -> & ->).
    by exists u1, u2.
  - intros (u1 & u2 & -> & Hu1 & Hu2 & ->). eexists; split; [done|].
    exists u1. eexists; split; [done|]. split; [done|]. eexists; split; [done|].
    eexists; split; [done|]. eexists; split; [done|]. eexists; split; [done|].
    exists u2. eexists; split; [done|]. split; [done|]. eexists; split; [done|]. done.
Qed.

(** The groups of line 59 on a declaration [a[] = { b };]. *)
Lemma ez_match a b :
  no_nl a = true -> no_nl b = true ->
  contains a ez_sep = false -> contains (b ++ " };") ez_sep = false -> contains b " };" = false ->
  re_match ez_pattern (a ++ ez_sep ++ b ++ " };") = Some [(a ++ "[]")%string; b].
Proof.
  intros Ha Hb Ha' Hb' Hb''. apply re_match_unique.
  - exists "", [(a ++ ez_sep ++ b ++ " };")%string; (" = { " ++ b ++ " };")%string; (b ++ " };")%string; " };"].
    apply ez_pattern_mrun. exists a, b. rewrite !sapp_nil_r. done.
  - intros rest m (u1 & u2 & E & _ & _ & ->)%ez_pattern_mrun.
    change ("[]" ++ " = { " ++ u2 ++ " };" ++ rest)%string with (ez_sep ++ u2 ++ " };" ++ rest)%string in E.
    destruct (sep_unique ez_sep a (b ++ " };") u1 (u2 ++ " };" ++ rest) eq_refl Ha' Hb' E) as [-> E2].
    symmetry in E2. rewrite <-(sapp_nil_r " };") in E2 at 1.
    destruct (sep_unique " };" b "" u2 rest eq_refl Hb'' (contains_nil " };" ltac:(discriminate)) E2) as [-> ->].
    rewrite E. change ez_sep with ("[]" ++ " = { ")%string. rewrite <-sapp_assoc, sapp_assoc.
    by rewrite !groups_cons.
Qed.

(** C36: [ezcopy] on a declaration [a[] = { b };] prints it between
    [#ifndef VERSION_EU] and [#else], then the EU declaration
    [a[][20] = {{ b }, { b_FR }, { b_DE }};], [#endif] and an empty line. *)
Theorem ezcopy_spec a b w :
  no_nl a = true -> no_nl b = true ->
  contains a ez_sep = false -> contains (b ++ " };") ez_sep = false -> contains b " };" = false ->
  ezcopy (a ++ ez_sep ++ b ++ " };") w =
    (Ok tt, log_all (lines_out ["#ifndef VERSION_EU"; a ++ ez_sep ++ b ++ " };"; "#else";
       a ++ "[][20] = {{ " ++ b ++ " }, { " ++ b ++ "_FR }, { " ++ b ++ "_DE }};"; "#endif"; ""]) w).
Proof.
  intros Ha Hb Ha' Hb' Hb''. unfold ezcopy.
  rewrite !(io_bind_ok _ _ _ _ _ (print_log_all _ _)), ez_match by done. simpl nth.
  rewrite !(io_bind_ok _ _ _ _ _ (print_log_all _ _)), print_log_all, !log_all_app.
  do 2 f_equal. unfold lines_out. cbn [map app]. rewrite <-!sapp_assoc. reflexivity.
Qed.

(** On a line without the separator [ez_sep] the match fails and [ezcopy] raises
    [AttributeError] ([None.group]) after printing its first three lines. *)
Theorem ezcopy_no_match line w :
  contains line ez_sep = false ->
  ezcopy line w = (Raise AttributeError, log_all (lines_out ["#ifndef VERSION_EU"; line; "#else"]) w).
Proof.
  intros Hl. destruct (re_match ez_pattern line) eqn:E.
  - apply re_match_sound in E as (rest & m & Hm & _). apply ez_pattern_mrun in Hm as (u1 & u2 & -> & _).
    change ("[]" ++ " = { " ++ u2 ++ " };" ++ rest)%string with (ez_sep ++ u2 ++ " };" ++ rest)%string in Hl.
    by rewrite contains_mid in Hl.
  - unfold ezcopy. rewrite !(io_bind_ok _ _ _ _ _ (print_log_all _ _)), E.
    by rewrite !log_all_app.
Qed.

(** ** Witnesses *)

Lemma main_prints_bytes_witness :
  exists es, main sample_rom_world = (Ok tt, log_all es sample_rom_world) /\
    length (tokens es) = 0x401%nat.
Proof.
  destruct (main_prints_bytes sample_rom_world sample_rom) as (es & H1 & H2);
    [reflexivity|].
  exists es. split; [exact H1|]. rewrite H2, length_map. vm_compute. reflexivity.
Defined.

Lemma ezcopy_spec_witness :
  ezcopy ("static unsigned char textNew" ++ ez_sep ++ "TEXT_NEW" ++ " };") sample_world =
    (Ok tt, log_all (lines_out ["#ifndef VERSION_EU";
       "static unsigned char textNew" ++ ez_sep ++ "TEXT_NEW" ++ " };"; "#else";
       "static unsigned char textNew" ++ "[][20] = {{ " ++ "TEXT_NEW" ++ " }, { " ++ "TEXT_NEW" ++
       "_FR }, { " ++ "TEXT_NEW" ++ "_DE }};"; "#endif"; ""]) sample_world).
Proof. apply ezcopy_spec; vm_compute; reflexivity. Defined.

End TextExtract.
