(* ===== verification/BehaviorsHeaders.v ===== *)
(** * behaviors_headers.py: the [#include] lines a behavior file needs

    For every entry of [src/game/behaviors] the script compiles the file
    with gcc, collects the identifiers gcc reports as undeclared and the
    functions it reports as implicitly declared (the text between the
    quotes [‘] and [’] of those diagnostics), looks each one up (a table
    of prefixes, then [grep -r -P] over [src] and [include] with three
    patterns for symbols and one for functions), and prepends the sorted
    [#include] lines of the headers found, always with
    [include/object_fields.h], to the file.

    Python sets are [gset string]; a loop over a set runs over
    [elements], in some order, as CPython's hash order is.  [sorted] on
    strings is stdpp's [merge_sort] for [String.le], the order of
    code points (on UTF-8, the order of the bytes).  The quotes are the
    three-byte UTF-8 encodings of U+2018 and U+2019; slicing after
    [index("‘") + 1] drops that one character, so it is the text after
    the first occurrence of the quote.  gcc and grep are [Shell]
    programs. *)

From Stdlib Require Import ZArith String Ascii Lia.
From stdpp Require Import gmap sorting.
From S2P Require Import Prelude PyStr PyIO.

Local Open Scope string_scope.

Module BehaviorsHeaders.

(** ** Text helpers *)

(** The text before and after the first occurrence of [sub] in [s]:
    [s[:s.index(sub)]] and [s[s.index(sub) + len(sub):]]. *)
Fixpoint str_find (s sub : string) : option (string * string) :=
  if startswith s sub then Some ("", substring (String.length sub) (String.length s) s)
  else match s with
       | "" => None
       | String c s' => (fun '(a, b) => (String c a, b)) <$> str_find s' sub
       end.

(** [‘] and [’] in UTF-8. *)
Definition lquote : string := String "226" (String "128" (String "152" "")).
Definition rquote : string := String "226" (String "128" (String "153" "")).

Definition dq : string := String "034" "".

(** ** [get_unknown_symbols], [get_unknown_functions] (lines 9-44) *)

Definition gcc_argv (bhv_path : string) : list string :=
  ["gcc"; "-g"; "-nostdinc"; "-std=gnu90"; "-Wall"; "-Wextra"; "-Wno-format-security";
   "-DTARGET_N64"; "-DNON_MATCHING"; "-DAVOID_UB"; bhv_path].

(** Lines 20-23: the lines of gcc's error output that contain [marker]
    and an opening quote, cut after the first opening quote and then
    before the first closing quote ([index] raises [ValueError] when
    there is none). *)
Definition quoted (marker err : string) : result (list string) :=
  let lines := filter (fun l => contains l marker = true) (split newline err) in
  let suffixes := omap (fun l => snd <$> str_find l lquote) lines in
  mapM (fun prefix => match str_find prefix rquote with
                      | Some (a, _) => Ok a
                      | None => Raise ValueError
                      end) suffixes.

Section WithShell.
Context `{Shell}.

Definition gcc_quoted (marker bhv_path : string) : io (gset string) :=
  pr ← run (gcc_argv bhv_path);
  io_of_result (fmap_result list_to_set (quoted marker (stderr pr))).

Definition get_unknown_symbols (bhv_path : string) : io (gset string) :=
  gcc_quoted "undeclared" bhv_path.

Definition get_unknown_functions (bhv_path : string) : io (gset string) :=
  gcc_quoted "implicit declaration of function" bhv_path.

(** ** [find_symbol] (lines 47-82) *)

Definition comments : string := "\/\*(\*(?!\/)|[^*])*\*\/".
Definition defines (symbol : string) : string :=
  "^(\s|" ++ comments ++ ")*#define\s(" ++ comments ++ ")*\s*" ++ symbol ++ "\s".
Definition typedefs (symbol : string) : string := "typedef.*\s" ++ symbol ++ ";".
Definition declarations (symbol : string) : string := "[^=]+\s[\*]*" ++ symbol ++ "(\[.*\])*;".

(** One [grep -r -P pattern src include]: the non-empty output lines that
    contain [".h"] anywhere, cut before their first [":"]
    ([index] raises [ValueError] when there is none). *)
Definition grep_headers (pattern : string) : io (list string) :=
  pr ← run ["grep"; "-r"; "-P"; pattern; "src"; "include"];
  let nontrivial := filter (fun r => r <> "") (split newline (stdout pr)) in
  io_of_result (mapM (fun f => match str_find f ":" with
                               | Some (a, _) => Ok a
                               | None => Raise ValueError
                               end) (filter (fun f => contains f ".h" = true) nontrivial)).

(** Lines 61-72: the patterns in turn, until one finds a header; the
    result of the last one run. *)
Fixpoint grep_first (patterns : list string) : io (list string) :=
  match patterns with
  | [] => mret []
  | p :: ps => hs ← grep_headers p; if hs is [] then grep_first ps else mret hs
  end.

Definition find_symbol (symbol : string) : io (option string) :=
  if startswith symbol "DIALOG" then mret (Some "include/dialog_ids.h")
  else if startswith symbol "COURSE_" then mret (Some "include/course_table.h")
  else if startswith symbol "SEQ_" then mret (Some "include/seq_ids.h")
  else match str_find symbol "_seg7_collision" with
  | Some (level, _) => mret (Some ("levels/" ++ level ++ "/header.h"))
  | None =>
      hs ← grep_first [defines symbol; typedefs symbol; declarations symbol];
      match hs with
      | [] => print (symbol ++ " not found");; mret None
      | h :: _ => mret (Some (if bool_decide (h = "include/PR/mbi.h") then "include/PR/ultratypes.h" else h))
      end
  end.

(** ** [find_function] (lines 85-106) *)

Definition fn_pattern (func : string) : string :=
  "^[\w\s\*]*\w[\w\s\*]*[\s\*]+" ++ func ++ "\([^\(\)]*\);".

Definition find_function (func : string) : io (option string) :=
  if bool_decide (func ∈ ["sins"; "coss"]) then mret (Some "src/engine/math_util.h")
  else
    hs ← grep_headers (fn_pattern func);
    match hs with
    | [] => print (func ++ " not found");; mret None
    | h :: _ => mret (Some h)
    end.

(** ** [get_print_includes] (lines 109-113) *)

Definition include_line (file : string) : string := "#include " ++ dq ++ file ++ dq.

Definition get_print_includes (files : list string) : list string := map include_line files.

(** ** The [__main__] block (lines 116-136) *)

(** [if file := find(x): files.add(file)]: an empty string is false. *)
Fixpoint add_found (find : string -> io (option string)) (files : gset string) (xs : list string)
  : io (gset string) :=
  match xs with
  | [] => mret files
  | x :: xs' =>
      r ← find x;
      add_found find (match r with
                      | Some f => if bool_decide (f = "") then files else {[f]} ∪ files
                      | None => files
                      end) xs'
  end.

Definition sorted_strings (l : list string) : list string := merge_sort String.le l.

(** Lines 134-136: the sorted includes, then the lines of the file. *)
Definition new_text (includes : list string) (text : string) : string :=
  join newline (sorted_strings includes ++ split newline text).

Definition behaviors_dir : string := "./src/game/behaviors".

(** One iteration of the loop, for the entry [name]; [str(bhv_file)] is
    ["src/game/behaviors/" ++ name]. *)
Definition process (name : string) : io unit :=
  let bhv_file := "src/game/behaviors/" ++ name in
  symbols ← get_unknown_symbols bhv_file;
  files ← add_found find_symbol {["include/object_fields.h"]} (elements symbols);
  functions ← get_unknown_functions bhv_file;
  files ← add_found find_function files (elements functions);
  let includes := get_print_includes (elements files) in
  print bhv_file;;
  print (join newline (sorted_strings includes));;
  text ← read_text bhv_file;
  write_text bhv_file (new_text includes text).

Definition main : io unit :=
  names ← iterdir behaviors_dir;
  _ ← io_mapM process names;
  mret tt.

End WithShell.

(** Sample programs: gcc reporting an unclosed quote, grep finding a
    prototype in a [.c] file; an empty world. *)
Definition gcc_unclosed_err : string :=
  "x.c:12:3: error: " ++ lquote ++ "oFoo undeclared (first use in this function)".
Definition gcc_unclosed_shell : Shell :=
  {| sh_exec := fun _ _ fs => Some (mkproc 1 "" gcc_unclosed_err, fs) |}.
Definition grep_c_line : string := "src/game/obj.c:void bhv_foo(void); /* see object_helpers.h */".
Definition grep_c_shell : Shell :=
  {| sh_exec := fun _ _ fs => Some (mkproc 0 grep_c_line "", fs) |}.
Definition bh_world : world := mkworld ∅ [] ∅ [] [].
Definition sample_files : gset string := {["include/object_fields.h"; "include/sm64.h"; "src/game/obj.c"]}.

(** ** Properties *)


(** A found occurrence splits the string around it. *)
Lemma str_find_Some s sub a b : str_find s sub = Some (a, b) -> s = a ++ sub ++ b.
Proof.
  revert a b; induction s as [|c s IH]; intros a b; cbn [str_find].
  - destruct sub; [|discriminate]. intros [= <- <-]. by destruct (String.length "").
  - destruct (startswith (String c s) sub) eqn:E.
    + intros H. apply startswith_inv in E as [r Er]. rewrite Er in H |- *.
      rewrite substring_skip in H by (rewrite slength_app; lia). by injection H as <- <-.
    + destruct (str_find s sub) as [[a' b']|] eqn:F; simpl; [|congruence].
      intros [= <- <-]. by rewrite (IH a' b').
Qed.

(** [str_find] fails only when [sub] does not occur. *)
Lemma str_find_None s sub : str_find s sub = None -> contains s sub = false.
Proof.
  induction s as [|c s IH]; cbn [str_find contains].
  - by destruct (startswith "" sub).
  - destruct (startswith (String c s) sub); [done|].
    destruct (str_find s sub) as [[??]|]; simpl; [done|]. intros _. by rewrite IH.
Qed.

(** The first occurrence of a separator whose first character does not
    recur in it ([sep_ok]) ends the first piece. *)
Lemma str_find_first a sub b :
  sep_ok sub = true -> contains a sub = false -> str_find (a ++ sub ++ b) sub = Some (a, b).
Proof.
  intros Hok. induction a as [|c a IH]; intros Ha.
  - destruct sub as [|x sub']; [done|].
    change ("" ++ String x sub' ++ b) with (String x (sub' ++ b)). cbn [str_find].
    change (String x (sub' ++ b)) with (String x sub' ++ b).
    rewrite startswith_app, substring_skip; [done|]. rewrite slength_app. lia.
  - pose proof (sep_ok_no_straddle (String c a) sub b Hok ltac:(discriminate) Ha) as Hs.
    apply contains_cons_false in Ha as [_ Ha].
    change (String c a ++ sub ++ b) with (String c (a ++ sub ++ b)) in *. cbn [str_find].
    rewrite Hs, IH by done. done.
Qed.



(** Different headers give different [#include] lines. *)
#[local] Instance include_line_inj : Inj (=) (=) include_line.
Proof.
  intros f g E. unfold include_line in E.
  apply (inj (String.app "#include ")), (inj (String.app dq)), sapp_inj_r in E. done.
Qed.

(** [sorted] on strings: sorted, and a permutation of its input. *)
Lemma sorted_strings_spec l :
  Sorted String.le (sorted_strings l) /\ sorted_strings l ≡ₚ l.
Proof. split; [apply Sorted_merge_sort; apply _|apply merge_sort_Permutation]. Qed.

(** C37: the text written back to a behavior file is its include block, a
    line break and the old text unchanged; the block is sorted, has no
    duplicate, and holds exactly one [#include "f"] line per header [f]
    found, so it does not depend on the order in which the sets were
    iterated. *)
Theorem new_text_spec (files : gset string) text :
  "include/object_fields.h" ∈ files ->
  let block := sorted_strings (get_print_includes (elements files)) in
  new_text (get_print_includes (elements files)) text = join newline block ++ newline ++ text /\
  Sorted String.le block /\ NoDup block /\
  (forall l, l ∈ block <-> exists f, f ∈ files /\ l = include_line f).
Proof.
  intros Hf block. destruct (sorted_strings_spec (get_print_includes (elements files))) as [Hs Hp].
  fold block in Hs, Hp.
  assert (block <> []) as Hne.
  { intros E. rewrite E in Hp. symmetry in Hp. apply Permutation_nil_r, map_eq_nil in Hp.
    apply elem_of_elements in Hf. rewrite Hp in Hf. by apply not_elem_of_nil in Hf. }
  split_and!.
  - unfold new_text. fold block.
    rewrite join_app; [|exact Hne|unfold split; apply split_go_nonempty].
    rewrite join_split; [done|discriminate].
  - done.
  - rewrite Hp. apply NoDup_fmap; [apply _|apply NoDup_elements].
  - intros l. rewrite Hp. unfold get_print_includes. rewrite list_elem_of_fmap.
    setoid_rewrite elem_of_elements. naive_solver.
Qed.

(** A quote that does not occur is not found. *)
Lemma str_find_contains_false s sub : contains s sub = false -> str_find s sub = None.
Proof.
  destruct (str_find s sub) as [[a b]|] eqn:E; [|done].
  apply str_find_Some in E as ->. by rewrite contains_mid.
Qed.

(** Lines 22-23 raise when a selected line has an opening quote and no
    closing quote after it. *)
Lemma quoted_raise marker err l a b :
  l ∈ split newline err -> contains l marker = true ->
  l = a ++ lquote ++ b -> contains a lquote = false -> contains b rquote = false ->
  quoted marker err = Raise ValueError.
Proof.
  intros Hl Hm -> Ha Hb. unfold quoted.
  apply (mapM_raise_elem _ _ b).
  - apply list_elem_of_omap. exists (a ++ lquote ++ b). split.
    + apply list_elem_of_filter. done.
    + by rewrite str_find_first.
  - by rewrite str_find_contains_false.
  - intros y e'. destruct (str_find y rquote) as [[??]|]; congruence.
Qed.

Section Proofs.
Context `{Shell}.

(** C38: when gcc reports a line with [undeclared] whose first opening
    quote is not followed by a closing quote, [get_unknown_symbols]
    raises [ValueError] ([prefix.index("’")]) and the script stops
    before rewriting anything. *)
Theorem unknown_symbols_unclosed bhv_path pr w w' l a b :
  run (gcc_argv bhv_path) w = (Ok pr, w') ->
  l ∈ split newline (stderr pr) -> contains l "undeclared" = true ->
  l = a ++ lquote ++ b -> contains a lquote = false -> contains b rquote = false ->
  get_unknown_symbols bhv_path w = (Raise ValueError, w').
Proof.
  intros Hrun Hl Hm Heq Ha Hb. unfold get_unknown_symbols, gcc_quoted.
  rewrite (io_bind_ok _ _ _ _ _ Hrun). unfold io_of_result.
  by rewrite (quoted_raise _ _ l a b).
Qed.

(** C39: [find_function] keeps a grep result whenever [".h"] occurs
    anywhere in the output line, not only in the file name: a prototype
    in any file, a [.c] file included, is returned as the header to
    include. *)
Theorem find_function_any_h func pr w w' a rest :
  func ∉ ["sins"; "coss"] ->
  run ["grep"; "-r"; "-P"; fn_pattern func; "src"; "include"] w = (Ok pr, w') ->
  stdout pr = a ++ ":" ++ rest -> contains (a ++ ":" ++ rest) newline = false ->
  contains a ":" = false -> contains rest ".h" = true ->
  find_function func w = (Ok (Some a), w').
Proof.
  intros Hf Hrun Hout Hnl Ha Hh. unfold find_function. rewrite bool_decide_eq_false_2 by done.
  unfold grep_headers. rewrite io_bind_assoc, (io_bind_ok _ _ _ _ _ Hrun), Hout, split_nocontains by done.
  assert (a ++ ":" ++ rest <> "") as Hne by (by destruct a).
  rewrite filter_cons_True by done. rewrite filter_nil, filter_cons_True, filter_nil.
  2:{ by apply contains_suffix, contains_suffix. }
  cbn [mapM]. rewrite str_find_first by done. done.
Qed.

End Proofs.

(** ** Witnesses *)

Lemma new_text_spec_witness :
  new_text (get_print_includes (elements sample_files)) "int x;" =
    join newline (sorted_strings (get_print_includes (elements sample_files))) ++ newline ++ "int x;".
Proof.
  destruct (new_text_spec sample_files "int x;") as [H _];
    [refine (bool_decide_unpack _ _); vm_compute; exact I|].
  exact H.
Defined.

Lemma unknown_symbols_unclosed_witness :
  exists w', @get_unknown_symbols gcc_unclosed_shell "src/game/behaviors/x.c" bh_world = (Raise ValueError, w').
Proof.
  eexists. eapply (@unknown_symbols_unclosed gcc_unclosed_shell _ _ _ _ gcc_unclosed_err
                     "x.c:12:3: error: " "oFoo undeclared (first use in this function)").
  - reflexivity.
  - vm_compute. left.
  - vm_compute. reflexivity.
  - reflexivity.
  - vm_compute. reflexivity.
  - vm_compute. reflexivity.
Defined.

Lemma find_function_any_h_witness :
  exists w', @find_function grep_c_shell "bhv_foo" bh_world = (Ok (Some "src/game/obj.c"), w').
Proof.
  eexists. eapply (@find_function_any_h grep_c_shell _ _ _ _ "src/game/obj.c"
                     "void bhv_foo(void); /* see object_helpers.h */").
  - refine (bool_decide_unpack _ _). vm_compute. exact I.
  - reflexivity.
  - reflexivity.
  - vm_compute. reflexivity.
  - vm_compute. reflexivity.
  - vm_compute. reflexivity.
Defined.

End BehaviorsHeaders.
