(* ===== verification/UnusedAsm.v ===== *)
(** * unused_asm.py: moving the EU assembly of non-matching functions

    Run from the root of the decompilation, the script lists
    [asm/non_matchings/*.s]; every file whose name ends with [eu.s] or
    [eu.inc.s] is moved into [asm/non_matchings/eu] with the [_eu] of its
    name dropped, and the first C file under [src] that mentions the old
    path gets every mention replaced by the new one.  [delete_if_unused]
    (deleting an assembly file no source mentions) is defined but its
    call is commented out.

    [Path("./asm/non_matchings").glob("*.s")] is the directory's entries
    whose name ends with [".s"] in the map's order, [rglob("*.c")] the
    files below [src] whose name ends with [".c"], in the map's order
    (both orders are unspecified in Python); a string of the form
    [str(p)] is the components joined by ["/"]. *)

From Stdlib Require Import String.
From stdpp Require Import gmap.
From S2P Require Import Prelude PyStr PyIO.

Local Open Scope string_scope.

Module UnusedAsm.

Section WithShell.
Context `{Shell}.

(** ** [delete_if_unused] (lines 6-12) *)
Definition delete_if_unused (nonmatching : string) : io unit :=
  pr ← run ["grep"; "-r"; nonmatching; "./src"; "./lib"];
  if bool_decide (returncode pr <> 0%Z)
  then print ("deleting " ++ nonmatching);; unlink nonmatching
  else mret tt.

End WithShell.

(** ** The loop of lines 15-36 *)

Definition asm_dir : string := "asm/non_matchings".

(** The test of line 18. *)
Definition is_eu (nonmatching : string) : bool :=
  endswith nonmatching "eu.s" || endswith nonmatching "eu.inc.s".

(** [name.replace("_eu.s", ".s").replace("_eu.inc.s", ".inc.s")] *)
Definition eu_name (name : string) : string :=
  replace "_eu.inc.s" ".inc.s" (replace "_eu.s" ".s" name).

(** [str(Path(nonmatching).parent / "eu" / eu_name(name))] for the
    listed [asm/non_matchings/name]. *)
Definition dest_of (name : string) : string := asm_dir ++ "/eu/" ++ eu_name name.

(** Lines 29-35: the first C file that mentions [nonmatching] gets every
    mention replaced; the loop stops there. *)
Fixpoint replace_in_sources (nonmatching dest : string) (srcs : list (list string)) : io unit :=
  match srcs with
  | [] => mret tt
  | rel :: srcs' =>
      let src_file := "src/" ++ join "/" rel in
      fulltext ← read_text src_file;
      if contains fulltext nonmatching
      then print ("replacing in " ++ src_file);;
           write_text src_file (replace nonmatching dest fulltext)
      else replace_in_sources nonmatching dest srcs'
  end.

(** One iteration of the loop of lines 16-36, for the listed name. *)
Definition move_one (name : string) : io unit :=
  let nonmatching := asm_dir ++ "/" ++ name in
  if negb (is_eu nonmatching) then mret tt
  else
    let dest := dest_of name in
    replace_path nonmatching dest;;
    srcs ← rglob "./src" ".c";
    replace_in_sources nonmatching dest srcs;;
    print ("done with " ++ dest).

Fixpoint move_all (names : list string) : io unit :=
  match names with
  | [] => mret tt
  | n :: ns => move_one n;; move_all ns
  end.

(** [glob("*.s")]: the listing is taken before the loop (line 16 builds
    the list first); a missing directory lists nothing. *)
Definition main : io unit := fun w =>
  let d := resolve (w_cwd w) ("./" ++ asm_dir) in
  move_all (filter (fun n => endswith n ".s" = true) (entries (w_files w) d)) w.

(** Sample file systems: three C files, the second and third of which
    mention the moved file. *)
Definition sample_nm : string := "asm/non_matchings/f_eu.s".
Definition sample_dest : string := dest_of "f_eu.s".
Definition sample_world : world :=
  mkworld {[ ["src"; "a.c"] := "int a;";
             ["src"; "b.c"] := "GLOBAL_ASM(asm/non_matchings/f_eu.s)";
             ["src"; "c.c"] := "GLOBAL_ASM(asm/non_matchings/f_eu.s)" ]} [] ∅ [] [].

(** ** Properties *)

(** The names line 18 accepts, and where line 24 sends them: a name
    ending in [_eu.s] loses its [_eu]; any other name ending in [eu.s]
    (here [bleu.s]) is also moved, under its own name. *)
Lemma dest_examples :
  is_eu (asm_dir ++ "/" ++ "f_eu.s") = true /\ dest_of "f_eu.s" = "asm/non_matchings/eu/f.s" /\
  is_eu (asm_dir ++ "/" ++ "g_eu.inc.s") = true /\ dest_of "g_eu.inc.s" = "asm/non_matchings/eu/g.inc.s" /\
  is_eu (asm_dir ++ "/" ++ "bleu.s") = true /\ dest_of "bleu.s" = "asm/non_matchings/eu/bleu.s".
Proof. split_and!; vm_compute; reflexivity. Qed.

(** C40: the source loop rewrites one file: the first C file in the
    listing that mentions the moved path gets every mention replaced by
    the new path, after the files before it were read and left alone;
    the files after it are not read, so a second file that mentions the
    old path keeps it. *)
Theorem replace_first_only nm dest pre rel post w t :
  Forall (fun r => exists u, w_files w !! resolve (w_cwd w) ("src/" ++ join "/" r) = Some u /\
                             contains u nm = false) pre ->
  w_files w !! resolve (w_cwd w) ("src/" ++ join "/" rel) = Some t -> contains t nm = true ->
  resolve (w_cwd w) ("src/" ++ join "/" rel) <> [] ->
  exists w', replace_in_sources nm dest (pre ++ rel :: post) w = (Ok tt, w') /\
    w_files w' = <[resolve (w_cwd w) ("src/" ++ join "/" rel) := replace nm dest t]> (w_files w) /\
    w_trace w' = (w_trace w ++ [EOut ("replacing in " ++ "src/" ++ join "/" rel ++ newline);
                                EWrite (resolve (w_cwd w) ("src/" ++ join "/" rel)) (replace nm dest t)])%list.
Proof.
  intros Hpre Ht Hc Hne. induction Hpre as [|r pre (u & Hu & Hcu) _ IH]; simpl.
  - rewrite (io_bind_ok _ _ _ _ _ (read_text_run _ _ _ Ht)), Hc.
    rewrite (io_bind_ok _ _ _ _ _ (print_run _ _)).
    rewrite (write_text_run _ _ _ t) by done. eexists. split; [done|]. split; [done|].
    unfold log, set_files. cbn [w_trace]. rewrite <-app_assoc. reflexivity.
  - rewrite (io_bind_ok _ _ _ _ _ (read_text_run _ _ _ Hu)), Hcu. exact IH.
Qed.

(** ** Witnesses *)

Lemma replace_first_only_witness :
  exists w', replace_in_sources sample_nm sample_dest ([["a.c"]] ++ ["b.c"] :: [["c.c"]]) sample_world =
    (Ok tt, w') /\
    w_files w' = <[resolve (w_cwd sample_world) ("src/" ++ join "/" ["b.c"]) :=
                     replace sample_nm sample_dest "GLOBAL_ASM(asm/non_matchings/f_eu.s)"]> (w_files sample_world) /\
    w_trace w' = (w_trace sample_world ++
      [EOut ("replacing in " ++ "src/" ++ join "/" ["b.c"] ++ newline);
       EWrite (resolve (w_cwd sample_world) ("src/" ++ join "/" ["b.c"]))
              (replace sample_nm sample_dest "GLOBAL_ASM(asm/non_matchings/f_eu.s)")])%list.
Proof.
  apply replace_first_only.
  - constructor; [|constructor]. exists "int a;". split; vm_compute; reflexivity.
  - vm_compute. reflexivity.
  - vm_compute. reflexivity.
  - vm_compute. discriminate.
Defined.

End UnusedAsm.
